(** * FIB / FIG processor of the DAB Fast Information Channel

    A shallow embedding of [src/dsp_dab_OLD/fib-processor.cpp]
    (class [FIBProcessor]) and the properties of its state store,
    debounce filter, dispatcher and date conversion.

    Conventions of the embedding:
    - C++ integers are [Z]; where the source can leave the range of its
      integer type the wrap-around is written out ([int8], [uint8],
      [size_t_of]).
    - A FIB or FIG pointer [uint8_t* d] is a function from element offset
      to element value ([bitvec]); the source keeps one bit per element
      (see the comment in [process_FIG2]: "convert the bit-vector into a
      byte-vector"), and [d = p + k] is [advance p k].
    - The member variables of [FIBProcessor] form the record [State];
      calls on [myRadioInterface] and [m_MOTManager] are appended to the
      [events] log of the state.
    - The two clocks read through [std::chrono] are inputs ([Clock]),
      read once per call of [processFIB] or [clearEnsemble].
    - A C++ exception is an outcome next to the state reached when it was
      thrown ([flow], [option exn]). *)

From stdpp Require Import gmap list fin_maps.
From Stdlib Require Import ZArith Lia.

Local Open Scope Z_scope.

(** ** Machine integers *)

Definition uint8 (x : Z) : Z := x mod 256.
Definition int8 (x : Z) : Z := (x + 128) mod 256 - 128.
Definition uint16 (x : Z) : Z := x mod 65536.
(** conversion of a signed index to [std::size_t] (64 bit) *)
Definition size_t_of (x : Z) : Z := x mod 2 ^ 64.

(** ** Bit vectors and the bit-field reader *)

Definition bitvec := Z -> Z.

(** [p + k] on a [uint8_t*]. *)
Definition advance (p : bitvec) (k : Z) : bitvec := fun i => p (k + i).

(** A buffer given by its elements; elements beyond the list read as 0. *)
Definition bitvec_of_list (l : list Z) : bitvec :=
  fun i => if i <? 0 then 0 else nth (Z.to_nat i) l 0.

(** Every element holds one bit. *)
Definition is_bit (b : Z) : Prop := b = 0 \/ b = 1.

(** Modelled from the spec: the [getBits] family ([getBits],
    [getBits_1] ... [getBits_8]) is declared in a header that is not part
    of the sources.  The spec gives the contract (section 4.1): the
    unsigned integer of [size] bits, most significant bit first, starting
    at bit [offset]; here over the one-bit-per-element buffers the source
    passes, an element contributing its lowest bit.  [getBits_from] shifts
    the bits in, one element after the other. *)
Fixpoint getBits_from (d : bitvec) (offset : Z) (size : nat) (res : Z) : Z :=
  match size with
  | O => res
  | S n => getBits_from d (offset + 1) n
             (Z.lor (Z.shiftl res 1) (Z.land (d offset) 1))
  end.

Definition getBits (d : bitvec) (offset size : Z) : Z :=
  getBits_from d offset (Z.to_nat size) 0.

Definition getBits_1 d offset := getBits d offset 1.
Definition getBits_2 d offset := getBits d offset 2.
Definition getBits_3 d offset := getBits d offset 3.
Definition getBits_4 d offset := getBits d offset 4.
Definition getBits_5 d offset := getBits d offset 5.
Definition getBits_6 d offset := getBits d offset 6.
Definition getBits_7 d offset := getBits d offset 7.
Definition getBits_8 d offset := getBits d offset 8.

(** Helpers to write test vectors: a byte as eight elements, MSB first. *)
Definition bits_of_byte (b : Z) : list Z :=
  map (fun k => Z.b2z (Z.testbit b k)) [7; 6; 5; 4; 3; 2; 1; 0].

Definition bits_of_bytes (bs : list Z) : list Z := flat_map bits_of_byte bs.

Definition fib_of_bytes (bs : list Z) : bitvec := bitvec_of_list (bits_of_bytes bs).

(** ** Data model

    The structs live in a header that is not part of the sources; the
    records below carry the members that [fib-processor.cpp] reads or
    writes, under the source's member names (prefixed by the struct). *)

Inductive CharacterSet := Undefined | UnicodeUcs2 | UnicodeUtf8.

Record DabLabel := mkDabLabel {
  lbl_fig1_label : list Z;
  lbl_fig1_flag : Z;
  lbl_charset : Z;
  lbl_toggle_flag : Z;
  lbl_segments : gmap Z (list Z);
  lbl_extended_label_charset : CharacterSet;
  lbl_segment_count : Z;
  lbl_fig2_rfu : Z
}.

Inductive EEPProtectionProfile := EEP_A | EEP_B.
Inductive EEPProtectionLevel := EEP_1 | EEP_2 | EEP_3 | EEP_4.

Record ProtectionSettings := mkProtectionSettings {
  ps_shortForm : bool;
  ps_uepTableIndex : Z;
  ps_uepLevel : Z;
  ps_eepProfile : EEPProtectionProfile;
  ps_eepLevel : EEPProtectionLevel
}.

Record Subchannel := mkSubchannel {
  sub_subChId : Z;
  sub_startAddr : Z;
  sub_length : Z;
  sub_programmeNotData : Z;
  sub_protectionSettings : ProtectionSettings;
  sub_language : Z;
  sub_fecScheme : Z
}.

Record Service := mkService {
  svc_serviceId : Z;
  svc_serviceLabel : DabLabel;
  svc_language : Z;
  svc_programType : Z
}.

Record ServiceComponent := mkServiceComponent {
  sc_TMid : Z;
  sc_SId : Z;
  sc_componentNr : Z;
  sc_ASCTy : Z;
  sc_PS_flag : Z;
  sc_subchannelId : Z;
  sc_SCId : Z;
  sc_CAflag : Z;
  sc_DSCTy : Z;
  sc_DGflag : Z;
  sc_packetAddress : Z;
  sc_componentLabel : DabLabel
}.

Record DateTime := mkDateTime {
  dt_year : Z;
  dt_month : Z;
  dt_day : Z;
  dt_hour : Z;
  dt_minutes : Z;
  dt_seconds : Z;
  dt_hourOffset : Z;
  dt_minuteOffset : Z
}.

(** Calls made on the collaborators ([RadioControllerInterface],
    the MOT manager), in the order they are made. *)
Inductive Event :=
| onNewEnsemble (eId : Z)
| onServiceDetected (SId : Z)
| onSetEnsembleLabel (l : DabLabel)
| onSetServiceLabel (SId : Z) (l : DabLabel)
| onDateTimeUpdate (dt : DateTime)
| HandleMOTDataGroup (data : list Z) (len : Z).

(** The member variables of [FIBProcessor]. *)
Record State := mkState {
  ensembleId : Z;
  ensembleEcc : Z;
  ensembleLabel : DabLabel;
  dateTime : DateTime;
  timeOffsetReceived : bool;
  services : list Service;
  components : list ServiceComponent;
  subChannels : list Subchannel;
  serviceRepeatCount : gmap Z Z;
  timeLastServiceDecrement : Z;
  timeLastFCT0Frame : Z;
  events : list Event
}.

(** Readings of [steady_clock::now()] and [system_clock::now()] at the
    time of a call, in nanoseconds. *)
Record Clock := mkClock { steady_now : Z; system_now : Z }.

Definition one_second : Z := 1000000000.

(** What the absent headers fix and the source only uses: the
    protection-level table and the member initialisers of a freshly
    constructed [Service] and [ServiceComponent]. *)
Record Header := mkHeader {
  ProtLevel : Z -> Z -> Z;
  Service_init : Service;
  ServiceComponent_init : ServiceComponent
}.

(** Modelled from the spec: the member initialisers of [Subchannel] are in
    a header that is not part of the sources.  Section 3 of the spec: a
    slot that is created is "marked invalid (sentinel id)"; the sentinel
    is the [-1] that [dropService] tests and assigns. *)
Definition Subchannel_init : Subchannel :=
  {| sub_subChId := -1; sub_startAddr := 0; sub_length := 0;
     sub_programmeNotData := 0;
     sub_protectionSettings :=
       {| ps_shortForm := true; ps_uepTableIndex := 0; ps_uepLevel := 0;
          ps_eepProfile := EEP_A; ps_eepLevel := EEP_1 |};
     sub_language := 0; sub_fecScheme := 0 |}.

(** [Service(SId)]: the constructor stores the id. *)
Definition Service_ctor (hdr : Header) (SId : Z) : Service :=
  let s := Service_init hdr in
  {| svc_serviceId := SId; svc_serviceLabel := svc_serviceLabel s;
     svc_language := svc_language s; svc_programType := svc_programType s |}.

(** *** Member updates *)

Definition set_ensembleId (v : Z) (st : State) : State :=
  mkState v (ensembleEcc st) (ensembleLabel st) (dateTime st)
    (timeOffsetReceived st) (services st) (components st) (subChannels st)
    (serviceRepeatCount st) (timeLastServiceDecrement st)
    (timeLastFCT0Frame st) (events st).

Definition set_ensembleEcc (v : Z) (st : State) : State :=
  mkState (ensembleId st) v (ensembleLabel st) (dateTime st)
    (timeOffsetReceived st) (services st) (components st) (subChannels st)
    (serviceRepeatCount st) (timeLastServiceDecrement st)
    (timeLastFCT0Frame st) (events st).

Definition set_ensembleLabel (v : DabLabel) (st : State) : State :=
  mkState (ensembleId st) (ensembleEcc st) v (dateTime st)
    (timeOffsetReceived st) (services st) (components st) (subChannels st)
    (serviceRepeatCount st) (timeLastServiceDecrement st)
    (timeLastFCT0Frame st) (events st).

Definition set_dateTime (v : DateTime) (st : State) : State :=
  mkState (ensembleId st) (ensembleEcc st) (ensembleLabel st) v
    (timeOffsetReceived st) (services st) (components st) (subChannels st)
    (serviceRepeatCount st) (timeLastServiceDecrement st)
    (timeLastFCT0Frame st) (events st).

Definition set_timeOffsetReceived (v : bool) (st : State) : State :=
  mkState (ensembleId st) (ensembleEcc st) (ensembleLabel st) (dateTime st)
    v (services st) (components st) (subChannels st)
    (serviceRepeatCount st) (timeLastServiceDecrement st)
    (timeLastFCT0Frame st) (events st).

Definition set_services (v : list Service) (st : State) : State :=
  mkState (ensembleId st) (ensembleEcc st) (ensembleLabel st) (dateTime st)
    (timeOffsetReceived st) v (components st) (subChannels st)
    (serviceRepeatCount st) (timeLastServiceDecrement st)
    (timeLastFCT0Frame st) (events st).

Definition set_components (v : list ServiceComponent) (st : State) : State :=
  mkState (ensembleId st) (ensembleEcc st) (ensembleLabel st) (dateTime st)
    (timeOffsetReceived st) (services st) v (subChannels st)
    (serviceRepeatCount st) (timeLastServiceDecrement st)
    (timeLastFCT0Frame st) (events st).

Definition set_subChannels (v : list Subchannel) (st : State) : State :=
  mkState (ensembleId st) (ensembleEcc st) (ensembleLabel st) (dateTime st)
    (timeOffsetReceived st) (services st) (components st) v
    (serviceRepeatCount st) (timeLastServiceDecrement st)
    (timeLastFCT0Frame st) (events st).

Definition set_serviceRepeatCount (v : gmap Z Z) (st : State) : State :=
  mkState (ensembleId st) (ensembleEcc st) (ensembleLabel st) (dateTime st)
    (timeOffsetReceived st) (services st) (components st) (subChannels st)
    v (timeLastServiceDecrement st) (timeLastFCT0Frame st) (events st).

Definition set_timeLastServiceDecrement (v : Z) (st : State) : State :=
  mkState (ensembleId st) (ensembleEcc st) (ensembleLabel st) (dateTime st)
    (timeOffsetReceived st) (services st) (components st) (subChannels st)
    (serviceRepeatCount st) v (timeLastFCT0Frame st) (events st).

Definition set_timeLastFCT0Frame (v : Z) (st : State) : State :=
  mkState (ensembleId st) (ensembleEcc st) (ensembleLabel st) (dateTime st)
    (timeOffsetReceived st) (services st) (components st) (subChannels st)
    (serviceRepeatCount st) (timeLastServiceDecrement st) v (events st).

(** A call on a collaborator. *)
Definition emit (e : Event) (st : State) : State :=
  mkState (ensembleId st) (ensembleEcc st) (ensembleLabel st) (dateTime st)
    (timeOffsetReceived st) (services st) (components st) (subChannels st)
    (serviceRepeatCount st) (timeLastServiceDecrement st)
    (timeLastFCT0Frame st) (events st ++ [e]).

Definition set_sub_subChId (v : Z) (s : Subchannel) : Subchannel :=
  mkSubchannel v (sub_startAddr s) (sub_length s) (sub_programmeNotData s)
    (sub_protectionSettings s) (sub_language s) (sub_fecScheme s).

Definition set_sub_startAddr (v : Z) (s : Subchannel) : Subchannel :=
  mkSubchannel (sub_subChId s) v (sub_length s) (sub_programmeNotData s)
    (sub_protectionSettings s) (sub_language s) (sub_fecScheme s).

Definition set_sub_length (v : Z) (s : Subchannel) : Subchannel :=
  mkSubchannel (sub_subChId s) (sub_startAddr s) v (sub_programmeNotData s)
    (sub_protectionSettings s) (sub_language s) (sub_fecScheme s).

Definition set_sub_programmeNotData (v : Z) (s : Subchannel) : Subchannel :=
  mkSubchannel (sub_subChId s) (sub_startAddr s) (sub_length s) v
    (sub_protectionSettings s) (sub_language s) (sub_fecScheme s).

Definition set_sub_protectionSettings (v : ProtectionSettings) (s : Subchannel) : Subchannel :=
  mkSubchannel (sub_subChId s) (sub_startAddr s) (sub_length s)
    (sub_programmeNotData s) v (sub_language s) (sub_fecScheme s).

Definition set_sub_language (v : Z) (s : Subchannel) : Subchannel :=
  mkSubchannel (sub_subChId s) (sub_startAddr s) (sub_length s)
    (sub_programmeNotData s) (sub_protectionSettings s) v (sub_fecScheme s).

Definition set_sub_fecScheme (v : Z) (s : Subchannel) : Subchannel :=
  mkSubchannel (sub_subChId s) (sub_startAddr s) (sub_length s)
    (sub_programmeNotData s) (sub_protectionSettings s) (sub_language s) v.

Definition set_svc_serviceLabel (v : DabLabel) (s : Service) : Service :=
  mkService (svc_serviceId s) v (svc_language s) (svc_programType s).

Definition set_svc_language (v : Z) (s : Service) : Service :=
  mkService (svc_serviceId s) (svc_serviceLabel s) v (svc_programType s).

Definition set_svc_programType (v : Z) (s : Service) : Service :=
  mkService (svc_serviceId s) (svc_serviceLabel s) (svc_language s) v.

Definition set_sc_componentLabel (v : DabLabel) (c : ServiceComponent) : ServiceComponent :=
  mkServiceComponent (sc_TMid c) (sc_SId c) (sc_componentNr c) (sc_ASCTy c)
    (sc_PS_flag c) (sc_subchannelId c) (sc_SCId c) (sc_CAflag c) (sc_DSCTy c)
    (sc_DGflag c) (sc_packetAddress c) v.

Inductive exn := runtime_error | out_of_range.

(** ** Lookups *)

(** [findServiceId]: the first service with that id; the index stands for
    the pointer the source returns. *)
Definition findServiceId (serviceId : Z) (st : State) : option (nat * Service) :=
  list_find (fun s => svc_serviceId s = serviceId) (services st).

Definition findComponent (serviceId SCIdS : Z) (st : State)
  : option (nat * ServiceComponent) :=
  list_find (fun sc => sc_SId sc = serviceId /\ sc_componentNr sc = SCIdS)
    (components st).

Definition findPacketComponent (SCId : Z) (st : State)
  : option (nat * ServiceComponent) :=
  list_find (fun c => sc_TMid c = 3 /\ sc_SCId c = SCId) (components st).

(** ** Binding components to services *)

(** The test shared by the three [bind...Service] functions: no component
    of service [s] has number [compnr]. *)
Definition component_absent (s : Service) (compnr : Z) (st : State) : bool :=
  bool_decide
    (list_find (fun sc => sc_SId sc = svc_serviceId s /\ sc_componentNr sc = compnr)
       (components st) = None).

Definition bindAudioService (hdr : Header)
    (TMid SId compnr subChId ps_flag ASCTy : Z) (st : State) : State :=
  match findServiceId SId st with
  | None => st
  | Some (_, s) =>
    if component_absent s compnr st then
      let n := ServiceComponent_init hdr in
      let newcomp :=
        mkServiceComponent TMid SId compnr ASCTy ps_flag subChId (sc_SCId n)
          (sc_CAflag n) (sc_DSCTy n) (sc_DGflag n) (sc_packetAddress n)
          (sc_componentLabel n) in
      set_components (components st ++ [newcomp]) st
    else st
  end.

Definition bindDataStreamService (hdr : Header)
    (TMid SId compnr subChId ps_flag DSCTy : Z) (st : State) : State :=
  match findServiceId SId st with
  | None => st
  | Some (_, s) =>
    if component_absent s compnr st then
      let n := ServiceComponent_init hdr in
      let newcomp :=
        mkServiceComponent TMid SId compnr (sc_ASCTy n) ps_flag subChId
          (sc_SCId n) (sc_CAflag n) DSCTy (sc_DGflag n) (sc_packetAddress n)
          (sc_componentLabel n) in
      set_components (components st ++ [newcomp]) st
    else st
  end.

(** The subchannel of a packet component is assigned later, by FIG 0/3:
    [subchannelId] keeps the value of the member initialiser. *)
Definition bindPacketService (hdr : Header)
    (TMid SId compnr SCId ps_flag CAflag : Z) (st : State) : State :=
  match findServiceId SId st with
  | None => st
  | Some (_, s) =>
    if component_absent s compnr st then
      let n := ServiceComponent_init hdr in
      let newcomp :=
        mkServiceComponent TMid SId compnr (sc_ASCTy n) ps_flag
          (sc_subchannelId n) SCId CAflag (sc_DSCTy n) (sc_DGflag n)
          (sc_packetAddress n) (sc_componentLabel n) in
      set_components (components st ++ [newcomp]) st
    else st
  end.

(** ** Dropping a service *)

(** The orphan check of one slot against the components that remain. *)
Definition orphan_check (comps : list ServiceComponent) (sub : Subchannel)
  : Subchannel :=
  if bool_decide (sub_subChId sub = -1) then sub
  else if bool_decide
            (list_find (fun c => sc_subchannelId c = sub_subChId sub) comps = None)
       then set_sub_subChId (-1) sub
       else sub.

Definition dropService (SId : Z) (st : State) : State :=
  let services' := filter (fun s => svc_serviceId s <> SId) (services st) in
  let components' := filter (fun c => sc_SId c <> SId) (components st) in
  let subChannels' := orphan_check components' <$> subChannels st in
  set_subChannels subChannels'
    (set_components components' (set_services services' st)).

(** ** Reset and queries *)

Definition clearEnsemble (clk : Clock) (st : State) : State :=
  set_timeLastFCT0Frame (system_now clk)
    (set_timeLastServiceDecrement (steady_now clk)
       (set_serviceRepeatCount ∅
          (set_services []
             (set_subChannels (resize 64 Subchannel_init (subChannels st))
                (set_components [] st))))).

Definition getServiceList (st : State) : list Service := services st.

Definition getService (hdr : Header) (sId : Z) (st : State) : Service :=
  match list_find (fun s => svc_serviceId s = sId) (services st) with
  | Some (_, s) => s
  | None => Service_ctor hdr 0
  end.

Definition getComponents (s : Service) (st : State) : list ServiceComponent :=
  filter (fun c => sc_SId c = svc_serviceId s) (components st).

(** [subChannels.at(sc.subchannelId)]: the [int16_t] index is converted to
    [size_t]; [at] throws when the index is not below the size. *)
Definition getSubchannel (sc : ServiceComponent) (st : State) : Subchannel + exn :=
  match subChannels st !! Z.to_nat (size_t_of (sc_subchannelId sc)) with
  | Some s => inl s
  | None => inr out_of_range
  end.

Definition getEnsembleId (st : State) : Z := ensembleId st.
Definition getEnsembleEcc (st : State) : Z := ensembleEcc st.
Definition getEnsembleLabel (st : State) : DabLabel := ensembleLabel st.
Definition getTimeLastFCT0Frame (st : State) : Z := timeLastFCT0Frame st.

(** ** FIG 0 handlers *)

(** [while (cond(used)) used = body(used)] over the member variables.
    Every loop of this shape in the source advances [used] by at least
    one byte towards a bound of at most 31 bytes, so [loop_fuel] rounds
    are never exhausted (see [handler_loops_fuel]). *)
Fixpoint while_loop (fuel : nat) (cond : Z -> bool)
    (body : Z -> State -> Z * State) (used : Z) (st : State) : State :=
  match fuel with
  | O => st
  | S fuel' =>
    if cond used then
      let '(used', st') := body used st in
      while_loop fuel' cond body used' st'
    else st
  end.

Definition loop_fuel : nat := 32.

Definition FIG0Extension0 (clk : Clock) (d : bitvec) (st : State) : State :=
  let eId := getBits d 16 16 in
  let st1 :=
    if bool_decide (ensembleId st <> eId)
    then emit (onNewEnsemble eId) (set_ensembleId eId st)
    else st in
  let lowpart := Z.rem (getBits_8 d (16 + 24)) 250 in
  if lowpart =? 0 then set_timeLastFCT0Frame (system_now clk) st1 else st1.

(** [subChannels[subChId]] is [operator[]] on the table; [subChId] is a
    6-bit field and the table has 64 slots from the constructor on. *)
Definition HandleFIG0Extension1 (hdr : Header) (d : bitvec) (offset pd : Z)
    (st : State) : Z * State :=
  let bitOffset := offset * 8 in
  let subChId := getBits_6 d bitOffset in
  let startAdr := getBits d (bitOffset + 6) 10 in
  let upd (f : Subchannel -> Subchannel) (l : list Subchannel) :=
    alter f (Z.to_nat subChId) l in
  let subs1 :=
    upd (fun s => set_sub_startAddr startAdr
                    (set_sub_subChId subChId (set_sub_programmeNotData pd s)))
      (subChannels st) in
  if getBits_1 d (bitOffset + 16) =? 0 then
    (* UEP, short form *)
    let tableIx := getBits_6 d (bitOffset + 18) in
    let subs2 :=
      upd (fun s =>
             let ps := sub_protectionSettings s in
             set_sub_length (ProtLevel hdr tableIx 0)
               (set_sub_protectionSettings
                  (mkProtectionSettings true tableIx (ProtLevel hdr tableIx 1)
                     (ps_eepProfile ps) (ps_eepLevel ps)) s))
        subs1 in
    ((bitOffset + 24) ÷ 8, set_subChannels subs2 st)
  else
    (* EEP, long form *)
    let option := getBits_3 d (bitOffset + 17) in
    let subs2 :=
      upd (fun s =>
             let ps := sub_protectionSettings s in
             let profile :=
               if option =? 0 then EEP_A
               else if option =? 1 then EEP_B else ps_eepProfile ps in
             set_sub_protectionSettings
               (mkProtectionSettings false (ps_uepTableIndex ps) (ps_uepLevel ps)
                  profile (ps_eepLevel ps)) s)
        subs1 in
    let subs3 :=
      if (option =? 0) || (option =? 1) then
        let protLevel := getBits_2 d (bitOffset + 20) in
        let subChanSize := getBits d (bitOffset + 22) 10 in
        upd (fun s =>
               let ps := sub_protectionSettings s in
               let level :=
                 if protLevel =? 0 then EEP_1
                 else if protLevel =? 1 then EEP_2
                 else if protLevel =? 2 then EEP_3
                 else if protLevel =? 3 then EEP_4
                 else ps_eepLevel ps in
               set_sub_length subChanSize
                 (set_sub_protectionSettings
                    (mkProtectionSettings (ps_shortForm ps) (ps_uepTableIndex ps)
                       (ps_uepLevel ps) (ps_eepProfile ps) level) s))
          subs2
      else subs2 in
    ((bitOffset + 32) ÷ 8, set_subChannels subs3 st).

Definition FIG0Extension1 (hdr : Header) (d : bitvec) (st : State) : State :=
  let Length := getBits_5 d 3 in
  let PD_bit := getBits_1 d (8 + 2) in
  while_loop loop_fuel (fun used => used <? Length - 1)
    (fun used => HandleFIG0Extension1 hdr d used PD_bit) 2 st.

(** *** FIG 0/2 and the debounce filter *)

(** One step of the iteration over [serviceRepeatCount] in the decay
    pass, at the entry with key [k] and counter [v]. *)
Definition decay_entry (st : State) (kv : Z * Z) : State :=
  let '(k, v) := kv in
  if 0 <? v then
    set_serviceRepeatCount (<[k := v - 1]> (serviceRepeatCount st)) st
  else if v =? 0 then
    (* dropService(it->second); it = serviceRepeatCount.erase(it); *)
    let st1 := dropService v st in
    set_serviceRepeatCount (delete k (serviceRepeatCount st1)) st1
  else st.

(** The iteration visits every entry of the map once.  The map is
    unordered; the order [map_to_list] yields stands for the order of the
    iterator (the result is the same for every order, see
    [decay_pass_any_order]). *)
Definition decay_pass (st : State) : State :=
  foldl decay_entry st (map_to_list (serviceRepeatCount st)).

(** The block guarded by [timeLastServiceDecrement + seconds(1) < now]. *)
Definition decay (clk : Clock) (st : State) : State :=
  let now := steady_now clk in
  if timeLastServiceDecrement st + one_second <? now then
    set_timeLastServiceDecrement now (decay_pass st)
  else st.

(** [serviceRepeatCount[SId]]: [operator[]] inserts a zero counter for a
    key that is not tracked. *)
Definition counter_of (SId : Z) (m : gmap Z Z) : Z := default 0 (m !! SId).

(** The sighting of [SId]: the saturating increment, then the
    confirmation test. *)
Definition sighting (hdr : Header) (SId : Z) (st : State) : State :=
  let c := counter_of SId (serviceRepeatCount st) in
  let m1 := <[SId := c]> (serviceRepeatCount st) in
  let m2 := if c <? 4 then <[SId := c + 1]> m1 else m1 in
  let st1 := set_serviceRepeatCount m2 st in
  if bool_decide (findServiceId SId st1 = None) && (2 <=? counter_of SId m2) then
    emit (onServiceDetected SId)
      (set_services (services st1 ++ [Service_ctor hdr SId]) st1)
  else st1.

(** The [for] loop over the components announced for [SId]; [n] rounds
    remain, [i] is the component number. *)
Fixpoint bind_components (hdr : Header) (d : bitvec) (SId : Z) (n : nat)
    (i lOffset : Z) (st : State) : Z * State :=
  match n with
  | O => (lOffset, st)
  | S n' =>
    let TMid := getBits_2 d lOffset in
    let st1 :=
      if TMid =? 0 then
        let ASCTy := getBits_6 d (lOffset + 2) in
        let SubChId := getBits_6 d (lOffset + 8) in
        let PS_flag := getBits_1 d (lOffset + 14) in
        bindAudioService hdr TMid SId i SubChId PS_flag ASCTy st
      else if TMid =? 1 then
        let DSCTy := getBits_6 d (lOffset + 2) in
        let SubChId := getBits_6 d (lOffset + 8) in
        let PS_flag := getBits_1 d (lOffset + 14) in
        bindDataStreamService hdr TMid SId i SubChId PS_flag DSCTy st
      else if TMid =? 3 then
        let SCId := getBits d (lOffset + 2) 12 in
        let PS_flag := getBits_1 d (lOffset + 14) in
        let CA_flag := getBits_1 d (lOffset + 15) in
        bindPacketService hdr TMid SId i SCId PS_flag CA_flag st
      else st in
    bind_components hdr d SId n' (i + 1) (lOffset + 16) st1
  end.

(** The service identifier of a FIG 0/2 record and the bit offset behind
    it. *)
Definition FIG0Extension2_SId (d : bitvec) (offset pd : Z) : Z * Z :=
  let lOffset := 8 * offset in
  if pd =? 1 then (getBits d lOffset 32, lOffset + 32)
  else (getBits d lOffset 16, lOffset + 16).

Definition HandleFIG0Extension2 (hdr : Header) (clk : Clock) (d : bitvec)
    (offset cn pd : Z) (st : State) : Z * State :=
  let '(SId, lOffset) := FIG0Extension2_SId d offset pd in
  let st1 := decay clk st in
  let st2 := sighting hdr SId st1 in
  let numberofComponents := getBits_4 d (lOffset + 4) in
  let '(lOffset', st3) :=
    bind_components hdr d SId (Z.to_nat numberofComponents) 0 (lOffset + 8) st2 in
  (lOffset' ÷ 8, st3).

Definition FIG0Extension2 (hdr : Header) (clk : Clock) (d : bitvec) (st : State)
  : State :=
  let Length := getBits_5 d 3 in
  let PD_bit := getBits_1 d (8 + 2) in
  let CN := getBits_1 d (8 + 0) in
  while_loop loop_fuel (fun used => used <? Length)
    (fun used => HandleFIG0Extension2 hdr clk d used CN PD_bit) 2 st.

(** *** FIG 0/3, 0/5: packet mode, language *)

Definition HandleFIG0Extension3 (d : bitvec) (used : Z) (st : State) : Z * State :=
  let SCId := getBits d (used * 8) 12 in
  let DGflag := getBits_1 d (used * 8 + 16) in
  let DSCTy := getBits_6 d (used * 8 + 18) in
  let SubChId := getBits_6 d (used * 8 + 24) in
  let packetAddress := getBits d (used * 8 + 30) 10 in
  let used' := used + 56 ÷ 8 in
  match findPacketComponent SCId st with
  | Some (i, _) =>
    let upd c :=
      mkServiceComponent (sc_TMid c) (sc_SId c) (sc_componentNr c) (sc_ASCTy c)
        (sc_PS_flag c) SubChId (sc_SCId c) (sc_CAflag c) DSCTy DGflag
        packetAddress (sc_componentLabel c) in
    (used', set_components (alter upd i (components st)) st)
  | None => (used', st)
  end.

Definition FIG0Extension3 (d : bitvec) (st : State) : State :=
  let Length := getBits_5 d 3 in
  while_loop loop_fuel (fun used => used <? Length)
    (fun used => HandleFIG0Extension3 d used) 2 st.

Definition HandleFIG0Extension5 (d : bitvec) (offset : Z) (st : State) : Z * State :=
  let loffset := offset * 8 in
  let lsFlag := getBits_1 d loffset in
  if lsFlag =? 0 then
    let st1 :=
      if getBits_1 d (loffset + 1) =? 0 then
        let subChId := getBits_6 d (loffset + 2) in
        let language := getBits_8 d (loffset + 8) in
        set_subChannels
          (alter (set_sub_language language) (Z.to_nat subChId) (subChannels st)) st
      else st in
    ((loffset + 16) ÷ 8, st1)
  else ((loffset + 24) ÷ 8, st).

Definition FIG0Extension5 (d : bitvec) (st : State) : State :=
  let Length := getBits_5 d 3 in
  while_loop loop_fuel (fun used => used <? Length)
    (fun used => HandleFIG0Extension5 d used) 2 st.

(** *** FIG 0/9, 0/10: time zone, date and time *)

Definition FIG0Extension9 (d : bitvec) (st : State) : State :=
  let offset := 16 in
  let dt := dateTime st in
  let hourOffset :=
    if getBits_1 d (offset + 2) =? 1 then -1 * getBits_4 d (offset + 3)
    else getBits_4 d (offset + 3) in
  let minuteOffset := if getBits_1 d (offset + 7) =? 1 then 30 else 0 in
  let dt' :=
    mkDateTime (dt_year dt) (dt_month dt) (dt_day dt) (dt_hour dt)
      (dt_minutes dt) (dt_seconds dt) hourOffset minuteOffset in
  set_ensembleEcc (getBits d (offset + 8) 8)
    (set_timeOffsetReceived true (set_dateTime dt' st)).

(** The conversion of a Modified Julian Date to (year, month, day), with
    the truncating [/] and [%] of C. *)
Definition mjd_to_date (mjd : Z) : Z * Z * Z :=
  let J := mjd + 2400001 in
  let j := J + 32044 in
  let g := j ÷ 146097 in
  let dg := Z.rem j 146097 in
  let c := ((dg ÷ 36524) + 1) * 3 ÷ 4 in
  let dc := dg - c * 36524 in
  let b := dc ÷ 1461 in
  let db := Z.rem dc 1461 in
  let a := ((db ÷ 365) + 1) * 3 ÷ 4 in
  let da := db - a * 365 in
  let y := g * 400 + c * 100 + b * 4 + a in
  let m := ((da * 5 + 308) ÷ 153) - 2 in
  let d := da - ((m + 4) * 153 ÷ 5) + 122 in
  let Y := y - 4800 + ((m + 2) ÷ 12) in
  let M := (Z.rem (m + 2) 12) + 1 in
  let D := d + 1 in
  (Y, M, D).

Definition FIG0Extension10 (fig : bitvec) (st : State) : State :=
  let offset := 16 in
  let mjd := getBits fig (offset + 1) 17 in
  let '(Y, M, D) := mjd_to_date mjd in
  let dt := dateTime st in
  let hour := getBits_5 fig (offset + 21) in
  let seconds1 :=
    if bool_decide (getBits_6 fig (offset + 26) <> dt_minutes dt) then 0
    else dt_seconds dt in
  let minutes := getBits_6 fig (offset + 26) in
  let seconds2 :=
    if fig (offset + 20) =? 1 then getBits_6 fig (offset + 32) else seconds1 in
  let dt' :=
    mkDateTime Y M D hour minutes seconds2 (dt_hourOffset dt) (dt_minuteOffset dt) in
  let st1 := set_dateTime dt' st in
  if timeOffsetReceived st1 then emit (onDateTimeUpdate dt') st1 else st1.

(** *** FIG 0/13: user applications *)

(** [data[i] = getBits_8(d, bitOffset + i * 8)] for [i < n]. *)
Definition read_bytes (d : bitvec) (bitOffset : Z) (n : Z) : list Z :=
  map (fun i => getBits_8 d (bitOffset + Z.of_nat i * 8)) (seq 0 (Z.to_nat n)).

(** The [for] loop over the user applications of one record; only the
    slideshow type (2) has an effect, the call on the MOT manager. *)
Fixpoint user_applications (d : bitvec) (n : nat) (bitOffset : Z) (st : State)
  : Z * State :=
  match n with
  | O => (bitOffset, st)
  | S n' =>
    let appType := getBits d bitOffset 11 in
    let length := getBits_5 d (bitOffset + 11) in
    let bitOffset1 := bitOffset + 11 + 5 in
    let bitOffsetNext := uint16 (bitOffset1 + 8 * length) in
    let st1 :=
      if appType =? 2 then
        let data := read_bytes d (bitOffset1 + 32) (length - 4) in
        emit (HandleMOTDataGroup data (length - 4)) st
      else st in
    user_applications d n' bitOffsetNext st1
  end.

Definition HandleFIG0Extension13 (d : bitvec) (used CN_bit OE_bit PD_bit : Z)
    (st : State) : Z * State :=
  let bitOffset := used * 8 in
  let SIdLength := if PD_bit =? 1 then 32 else 16 in
  let bitOffset1 := bitOffset + SIdLength in
  let amountOfApps := getBits_4 d (bitOffset1 + 4) in
  let '(bitOffset2, st1) :=
    user_applications d (Z.to_nat amountOfApps) (bitOffset1 + 8) st in
  (bitOffset2 ÷ 8, st1).

Definition FIG0Extension13 (d : bitvec) (st : State) : State :=
  let Length := getBits_5 d 3 in
  let CN_bit := getBits_1 d (8 + 0) in
  let OE_bit := getBits_1 d (8 + 1) in
  let PD_bit := getBits_1 d (8 + 2) in
  while_loop loop_fuel (fun used => used <? Length)
    (fun used => HandleFIG0Extension13 d used CN_bit OE_bit PD_bit) 2 st.

(** *** FIG 0/14, 0/17: FEC scheme, programme type *)

(** [for (i = 0; i < 64; i++) if (subChannels[i].subChId == subChId) ...] *)
Definition set_fec (subChId fecScheme : Z) (l : list Subchannel) : list Subchannel :=
  ((fun s => if sub_subChId s =? subChId then set_sub_fecScheme fecScheme s else s)
     <$> take 64 l) ++ drop 64 l.

(** The body of the [while] loop of [FIG0Extension14]. *)
Definition HandleFIG0Extension14 (d : bitvec) (used : Z) (st : State) : Z * State :=
  let subChId := getBits_6 d (used * 8) in
  let fecScheme := getBits_2 d (used * 8 + 6) in
  (used + 1, set_subChannels (set_fec subChId fecScheme (subChannels st)) st).

Definition FIG0Extension14 (d : bitvec) (st : State) : State :=
  let length := getBits_5 d 3 in
  while_loop loop_fuel (fun used => used <? length)
    (fun used => HandleFIG0Extension14 d used) 2 st.

(** The body of the loop of [FIG0Extension17]; [offset] is in bits. *)
Definition HandleFIG0Extension17 (d : bitvec) (offset : Z) (st : State) : Z * State :=
  let SId := getBits d offset 16 in
  let L_flag := getBits_1 d (offset + 18) in
  let CC_flag := getBits_1 d (offset + 19) in
  let s := findServiceId SId st in
  let upd (f : Service -> Service) (st : State) :=
    match s with
    | Some (i, _) => set_services (alter f i (services st)) st
    | None => st
    end in
  let '(offset1, st1) :=
    if L_flag =? 0 then (offset, st)
    else (offset + 8, upd (set_svc_language (getBits_8 d (offset + 24))) st) in
  let type := getBits_5 d (offset1 + 27) in
  let st2 := upd (set_svc_programType type) st1 in
  (if CC_flag =? 0 then offset1 + 32 else offset1 + 40, st2).

Definition FIG0Extension17 (d : bitvec) (st : State) : State :=
  let length := getBits_5 d 3 in
  while_loop loop_fuel (fun offset => offset <? length * 8)
    (fun offset => HandleFIG0Extension17 d offset) 16 st.

(** *** Extensions decoded for the log only

    [FIG0Extension7], [8], [18], [19], [21], [22] and
    [FIG0ExtensionUnsupported] read fields into locals that only reach
    [DBGLOG] or [stderr]; no member variable is written and no
    collaborator is called.  Their loops advance by at least two bytes
    per record towards the five-bit length. *)
Definition FIG0Extension_log_only (d : bitvec) (st : State) : State := st.

Definition process_FIG0 (hdr : Header) (clk : Clock) (d : bitvec) (st : State)
  : State :=
  let extension := getBits_5 d (8 + 3) in
  if extension =? 0 then FIG0Extension0 clk d st
  else if extension =? 1 then FIG0Extension1 hdr d st
  else if extension =? 2 then FIG0Extension2 hdr clk d st
  else if extension =? 3 then FIG0Extension3 d st
  else if extension =? 5 then FIG0Extension5 d st
  else if extension =? 9 then FIG0Extension9 d st
  else if extension =? 10 then FIG0Extension10 d st
  else if extension =? 13 then FIG0Extension13 d st
  else if extension =? 14 then FIG0Extension14 d st
  else if extension =? 17 then FIG0Extension17 d st
  else FIG0Extension_log_only d st.

(** ** FIG 1: labels *)

(** The [std::string] built from a [char] array: the characters in front
    of the first NUL. *)
Fixpoint c_str (chars : list Z) : list Z :=
  match chars with
  | [] => []
  | c :: rest => if c =? 0 then [] else c :: c_str rest
  end.

(** The three member updates every FIG 1 label receives; [setCharset]
    is declared in the absent header and is taken to store the code. *)
Definition set_fig1 (flag : Z) (label : list Z) (charSet : Z) (l : DabLabel)
  : DabLabel :=
  mkDabLabel label flag charSet (lbl_toggle_flag l) (lbl_segments l)
    (lbl_extended_label_charset l) (lbl_segment_count l) (lbl_fig2_rfu l).

(** Extensions 1 and 5 differ in the width of the identifier only.  The
    call under [#ifdef MSC_DATA__] in extension 5 is not compiled in: the
    sources define the macro nowhere. *)
Definition process_FIG1 (d : bitvec) (st : State) : State :=
  let charSet := getBits_4 d 8 in
  let oe := getBits_1 d (8 + 4) in
  let extension := getBits_3 d (8 + 5) in
  let label_at offset := c_str (read_bytes d offset 16) in
  if oe =? 1 then st
  else if extension =? 0 then
    let EId := getBits d 16 16 in
    let offset := 32 in
    if (oe =? 0) && (EId =? ensembleId st) then
      let l := set_fig1 (getBits d (offset + 128) 16) (label_at offset) charSet
                 (ensembleLabel st) in
      emit (onSetEnsembleLabel l) (set_ensembleLabel l st)
    else st
  else if (extension =? 1) || (extension =? 5) then
    let SId := if extension =? 1 then getBits d 16 16 else getBits d 16 32 in
    let offset := if extension =? 1 then 32 else 48 in
    match findServiceId SId st with
    | Some (i, s) =>
      let l := set_fig1 (getBits d (offset + 128) 16) (label_at offset) charSet
                 (svc_serviceLabel s) in
      emit (onSetServiceLabel SId l)
        (set_services (alter (set_svc_serviceLabel l) i (services st)) st)
    | None => st
    end
  else if extension =? 4 then
    let pd_flag := getBits d 16 1 in
    let SCidS := getBits d 20 4 in
    let SId := if pd_flag =? 0 then getBits d 24 16 else getBits d 24 32 in
    let offset := if pd_flag =? 0 then 40 else 56 in
    match findComponent SId SCidS st with
    | Some (i, c) =>
      let l := set_fig1 (getBits d (offset + 128) 16) (label_at offset) charSet
                 (sc_componentLabel c) in
      set_components (alter (set_sc_componentLabel l) i (components st)) st
    | None => st
    end
  else st.

(** ** FIG 2: extended labels *)

(** [f[i]] for a pointer [f] at position [pos] of the 30-byte vector
    [fig_bytes]; bytes behind the vector read as 0. *)
Definition byte_at (fig_bytes : list Z) (pos : nat) (i : nat) : Z :=
  nth (pos + i) fig_bytes 0.

Definition handle_ext_label_data_field (fig_bytes : list Z) (f : nat)
    (len_bytes toggle_flag segment_index rfu : Z) (label : DabLabel)
  : DabLabel * option exn :=
  let label1 :=
    if bool_decide (lbl_toggle_flag label <> toggle_flag) then
      mkDabLabel (lbl_fig1_label label) (lbl_fig1_flag label) (lbl_charset label)
        toggle_flag ∅ Undefined (lbl_segment_count label) (lbl_fig2_rfu label)
    else label in
  let store (l : DabLabel) (f : nat) (len_character_field : Z) : DabLabel :=
    let labelbytes :=
      map (byte_at fig_bytes f) (seq 0 (Z.to_nat len_character_field)) in
    mkDabLabel (lbl_fig1_label l) (lbl_fig1_flag l) (lbl_charset l)
      (lbl_toggle_flag l) (<[segment_index := labelbytes]> (lbl_segments l))
      (lbl_extended_label_charset l) (lbl_segment_count l) (lbl_fig2_rfu l) in
  if segment_index =? 0 then
    let encoding_flag := Z.shiftr (Z.land (byte_at fig_bytes f 0) 128) 7 in
    let segment_count := Z.shiftr (Z.land (byte_at fig_bytes f 0) 112) 4 in
    let label2 :=
      mkDabLabel (lbl_fig1_label label1) (lbl_fig1_flag label1)
        (lbl_charset label1) (lbl_toggle_flag label1) (lbl_segments label1)
        (if encoding_flag =? 0 then UnicodeUtf8 else UnicodeUcs2)
        (segment_count + 1) (lbl_fig2_rfu label1) in
    let with_rfu (l : DabLabel) :=
      mkDabLabel (lbl_fig1_label l) (lbl_fig1_flag l) (lbl_charset l)
        (lbl_toggle_flag l) (lbl_segments l) (lbl_extended_label_charset l)
        (lbl_segment_count l) rfu in
    if rfu =? 0 then
      if len_bytes <=? 3 then (label2, Some runtime_error)
      else (store (with_rfu label2) (f + 3)%nat (len_bytes - 3), None)
    else
      if len_bytes <=? 1 then (label2, Some runtime_error)
      else (store (with_rfu label2) (f + 1)%nat (len_bytes - 1), None)
  else (store label1 f len_bytes, None).

Definition process_FIG2 (d : bitvec) (st : State) : State * option exn :=
  let fig_bytes := read_bytes d 0 30 in
  let figlen := Z.land (byte_at fig_bytes 0 0) 31 in
  (* f++ : f[i] is now fig_bytes[1 + i] *)
  let f := byte_at fig_bytes 1 in
  let toggle_flag := Z.shiftr (Z.land (f 0%nat) 128) 7 in
  let segment_index := Z.shiftr (Z.land (f 0%nat) 112) 4 in
  let rfu := Z.shiftr (Z.land (f 0%nat) 8) 3 in
  let ext := Z.land (f 0%nat) 7 in
  let pd := Z.shiftr (Z.land (f 1%nat) 128) 7 in
  let header_length := 1 in
  let handle (identifier_len : Z) :=
    handle_ext_label_data_field fig_bytes
      (1 + Z.to_nat header_length + Z.to_nat identifier_len)
      (uint8 (size_t_of (figlen - header_length - identifier_len)))
      toggle_flag segment_index rfu in
  let sid32 (k : nat) :=
    Z.lor (Z.lor (Z.lor (Z.shiftl (f k) 24) (Z.shiftl (f (k + 1)%nat) 16))
             (Z.shiftl (f (k + 2)%nat) 8)) (f (k + 3)%nat) in
  let on_service (identifier_len sid : Z) :=
    if figlen <=? header_length + identifier_len then (st, None)
    else match findServiceId sid st with
         | Some (i, s) =>
           let '(l, e) := handle identifier_len (svc_serviceLabel s) in
           (set_services (alter (set_svc_serviceLabel l) i (services st)) st, e)
         | None => (st, None)
         end in
  if ext =? 0 then
    let identifier_len := 2 in
    let eid := uint16 (f 1%nat * 256 + f 2%nat) in
    if figlen <=? header_length + identifier_len then (st, None)
    else if eid =? ensembleId st then
      let '(l, e) := handle identifier_len (ensembleLabel st) in
      (set_ensembleLabel l st, e)
    else (st, None)
  else if ext =? 1 then
    on_service 2 (uint16 (f 1%nat * 256 + f 2%nat))
  else if ext =? 4 then
    let identifier_len := if pd =? 0 then 3 else 5 in
    let SCIdS := Z.land (f 1%nat) 15 in
    let sid := if pd =? 0 then f 2%nat * 256 + f 3%nat else sid32 2%nat in
    if figlen <=? header_length + identifier_len then (st, None)
    else match findComponent sid SCIdS st with
         | Some (i, c) =>
           let '(l, e) := handle identifier_len (sc_componentLabel c) in
           (set_components (alter (set_sc_componentLabel l) i (components st)) st, e)
         | None => (st, None)
         end
  else if ext =? 5 then
    on_service 4 (sid32 1%nat)
  else (st, None).

(** ** The dispatcher *)

Definition process_FIG6 (d : bitvec) (st : State) : State := st.
Definition process_FIG7 (d : bitvec) (st : State) : State := st.
Definition process_FIGUnsupported (d : bitvec) (st : State) : State := st.

(** How the [switch] of [processFIB] is left: [break], [return], or an
    exception passing through. *)
Inductive flow := Break | Return | Throw (e : exn).

Definition dispatch_FIG (hdr : Header) (clk : Clock) (d : bitvec) (st : State)
  : State * flow :=
  let FIGtype := getBits_3 d 0 in
  if FIGtype =? 0 then (process_FIG0 hdr clk d st, Break)
  else if FIGtype =? 1 then (process_FIG1 d st, Break)
  else if FIGtype =? 2 then
    match process_FIG2 d st with
    | (st', None) => (st', Break)
    | (st', Some e) => (st', Throw e)
    end
  else if FIGtype =? 6 then (process_FIG6 d st, Return)
  else if FIGtype =? 7 then (process_FIG7 d st, Return)
  else (process_FIGUnsupported d st, Break).

(** The [while (processedBytes < 30)] loop; [processedBytes] is an
    [int8_t].  Every round adds at least 1, so 30 rounds are never
    exhausted (see [processFIB_walk]). *)
Fixpoint processFIB_loop (hdr : Header) (clk : Clock) (fuel : nat) (p : bitvec)
    (processedBytes : Z) (st : State) : State * option exn :=
  match fuel with
  | O => (st, None)
  | S fuel' =>
    if processedBytes <? 30 then
      let d := advance p (processedBytes * 8) in
      match dispatch_FIG hdr clk d st with
      | (st', Break) =>
        processFIB_loop hdr clk fuel' p
          (int8 (processedBytes + (getBits_5 d 3 + 1))) st'
      | (st', Return) => (st', None)
      | (st', Throw e) => (st', Some e)
      end
    else (st, None)
  end.

(** [processFIB(p, fib)]: the state it leaves and the exception that
    reaches the caller, if any.  The clocks are read once per call. *)
Definition processFIB (hdr : Header) (clk : Clock) (p : bitvec) (fib : Z)
    (st : State) : State * option exn :=
  processFIB_loop hdr clk 30 p 0 st.

(** ** The record loops of the extensions decoded for the log

    [FIG0Extension8], [18], [19] and [22] write no member variable (see
    [FIG0Extension_log_only]); what they compute is the offset at which
    each record ends.  [offset_loop] is
    [while (cond(used)) used = next(used)], with [None] when the rounds
    run out. *)
Fixpoint offset_loop (fuel : nat) (cond : Z -> bool) (next : Z -> Z) (used : Z)
  : option Z :=
  match fuel with
  | O => None
  | S fuel' =>
    if cond used then offset_loop fuel' cond next (next used) else Some used
  end.

(** The offset behind one FIG 0/8 record; the lookup of the packet
    component only feeds the log. *)
Definition HandleFIG0Extension8 (d : bitvec) (used pdBit : Z) : Z :=
  let lOffset := used * 8 in
  let lOffset1 := lOffset + (if pdBit =? 1 then 32 else 16) in
  let extensionFlag := getBits_1 d lOffset1 in
  let lOffset2 := lOffset1 + 4 in
  let lsFlag := getBits_1 d lOffset2 in
  let lOffset3 := if lsFlag =? 1 then lOffset2 + 16 else lOffset2 + 8 in
  let lOffset4 := if extensionFlag =? 0 then lOffset3 else lOffset3 + 8 in
  lOffset4 ÷ 8.

Definition FIG0Extension8 (d : bitvec) : option Z :=
  let Length := getBits_5 d 3 in
  let PD_bit := getBits_1 d (8 + 2) in
  offset_loop loop_fuel (fun used => used <? Length)
    (fun used => HandleFIG0Extension8 d used PD_bit) 2.

(** [FIG0Extension18] and [FIG0Extension19] count in bits. *)
Definition FIG0Extension18 (d : bitvec) : option Z :=
  let Length := getBits_5 d 3 in
  offset_loop loop_fuel (fun offset => offset ÷ 8 <? Length - 1)
    (fun offset =>
       let NumClusters := getBits_5 d (offset + 35) in
       offset + (40 + NumClusters * 8))
    16.

Definition FIG0Extension19 (d : bitvec) : option Z :=
  let Length := getBits_5 d 3 in
  offset_loop loop_fuel (fun offset => offset ÷ 8 <? Length - 1)
    (fun offset =>
       let region_flag := getBits_1 d (offset + 25) in
       if region_flag =? 0 then offset + 32 else offset + 40)
    16.

(** The fixed-size record returns [used + 48 / 6]. *)
Definition HandleFIG0Extension22 (d : bitvec) (used : Z) : Z :=
  let MS := getBits_1 d (used * 8) in
  if MS =? 0 then used + 48 ÷ 6
  else
    let noSubfields := getBits_3 d (used * 8 + 13) in
    used + (16 + noSubfields * 48) ÷ 8.

Definition FIG0Extension22 (d : bitvec) : option Z :=
  let Length := getBits_5 d 3 in
  offset_loop loop_fuel (fun used => used <? Length)
    (fun used => HandleFIG0Extension22 d used) 2.

(** [while_loop] together with the offset at which the loop is left:
    [Some] of that offset and the state when the condition fails within
    the rounds, [None] when the rounds run out first. *)
Fixpoint while_loop_exit (fuel : nat) (cond : Z -> bool)
    (body : Z -> State -> Z * State) (used : Z) (st : State) : option (Z * State) :=
  match fuel with
  | O => None
  | S fuel' =>
    if cond used then
      let '(used', st') := body used st in
      while_loop_exit fuel' cond body used' st'
    else Some (used, st)
  end.

(** ** Notions used to state the properties *)

Definition service_ids (st : State) : list Z := svc_serviceId <$> services st.

Definition component_key (c : ServiceComponent) : Z * Z :=
  (sc_SId c, sc_componentNr c).

Definition component_keys (st : State) : list (Z * Z) :=
  component_key <$> components st.

(** The two invariants of the component collection: every component
    belongs to a service that is present, and a (service, number) pair
    occurs once. *)
Definition store_ok (st : State) : Prop :=
  Forall (fun c => sc_SId c ∈ service_ids st) (components st) /\
  NoDup (component_keys st).

#[global] Instance store_ok_dec (st : State) : Decision (store_ok st).
Proof. unfold store_ok. apply _. Defined.

(** A subchannel slot is valid when its id is not the sentinel. *)
Definition sub_valid (s : Subchannel) : Prop := sub_subChId s <> -1.

(** A slot is referenced when some component names its id. *)
Definition referenced (comps : list ServiceComponent) (s : Subchannel) : Prop :=
  exists c, c ∈ comps /\ sc_subchannelId c = sub_subChId s.

(** The members [dropService] has no business with. *)
Definition same_outside_collections (st st' : State) : Prop :=
  ensembleId st' = ensembleId st /\
  ensembleEcc st' = ensembleEcc st /\
  ensembleLabel st' = ensembleLabel st /\
  dateTime st' = dateTime st /\
  timeOffsetReceived st' = timeOffsetReceived st /\
  serviceRepeatCount st' = serviceRepeatCount st /\
  timeLastServiceDecrement st' = timeLastServiceDecrement st /\
  timeLastFCT0Frame st' = timeLastFCT0Frame st /\
  events st' = events st.

(** *** The walk over a FIB, as section 4.2 of the spec words it

    Start at byte offset 0; a FIG of type 6 or 7 ends the walk; any other
    FIG is followed by the one "5-bit length + 1" bytes further; repeat
    until 30 bytes are consumed. *)
Fixpoint fig_walk (fuel : nat) (p : bitvec) (offset : Z) : list Z :=
  match fuel with
  | O => []
  | S fuel' =>
    if offset <? 30 then
      let d := advance p (offset * 8) in
      let FIGtype := getBits_3 d 0 in
      offset ::
        (if (FIGtype =? 6) || (FIGtype =? 7) then []
         else fig_walk fuel' p (offset + (getBits_5 d 3 + 1)))
    else []
  end.

Definition FIG_offsets (p : bitvec) : list Z := fig_walk 30 p 0.

(** The FIG after the one at byte offset [a]. *)
Definition next_FIG (p : bitvec) (a : Z) : Z :=
  a + (getBits_5 (advance p (a * 8)) 3 + 1).

Definition FIGtype_at (p : bitvec) (a : Z) : Z := getBits_3 (advance p (a * 8)) 0.

Definition end_FIG (p : bitvec) (a : Z) : bool :=
  (FIGtype_at p a =? 6) || (FIGtype_at p a =? 7).

(** The handlers of the FIGs at the given byte offsets, one after the
    other, up to an exception. *)
Fixpoint dispatch_along (hdr : Header) (clk : Clock) (p : bitvec)
    (offsets : list Z) (st : State) : State * option exn :=
  match offsets with
  | [] => (st, None)
  | offset :: rest =>
    match dispatch_FIG hdr clk (advance p (offset * 8)) st with
    | (st', Throw e) => (st', Some e)
    | (st', _) => dispatch_along hdr clk p rest st'
    end
  end.

(** *** The Gregorian calendar

    The Julian day number of a Gregorian date, and the dates that
    exist. *)
Definition gregorian_to_jdn (Y M D : Z) : Z :=
  let a := (14 - M) / 12 in
  let y := Y + 4800 - a in
  let m := M + 12 * a - 3 in
  D + (153 * m + 2) / 5 + 365 * y + y / 4 - y / 100 + y / 400 - 32045.

Definition leap_year (Y : Z) : bool :=
  ((Y mod 4 =? 0) && negb (Y mod 100 =? 0)) || (Y mod 400 =? 0).

Definition days_in_month (Y M : Z) : Z :=
  if M =? 2 then (if leap_year Y then 29 else 28)
  else if (M =? 4) || (M =? 6) || (M =? 9) || (M =? 11) then 30
  else 31.

Definition gregorian_date (Y M D : Z) : bool :=
  (1 <=? M) && (M <=? 12) && (1 <=? D) && (D <=? days_in_month Y M).

Definition mjd_date_ok (mjd : Z) : bool :=
  let '(Y, M, D) := mjd_to_date mjd in
  gregorian_date Y M D && (gregorian_to_jdn Y M D =? mjd + 2400001).

(** *** The debounce filter *)

(** What the pass does to one counter. *)
Definition decayed (v : Z) : option Z :=
  if 0 <? v then Some (v - 1) else if v =? 0 then None else Some v.

(** Whether some entry of the list has counter 0. *)
Definition any_zero (l : list (Z * Z)) : bool := existsb (fun kv => kv.2 =? 0) l.

(** One FIG 0/2 record with the clock reading of its call: the arguments
    of [HandleFIG0Extension2]. *)
Record FIG0_2_record := mkRecord {
  rec_clk : Clock; rec_d : bitvec; rec_offset : Z; rec_cn : Z; rec_pd : Z
}.

Definition handle_record (hdr : Header) (r : FIG0_2_record) (st : State) : State :=
  (HandleFIG0Extension2 hdr (rec_clk r) (rec_d r) (rec_offset r) (rec_cn r)
     (rec_pd r) st).2.

(** A sequence of FIG 0/2 records, handled one after the other. *)
Definition handle_records (hdr : Header) (rs : list FIG0_2_record) (st : State)
  : State :=
  foldl (fun st r => handle_record hdr r st) st rs.

(** Service [X] remains in the collection throughout the records [rs]:
    no decay block on the way drops it. *)
Fixpoint remains (hdr : Header) (X : Z) (rs : list FIG0_2_record) (st : State)
  : Prop :=
  match rs with
  | [] => True
  | r :: rest =>
    X ∈ service_ids (decay (rec_clk r) st) /\
    remains hdr X rest (handle_record hdr r st)
  end.

(** ** Test vectors *)

Definition label0 : DabLabel := mkDabLabel [] 0 0 (-1) ∅ Undefined 0 0.

(** One choice of what the absent headers fix: an all-zero protection
    table, empty labels, and [-1] for the subchannel of a new component. *)
Definition hdr0 : Header :=
  mkHeader (fun _ _ => 0) (mkService 0 label0 0 0)
    (mkServiceComponent 0 0 0 0 0 (-1) 0 0 0 0 0 label0).

Definition clk0 : Clock := mkClock 0 0.

(** A processor right after its constructor ran [clearEnsemble]. *)
Definition st0 : State :=
  clearEnsemble clk0
    (mkState 0 0 label0 (mkDateTime 0 0 0 0 0 0 0 0) false [] [] [] ∅ 0 0 []).

(** The clocks [ms] milliseconds after [clk0]. *)
Definition clk_ms (ms : Z) : Clock := mkClock (ms * 1000000) (ms * 1000000).

(** [processFIB] for a sequence of FIBs, each with the clock reading at
    its call; stops at the first exception. *)
Fixpoint feed (hdr : Header) (input : list (Clock * bitvec)) (st : State)
  : State * option exn :=
  match input with
  | [] => (st, None)
  | (clk, p) :: rest =>
    match processFIB hdr clk p 0 st with
    | (st', None) => feed hdr rest st'
    | r => r
    end
  end.

(** A FIG 0/2 announcing service [0xA1B2] with one audio component on
    subchannel 5, followed by the end marker. *)
Definition fib_announce : bitvec :=
  fib_of_bytes [0x06; 0x02; 0xA1; 0xB2; 0x01; 0x00; 0x14; 0xFF].

(** The store after two sightings of that service. *)
Definition st_confirmed : State :=
  (feed hdr0 [(clk0, fib_announce); (clk0, fib_announce)] st0).1.

(** The same announcement with one packet-mode component (SCId 0x123)
    for service [0xC3D4]; no FIG 0/3 has been seen. *)
Definition fib_announce_packet : bitvec :=
  fib_of_bytes [0x06; 0x02; 0xC3; 0xD4; 0x01; 0xC4; 0x8C; 0xFF].

Definition st_packet : State :=
  (feed hdr0 [(clk0, fib_announce_packet); (clk0, fib_announce_packet)] st0).1.

(** FIG 0/10 with MJD 58849, 12:00, no seconds field; and with MJD 51544,
    00:00. *)
Definition fig_mjd_58849 : bitvec :=
  fib_of_bytes [0x05; 0x0A; 0x39; 0x78; 0x43; 0x00; 0xFF].

Definition fig_mjd_51544 : bitvec :=
  fib_of_bytes [0x05; 0x0A; 0x32; 0x56; 0x00; 0x00; 0xFF].

(** [f] holds at the [n] integers from [z] on. *)
Fixpoint all_from (f : Z -> bool) (n : nat) (z : Z) : bool :=
  match n with
  | O => true
  | S k => f z && all_from f k (z + 1)
  end.

(** FIG 0/0 (ensemble id 0x1234), then a FIG 2/0 label for that ensemble
    whose data field has one byte where segment 0 needs more than three,
    then FIG 0/0 (ensemble id 0x5678) and the end marker. *)
Definition fib_short_label : bitvec :=
  fib_of_bytes [0x05; 0x00; 0x12; 0x34; 0x00; 0x01;
                0x44; 0x00; 0x12; 0x34; 0x00;
                0x05; 0x00; 0x56; 0x78; 0x00; 0x01;
                0xFF].

(** FIG 0/0 (ensemble id 0x1234) and FIG 0/1 defining subchannel 5 (long
    form, start address 64, size 72). *)
Definition fib_subch : bitvec :=
  fib_of_bytes [0x05; 0x00; 0x12; 0x34; 0x00; 0x01;
                0x05; 0x01; 0x14; 0x40; 0x84; 0x48;
                0xFF].

(** FIG 0/1 defining subchannel 5, then the announcement of service
    [0xA1B2] with its audio component on subchannel 5. *)
Definition fib_announce_full : bitvec :=
  fib_of_bytes [0x05; 0x01; 0x14; 0x40; 0x84; 0x48;
                0x06; 0x02; 0xA1; 0xB2; 0x01; 0x00; 0x14;
                0xFF].

(** A FIG 0/2 sighting of another service, [0xC3D4], without components. *)
Definition fib_other : bitvec :=
  fib_of_bytes [0x04; 0x02; 0xC3; 0xD4; 0x00; 0xFF].

(** Service [0xA1B2] is seen twice within 100 ms and never again; the
    other service is seen 1.5 s, 3 s and 4.5 s after the start, so three
    decay passes run. *)
Definition decay_run : list (Clock * bitvec) :=
  [(clk_ms 0, fib_announce_full); (clk_ms 100, fib_announce_full);
   (clk_ms 1500, fib_other); (clk_ms 3000, fib_other); (clk_ms 4500, fib_other)].

(** A FIG of an unsupported type (3) filling bytes 0..9, the end marker
    (type 7) at byte offset 10, and a FIG 0/0 behind it. *)
Definition fib_end_at_10 : bitvec :=
  fib_of_bytes [0x69; 0; 0; 0; 0; 0; 0; 0; 0; 0;
                0xFF;
                0x05; 0x00; 0x56; 0x78; 0x00; 0x01].

(** ** Proof automation *)

(** Case analysis on the tests of a handler that writes neither
    [services] nor [components]. *)
Ltac frame_ok H :=
  repeat match goal with
         | |- context [if ?b then _ else _] => destruct b
         end;
  simpl; try exact H.


(** ** The member updates of the FIG handlers

    [update hdr st st'] lists the writes the handlers make to the member
    variables, each with what the source has tested when it makes the
    write.  [processFIB] is a sequence of them (see [processFIB_updates]);
    an invariant of [update] is an invariant of [processFIB]. *)

(** The counter after a sighting: the saturating increment. *)
Definition sighted (c : Z) : Z := if c <? 4 then c + 1 else c.

Inductive update (hdr : Header) (st : State) : State -> Prop :=
| upd_new_ensemble eId :
    ensembleId st <> eId ->
    update hdr st (emit (onNewEnsemble eId) (set_ensembleId eId st))
| upd_timeLastFCT0Frame t :
    update hdr st (set_timeLastFCT0Frame t st)
| upd_define_subchannel f (i : nat) :
    (i < 64)%nat ->
    (forall s, sub_subChId (f s) = Z.of_nat i) ->
    update hdr st (set_subChannels (alter f i (subChannels st)) st)
| upd_subchannel_language language (i : nat) :
    (i < 64)%nat ->
    update hdr st
      (set_subChannels (alter (set_sub_language language) i (subChannels st)) st)
| upd_set_fec subChId fecScheme :
    update hdr st
      (set_subChannels (set_fec subChId fecScheme (subChannels st)) st)
| upd_drop_zero :
    (exists k, serviceRepeatCount st !! k = Some 0) ->
    update hdr st (dropService 0 st)
| upd_decay_counters m :
    (forall k, m !! k = serviceRepeatCount st !! k ≫= decayed) ->
    update hdr st (set_serviceRepeatCount m st)
| upd_timeLastServiceDecrement t :
    update hdr st (set_timeLastServiceDecrement t st)
| upd_sighting SId :
    update hdr st
      (set_serviceRepeatCount
         (<[SId := sighted (counter_of SId (serviceRepeatCount st))]>
            (serviceRepeatCount st)) st)
| upd_new_service SId :
    SId ∉ service_ids st ->
    2 <= counter_of SId (serviceRepeatCount st) ->
    update hdr st
      (emit (onServiceDetected SId)
         (set_services (services st ++ [Service_ctor hdr SId]) st))
| upd_new_component c :
    sc_SId c ∈ service_ids st ->
    component_key c ∉ component_keys st ->
    update hdr st (set_components (components st ++ [c]) st)
| upd_component f (i : nat) :
    (forall c, component_key (f c) = component_key c) ->
    update hdr st (set_components (alter f i (components st)) st)
| upd_service f (i : nat) :
    (forall s, svc_serviceId (f s) = svc_serviceId s) ->
    update hdr st (set_services (alter f i (services st)) st)
| upd_time_offset dt ecc :
    update hdr st
      (set_ensembleEcc ecc (set_timeOffsetReceived true (set_dateTime dt st)))
| upd_dateTime dt :
    update hdr st (set_dateTime dt st)
| upd_dateTime_event :
    timeOffsetReceived st = true ->
    update hdr st (emit (onDateTimeUpdate (dateTime st)) st)
| upd_ensembleLabel l :
    update hdr st (set_ensembleLabel l st)
| upd_label_event e :
    (match e with
     | onSetEnsembleLabel _ | onSetServiceLabel _ _ | HandleMOTDataGroup _ _ => True
     | _ => False
     end) ->
    update hdr st (emit e st).

Definition updates (hdr : Header) : State -> State -> Prop := rtc (update hdr).

(** *** Invariants of the tables *)

(** The subchannel table has its 64 slots, and a slot that is valid
    carries its own index as id. *)
Definition subtable_ok (st : State) : Prop :=
  length (subChannels st) = 64%nat /\
  forall (i : nat) sub,
    subChannels st !! i = Some sub ->
    sub_subChId sub = -1 \/ sub_subChId sub = Z.of_nat i.

(** The identifier of the last [onNewEnsemble] call. *)
Definition announced_ensemble (evs : list Event) : option Z :=
  last (omap (fun e => match e with onNewEnsemble eId => Some eId | _ => None end)
          evs).

(** Every counter of the debounce filter is between 0 and 4. *)
Definition counters_bounded (st : State) : Prop :=
  forall k v, serviceRepeatCount st !! k = Some v -> 0 <= v <= 4.

(** The service list holds an id once, and the radio interface has been
    told of every service in it. *)
Definition services_ok (st : State) : Prop :=
  NoDup (service_ids st) /\
  forall SId, SId ∈ service_ids st -> onServiceDetected SId ∈ events st.

(** The stored ensemble id is the one of the last [onNewEnsemble] call,
    or the initial [e0] when there was none. *)
Definition ensemble_in_sync (e0 : Z) (st : State) : Prop :=
  getEnsembleId st = default e0 (announced_ensemble (events st)).

(** No date and time was reported unless a time offset was received. *)
Definition time_gated (st : State) : Prop :=
  timeOffsetReceived st = false -> forall dt, onDateTimeUpdate dt ∉ events st.

(** *** Calls on the MOT manager *)




(** *** The processor in use

    The constructor runs [clearEnsemble] on the freshly constructed
    members: the containers are empty and no call has been made; the
    scalar members have the initialisers of the absent header, taken
    here from [members]. *)
Definition FIBProcessor_ctor (clk : Clock) (members : State) : State :=
  clearEnsemble clk
    (mkState (ensembleId members) (ensembleEcc members) (ensembleLabel members)
       (dateTime members) (timeOffsetReceived members) [] [] [] ∅
       (timeLastServiceDecrement members) (timeLastFCT0Frame members) []).

(** The calls that change the state; an exception of [processFIB] leaves
    the processor in the state reached when it was thrown. *)
Inductive call :=
| call_processFIB (clk : Clock) (p : bitvec) (fib : Z)
| call_clearEnsemble (clk : Clock)
| call_dropService (SId : Z).

Definition do_call (hdr : Header) (st : State) (c : call) : State :=
  match c with
  | call_processFIB clk p fib => (processFIB hdr clk p fib st).1
  | call_clearEnsemble clk => clearEnsemble clk st
  | call_dropService SId => dropService SId st
  end.

(** A processor constructed at [clk] after the calls [calls]. *)
Definition run (hdr : Header) (clk : Clock) (members : State) (calls : list call)
  : State :=
  foldl (do_call hdr) (FIBProcessor_ctor clk members) calls.

(** *** The dispatcher, as section 4.2 of the spec words it

    "Read a 3-bit FIG type; dispatch to the type's handler": the handler
    of the FIG at [d], with the exception it lets through.  Types 3, 4
    and 5 have no handler; the handlers of types 6 and 7 do nothing. *)
Definition handle_FIG (hdr : Header) (clk : Clock) (d : bitvec) (st : State)
  : State * option exn :=
  let FIGtype := getBits_3 d 0 in
  if FIGtype =? 0 then (process_FIG0 hdr clk d st, None)
  else if FIGtype =? 1 then (process_FIG1 d st, None)
  else if FIGtype =? 2 then process_FIG2 d st
  else (st, None).

(** The handlers of the FIGs at the given byte offsets, one after the
    other; an exception ends the run. *)
Fixpoint handle_along (hdr : Header) (clk : Clock) (p : bitvec)
    (offsets : list Z) (st : State) : State * option exn :=
  match offsets with
  | [] => (st, None)
  | offset :: rest =>
    match handle_FIG hdr clk (advance p (offset * 8)) st with
    | (st', None) => handle_along hdr clk p rest st'
    | (st', Some e) => (st', Some e)
    end
  end.

(** *** The FIG 2 whose label field is refused *)

(** The 5-bit length of the FIG at [d], and the segment index and rfu
    bit of a FIG 2: [fig_bytes[0] & 0x1F], [(f[0] & 0x70) >> 4] and
    [(f[0] & 0x08) >> 3] with [f = fig_bytes + 1]. *)
Definition FIG2_figlen (d : bitvec) : Z :=
  Z.land (byte_at (read_bytes d 0 30) 0 0) 31.

Definition FIG2_segment_index (d : bitvec) : Z :=
  Z.shiftr (Z.land (byte_at (read_bytes d 0 30) 1 0) 112) 4.

Definition FIG2_rfu (d : bitvec) : Z :=
  Z.shiftr (Z.land (byte_at (read_bytes d 0 30) 1 0) 8) 3.

Definition FIG2_toggle_flag (d : bitvec) : Z :=
  Z.shiftr (Z.land (byte_at (read_bytes d 0 30) 1 0) 128) 7.

(** The label a FIG 2 is for, with the length of its identifier field:
    the ensemble label when the identifier is the stored ensemble id
    (extension 0), the label of the first service with the id
    (extensions 1 and 5) or of the first component with the pair
    (extension 4); [None] for another extension and for a target that
    is not in the store. *)
Definition FIG2_label (d : bitvec) (st : State) : option (Z * DabLabel) :=
  let fig_bytes := read_bytes d 0 30 in
  let f := byte_at fig_bytes 1 in
  let ext := Z.land (f 0%nat) 7 in
  let pd := Z.shiftr (Z.land (f 1%nat) 128) 7 in
  let sid32 (k : nat) :=
    Z.lor (Z.lor (Z.lor (Z.shiftl (f k) 24) (Z.shiftl (f (k + 1)%nat) 16))
             (Z.shiftl (f (k + 2)%nat) 8)) (f (k + 3)%nat) in
  if ext =? 0 then
    if uint16 (f 1%nat * 256 + f 2%nat) =? ensembleId st
    then Some (2, ensembleLabel st) else None
  else if ext =? 1 then
    match findServiceId (uint16 (f 1%nat * 256 + f 2%nat)) st with
    | Some (_, s) => Some (2, svc_serviceLabel s)
    | None => None
    end
  else if ext =? 4 then
    match findComponent (if pd =? 0 then f 2%nat * 256 + f 3%nat else sid32 2%nat)
            (Z.land (f 1%nat) 15) st with
    | Some (_, c) => Some (if pd =? 0 then 3 else 5, sc_componentLabel c)
    | None => None
    end
  else if ext =? 5 then
    match findServiceId (sid32 1%nat) st with
    | Some (_, s) => Some (4, svc_serviceLabel s)
    | None => None
    end
  else None.

(** The store with [l] written to the label the FIG 2 at [d] is for. *)
Definition FIG2_store (d : bitvec) (st : State) (l : DabLabel) : State :=
  let fig_bytes := read_bytes d 0 30 in
  let f := byte_at fig_bytes 1 in
  let ext := Z.land (f 0%nat) 7 in
  let pd := Z.shiftr (Z.land (f 1%nat) 128) 7 in
  let sid32 (k : nat) :=
    Z.lor (Z.lor (Z.lor (Z.shiftl (f k) 24) (Z.shiftl (f (k + 1)%nat) 16))
             (Z.shiftl (f (k + 2)%nat) 8)) (f (k + 3)%nat) in
  let in_service (sid : Z) :=
    match findServiceId sid st with
    | Some (i, _) => set_services (alter (set_svc_serviceLabel l) i (services st)) st
    | None => st
    end in
  if ext =? 0 then set_ensembleLabel l st
  else if ext =? 1 then in_service (uint16 (f 1%nat * 256 + f 2%nat))
  else if ext =? 4 then
    match findComponent (if pd =? 0 then f 2%nat * 256 + f 3%nat else sid32 2%nat)
            (Z.land (f 1%nat) 15) st with
    | Some (i, _) =>
      set_components (alter (set_sc_componentLabel l) i (components st)) st
    | None => st
    end
  else if ext =? 5 then in_service (sid32 1%nat)
  else st.

(** The FIG 2 at [d] is refused in state [st]: it is for a label of the
    store, it is segment 0 of the label, and the label data field (what
    is left of the FIG behind the header byte and the identifier) is not
    empty but at most as long as the leading bytes of the path taken. *)
Definition FIG2_refused (d : bitvec) (st : State) : Prop :=
  match FIG2_label d st with
  | Some (identifier_len, _) =>
    let len_bytes := FIG2_figlen d - 1 - identifier_len in
    0 < len_bytes /\ FIG2_segment_index d = 0 /\
    ((FIG2_rfu d = 0 /\ len_bytes <= 3) \/ (FIG2_rfu d <> 0 /\ len_bytes <= 1))
  | None => False
  end.

(** * Properties *)

(** ** The bit-field reader *)

Lemma lor_shiftl_bit (r b : Z) :
  0 <= r -> Z.lor (Z.shiftl r 1) (Z.land b 1) = 2 * r + b mod 2.
Proof.
  intros Hr.
  change 1 with (Z.ones 1) at 2. rewrite Z.land_ones by lia.
  rewrite Z.shiftl_mul_pow2 by lia. change (2 ^ 1) with 2.
  assert (Hb : b mod 2 = 0 \/ b mod 2 = 1)
    by (pose proof (Z.mod_pos_bound b 2); lia).
  destruct Hb as [-> | ->].
  - rewrite Z.lor_0_r. lia.
  - apply Z.bits_inj'. intros n Hn.
    rewrite Z.lor_spec.
    destruct (Z.eq_dec n 0) as [-> | Hn0].
    + replace (r * 2) with (2 * r) by lia.
      rewrite Z.testbit_even_0, Z.testbit_odd_0. reflexivity.
    + replace n with (Z.succ (n - 1)) by lia.
      replace (r * 2) with (2 * r) by lia.
      rewrite Z.testbit_even_succ, Z.testbit_odd_succ by lia.
      replace (Z.testbit 1 (Z.succ (n - 1))) with false.
      * apply orb_false_r.
      * symmetry. apply Z.bits_above_log2; simpl; lia.
Qed.

Lemma getBits_from_range (d : bitvec) (size : nat) :
  forall offset res k,
    0 <= k -> 0 <= res < 2 ^ k ->
    0 <= getBits_from d offset size res < 2 ^ (k + Z.of_nat size).
Proof.
  induction size as [|n IH]; intros offset res k Hk Hres; simpl getBits_from.
  - replace (k + Z.of_nat 0) with k by lia. exact Hres.
  - replace (k + Z.of_nat (S n)) with ((k + 1) + Z.of_nat n) by lia.
    apply IH; [lia|].
    rewrite lor_shiftl_bit by lia.
    rewrite Z.pow_add_r by lia. change (2 ^ 1) with 2.
    pose proof (Z.mod_pos_bound (d offset) 2). lia.
Qed.

Lemma getBits_range (d : bitvec) (offset size : Z) :
  0 <= size -> 0 <= getBits d offset size < 2 ^ size.
Proof.
  intros Hs. unfold getBits.
  pose proof (getBits_from_range d (Z.to_nat size) offset 0 0) as H.
  rewrite Z2Nat.id in H by lia. simpl in H. apply H; lia.
Qed.

Lemma getBits_5_range (d : bitvec) (offset : Z) : 0 <= getBits_5 d offset < 32.
Proof. apply (getBits_range d offset 5). lia. Qed.

Lemma getBits_3_range (d : bitvec) (offset : Z) : 0 <= getBits_3 d offset < 8.
Proof. apply (getBits_range d offset 3). lia. Qed.

Example getBits_msb_first :
  getBits (fib_of_bytes [0x12; 0x34]) 4 8 = 0x23 /\
  getBits (fib_of_bytes [0x12; 0x34]) 0 16 = 0x1234 /\
  getBits_3 (fib_of_bytes [0xE0]) 0 = 7.
Proof. repeat split. Qed.

(** A single bit read by [getBits_1] is the element itself when the
    element is a bit. *)
Lemma getBits_1_bit (d : bitvec) (offset : Z) :
  is_bit (d offset) -> getBits_1 d offset = d offset.
Proof. intros [H | H]; unfold getBits_1, getBits; simpl; rewrite H; reflexivity. Qed.

(** ** Loops *)

(** An invariant of the body is an invariant of the loop. *)
Lemma while_loop_inv (P : State -> Prop) (cond : Z -> bool)
    (body : Z -> State -> Z * State) :
  (forall used st, P st -> P (body used st).2) ->
  forall fuel used st, P st -> P (while_loop fuel cond body used st).
Proof.
  intros Hbody fuel. induction fuel as [|fuel IH]; intros used st HP; simpl.
  - exact HP.
  - destruct (cond used); [|exact HP].
    specialize (Hbody used st HP).
    destruct (body used st) as [used' st']. apply IH. exact Hbody.
Qed.

(** Fuel beyond the distance to the bound changes nothing: the loop has
    left through its condition before the fuel is used up. *)
Lemma while_loop_fuel (cond : Z -> bool) (body : Z -> State -> Z * State)
    (inv : Z -> Prop) (dist : Z -> Z) :
  (forall used, inv used -> cond used = true -> 0 < dist used) ->
  (forall used st, inv used -> cond used = true ->
     inv (body used st).1 /\ dist (body used st).1 < dist used) ->
  forall fuel used st extra,
    inv used -> dist used <= Z.of_nat fuel ->
    while_loop (fuel + extra) cond body used st = while_loop fuel cond body used st.
Proof.
  intros Hpos Hdec fuel.
  induction fuel as [|fuel IH]; intros used st extra Hinv Hd.
  - destruct extra as [|extra]; [reflexivity|]. simpl.
    destruct (cond used) eqn:Hc; [|reflexivity].
    specialize (Hpos used Hinv Hc). lia.
  - simpl plus. simpl.
    destruct (cond used) eqn:Hc; [|reflexivity].
    specialize (Hdec used st Hinv Hc).
    destruct (body used st) as [used' st']. simpl in Hdec.
    destruct Hdec as [Hinv' Hlt]. apply IH; [exact Hinv' | lia].
Qed.

(** ** The state store: dropping a service *)

Lemma orphan_check_referenced (comps : list ServiceComponent) (sub : Subchannel) :
  ~ sub_valid sub \/ referenced comps sub -> orphan_check comps sub = sub.
Proof.
  intros H. unfold orphan_check.
  case_bool_decide as Hid; [reflexivity|].
  case_bool_decide as Hfind; [|reflexivity].
  exfalso. destruct H as [H | (c & Hc & Href)].
  - apply H. exact Hid.
  - apply list_find_None in Hfind.
    rewrite Forall_forall in Hfind. exact (Hfind c Hc Href).
Qed.

Lemma orphan_check_orphaned (comps : list ServiceComponent) (sub : Subchannel) :
  sub_valid sub -> ~ referenced comps sub ->
  orphan_check comps sub = set_sub_subChId (-1) sub.
Proof.
  intros Hv Hn. unfold orphan_check.
  case_bool_decide as Hid; [contradiction|].
  case_bool_decide as Hfind; [reflexivity|].
  exfalso. apply Hn.
  destruct (list_find (fun c => sc_subchannelId c = sub_subChId sub) comps)
    as [[i c]|] eqn:E; [|congruence].
  apply list_find_Some in E as (Hi & Hc & _).
  exists c. split; [|exact Hc]. apply list_elem_of_lookup. eauto.
Qed.

(** C6: [dropService] removes the service with the given id and every
    component whose [SId] equals it, keeps the others in their order,
    then sets to the sentinel exactly the valid slots whose id no
    remaining component references; a slot that is still referenced (or
    already invalid), every other member of a slot, the table length and
    every other member variable are unchanged. *)
Theorem dropService_cascade (SId : Z) (st : State) :
  let st' := dropService SId st in
  (forall s, s ∈ services st' <-> s ∈ services st /\ svc_serviceId s <> SId) /\
  (forall c, c ∈ components st' <-> c ∈ components st /\ sc_SId c <> SId) /\
  sublist (services st') (services st) /\
  sublist (components st') (components st) /\
  length (subChannels st') = length (subChannels st) /\
  (forall (i : nat) sub, subChannels st !! i = Some sub ->
     (sub_valid sub -> ~ referenced (components st') sub ->
      subChannels st' !! i = Some (set_sub_subChId (-1) sub)) /\
     (~ sub_valid sub \/ referenced (components st') sub ->
      subChannels st' !! i = Some sub)) /\
  same_outside_collections st st'.
Proof.
  cbv zeta. unfold dropService. simpl.
  split; [|split; [|split; [|split; [|split; [|split]]]]].
  - intros s. rewrite list_elem_of_filter. tauto.
  - intros c. rewrite list_elem_of_filter. tauto.
  - apply sublist_filter.
  - apply sublist_filter.
  - apply length_fmap.
  - intros i sub Hi. split.
    + intros Hv Hn. rewrite list_lookup_fmap, Hi. simpl.
      f_equal. apply orphan_check_orphaned; assumption.
    + intros H. rewrite list_lookup_fmap, Hi. simpl.
      f_equal. apply orphan_check_referenced; assumption.
  - unfold same_outside_collections. simpl. repeat split.
Qed.

(** ** The state store: invariants of the component collection *)

Lemma store_ok_by_keys (st : State) :
  store_ok st <->
  (forall k, k ∈ component_keys st -> k.1 ∈ service_ids st) /\
  NoDup (component_keys st).
Proof.
  unfold store_ok, component_keys. rewrite Forall_forall.
  split; intros [H1 H2]; split; try exact H2.
  - intros k Hk. apply list_elem_of_fmap in Hk as (c & -> & Hc). apply H1, Hc.
  - intros c Hc. apply (H1 (component_key c)).
    apply list_elem_of_fmap. eauto.
Qed.

(** The invariants only read the ids of the services and the keys of the
    components. *)
Definition keys_of (st : State) : list Z * list (Z * Z) :=
  (service_ids st, component_keys st).

Lemma store_ok_keys_of (st st' : State) :
  keys_of st' = keys_of st -> store_ok st -> store_ok st'.
Proof.
  unfold keys_of. intros [= Hs Hc]. rewrite !store_ok_by_keys, Hs, Hc. tauto.
Qed.

Lemma fmap_alter_same {A B} (h : A -> B) (g : A -> A) (i : nat) (l : list A) :
  (forall x, h (g x) = h x) -> h <$> alter g i l = h <$> l.
Proof.
  intros Hg. revert i. induction l as [|x l IH]; intros [|i]; simpl; try reflexivity.
  - rewrite Hg. reflexivity.
  - f_equal. apply IH.
Qed.

Lemma findServiceId_Some (SId : Z) (st : State) i s :
  findServiceId SId st = Some (i, s) ->
  services st !! i = Some s /\ svc_serviceId s = SId /\ SId ∈ service_ids st.
Proof.
  unfold findServiceId. intros H. apply list_find_Some in H as (Hi & Hs & _).
  repeat split; try assumption.
  unfold service_ids. apply list_elem_of_fmap. exists s. split; [congruence|].
  apply list_elem_of_lookup. eauto.
Qed.

Lemma findServiceId_None (SId : Z) (st : State) :
  findServiceId SId st = None <-> SId ∉ service_ids st.
Proof.
  unfold findServiceId, service_ids. rewrite list_find_None, Forall_forall.
  rewrite list_elem_of_fmap. split.
  - intros H (s & -> & Hs). exact (H s Hs eq_refl).
  - intros H s Hs Heq. apply H. exists s. split; [congruence | exact Hs].
Qed.

Lemma component_absent_true (s : Service) (compnr : Z) (st : State) :
  component_absent s compnr st = true <->
  (svc_serviceId s, compnr) ∉ component_keys st.
Proof.
  unfold component_absent, component_keys.
  rewrite bool_decide_eq_true, list_find_None, Forall_forall, list_elem_of_fmap.
  unfold component_key. split.
  - intros H (c & [= H1 H2] & Hc). apply (H c Hc). split; congruence.
  - intros H c Hc [H1 H2]. apply H. exists c. split; [congruence | exact Hc].
Qed.

(** Appending a component of a present service under a fresh key. *)
Lemma store_ok_add_component (st : State) (c : ServiceComponent) :
  store_ok st ->
  sc_SId c ∈ service_ids st ->
  component_key c ∉ component_keys st ->
  store_ok (set_components (components st ++ [c]) st).
Proof.
  intros [H1 H2] Hs Hk. unfold store_ok, component_keys, service_ids in *. simpl.
  rewrite Forall_forall in *. split.
  - intros c' Hc'. apply elem_of_app in Hc' as [Hc' | Hc'].
    + apply H1, Hc'.
    + apply list_elem_of_singleton in Hc'. subst c'. exact Hs.
  - rewrite fmap_app. simpl. apply NoDup_app. repeat split.
    + exact H2.
    + intros k Hin Hin'. apply list_elem_of_singleton in Hin'. subst k. auto.
    + apply NoDup_singleton.
Qed.

Lemma bindAudioService_ok hdr TMid SId compnr subChId ps_flag ASCTy st :
  store_ok st ->
  store_ok (bindAudioService hdr TMid SId compnr subChId ps_flag ASCTy st).
Proof.
  intros Hok. unfold bindAudioService.
  destruct (findServiceId SId st) as [[i s]|] eqn:Hf; [|exact Hok].
  destruct (component_absent s compnr st) eqn:Ha; [|exact Hok].
  apply findServiceId_Some in Hf as (_ & Hid & Hin).
  apply component_absent_true in Ha. rewrite Hid in Ha.
  apply store_ok_add_component; assumption.
Qed.

Lemma bindDataStreamService_ok hdr TMid SId compnr subChId ps_flag DSCTy st :
  store_ok st ->
  store_ok (bindDataStreamService hdr TMid SId compnr subChId ps_flag DSCTy st).
Proof.
  intros Hok. unfold bindDataStreamService.
  destruct (findServiceId SId st) as [[i s]|] eqn:Hf; [|exact Hok].
  destruct (component_absent s compnr st) eqn:Ha; [|exact Hok].
  apply findServiceId_Some in Hf as (_ & Hid & Hin).
  apply component_absent_true in Ha. rewrite Hid in Ha.
  apply store_ok_add_component; assumption.
Qed.

Lemma bindPacketService_ok hdr TMid SId compnr SCId ps_flag CAflag st :
  store_ok st ->
  store_ok (bindPacketService hdr TMid SId compnr SCId ps_flag CAflag st).
Proof.
  intros Hok. unfold bindPacketService.
  destruct (findServiceId SId st) as [[i s]|] eqn:Hf; [|exact Hok].
  destruct (component_absent s compnr st) eqn:Ha; [|exact Hok].
  apply findServiceId_Some in Hf as (_ & Hid & Hin).
  apply component_absent_true in Ha. rewrite Hid in Ha.
  apply store_ok_add_component; assumption.
Qed.

Lemma dropService_ok (SId : Z) (st : State) :
  store_ok st -> store_ok (dropService SId st).
Proof.
  intros [H1 H2]. unfold store_ok, dropService, component_keys, service_ids in *.
  simpl. rewrite Forall_forall in *. split.
  - intros c Hc. apply list_elem_of_filter in Hc as [Hne Hc].
    specialize (H1 c Hc). apply list_elem_of_fmap in H1 as (s & Hs & Hin).
    apply list_elem_of_fmap. exists s. split; [exact Hs|].
    apply list_elem_of_filter. split; [congruence | exact Hin].
  - apply (sublist_NoDup _ (component_key <$> components st)); try exact H2. apply fmap_sublist, sublist_filter.
Qed.

Lemma clearEnsemble_ok (clk : Clock) (st : State) : store_ok (clearEnsemble clk st).
Proof.
  unfold store_ok, clearEnsemble, component_keys. simpl. split.
  - apply Forall_nil_2.
  - apply NoDup_nil_2.
Qed.

(** *** Every handler keeps the invariants *)

Lemma FIG0Extension0_ok clk d st : store_ok st -> store_ok (FIG0Extension0 clk d st).
Proof. intros H. unfold FIG0Extension0. frame_ok H. Qed.

Lemma FIG0Extension1_ok hdr d st : store_ok st -> store_ok (FIG0Extension1 hdr d st).
Proof.
  intros H. unfold FIG0Extension1. apply while_loop_inv; [|exact H].
  clear. intros used st H. unfold HandleFIG0Extension1. frame_ok H.
Qed.

Lemma decay_entry_ok st kv : store_ok st -> store_ok (decay_entry st kv).
Proof.
  intros H. destruct kv as [k v]. unfold decay_entry.
  destruct (0 <? v); [exact H|]. destruct (v =? 0); [|exact H].
  exact (dropService_ok v st H).
Qed.

Lemma decay_ok clk st : store_ok st -> store_ok (decay clk st).
Proof.
  intros H. unfold decay. destruct (_ <? _); [|exact H].
  unfold decay_pass.
  generalize (map_to_list (serviceRepeatCount st)). intros l.
  assert (Hl : store_ok (foldl decay_entry st l)).
  { revert st H. induction l as [|kv l IH]; intros st H; simpl; [exact H|].
    apply IH, decay_entry_ok, H. }
  exact Hl.
Qed.

Lemma sighting_ok hdr SId st : store_ok st -> store_ok (sighting hdr SId st).
Proof.
  intros [H1 H2]. unfold sighting.
  destruct (_ && _); [|split; assumption].
  unfold store_ok, service_ids, component_keys in *. simpl. split; [|exact H2].
  rewrite Forall_forall in *.
  intros c Hc. rewrite fmap_app. apply elem_of_app. left. apply H1, Hc.
Qed.

Lemma bind_components_ok hdr d SId n :
  forall i lOffset st,
    store_ok st -> store_ok (bind_components hdr d SId n i lOffset st).2.
Proof.
  induction n as [|n IH]; intros i lOffset st H; simpl; [exact H|].
  apply IH.
  destruct (_ =? 0); [apply bindAudioService_ok, H|].
  destruct (_ =? 1); [apply bindDataStreamService_ok, H|].
  destruct (_ =? 3); [apply bindPacketService_ok, H|exact H].
Qed.

Lemma HandleFIG0Extension2_ok hdr clk d offset cn pd st :
  store_ok st -> store_ok (HandleFIG0Extension2 hdr clk d offset cn pd st).2.
Proof.
  intros H. unfold HandleFIG0Extension2.
  destruct (FIG0Extension2_SId d offset pd) as [SId lOffset].
  pose proof (bind_components_ok hdr d SId
                (Z.to_nat (getBits_4 d (lOffset + 4))) 0 (lOffset + 8)
                (sighting hdr SId (decay clk st))
                (sighting_ok hdr SId _ (decay_ok clk st H))) as Hb.
  destruct (bind_components _ _ _ _ _ _ _) as [lOffset' st3]. exact Hb.
Qed.

Lemma FIG0Extension2_ok hdr clk d st :
  store_ok st -> store_ok (FIG0Extension2 hdr clk d st).
Proof.
  intros H. unfold FIG0Extension2. apply while_loop_inv; [|exact H].
  intros used st'. apply HandleFIG0Extension2_ok.
Qed.

Lemma HandleFIG0Extension3_ok d used st :
  store_ok st -> store_ok (HandleFIG0Extension3 d used st).2.
Proof.
  intros H. unfold HandleFIG0Extension3.
  destruct (findPacketComponent _ st) as [[i c]|]; [|exact H]. simpl.
  eapply store_ok_keys_of; [|exact H].
  unfold keys_of, service_ids, component_keys. simpl. f_equal.
  apply fmap_alter_same. reflexivity.
Qed.

Lemma FIG0Extension3_ok d st : store_ok st -> store_ok (FIG0Extension3 d st).
Proof.
  intros H. unfold FIG0Extension3. apply while_loop_inv; [|exact H].
  intros used st'. apply HandleFIG0Extension3_ok.
Qed.

Lemma FIG0Extension5_ok d st : store_ok st -> store_ok (FIG0Extension5 d st).
Proof.
  intros H. unfold FIG0Extension5. apply while_loop_inv; [|exact H].
  clear. intros used st H. unfold HandleFIG0Extension5. frame_ok H.
Qed.

Lemma FIG0Extension9_ok d st : store_ok st -> store_ok (FIG0Extension9 d st).
Proof. intros H. exact H. Qed.

Lemma FIG0Extension10_ok d st : store_ok st -> store_ok (FIG0Extension10 d st).
Proof.
  intros H. unfold FIG0Extension10.
  destruct (mjd_to_date _) as [[Y M] D]. frame_ok H.
Qed.

Lemma user_applications_ok d n :
  forall bitOffset st, store_ok st -> store_ok (user_applications d n bitOffset st).2.
Proof.
  induction n as [|n IH]; intros bitOffset st H; simpl; [exact H|].
  apply IH. destruct (_ =? 2); exact H.
Qed.

Lemma FIG0Extension13_ok d st : store_ok st -> store_ok (FIG0Extension13 d st).
Proof.
  intros H. unfold FIG0Extension13. apply while_loop_inv; [|exact H].
  clear. intros used st H. unfold HandleFIG0Extension13.
  pose proof (user_applications_ok d
                (Z.to_nat (getBits_4 d
                   (used * 8 + (if getBits_1 d (8 + 2) =? 1 then 32 else 16) + 4)))
                (used * 8 + (if getBits_1 d (8 + 2) =? 1 then 32 else 16) + 8)
                st H) as Hu.
  destruct (user_applications _ _ _ _) as [b st1]. exact Hu.
Qed.

Lemma FIG0Extension14_ok d st : store_ok st -> store_ok (FIG0Extension14 d st).
Proof.
  intros H. unfold FIG0Extension14. apply while_loop_inv; [|exact H].
  clear. intros used st H. exact H.
Qed.

Lemma alter_service_ok (f : Service -> Service) (i : nat) (st : State) :
  (forall s, svc_serviceId (f s) = svc_serviceId s) ->
  store_ok st -> store_ok (set_services (alter f i (services st)) st).
Proof.
  intros Hf H. eapply store_ok_keys_of; [|exact H].
  unfold keys_of, service_ids, component_keys. simpl. f_equal.
  apply fmap_alter_same. exact Hf.
Qed.

Lemma alter_component_ok (f : ServiceComponent -> ServiceComponent) (i : nat)
    (st : State) :
  (forall c, component_key (f c) = component_key c) ->
  store_ok st -> store_ok (set_components (alter f i (components st)) st).
Proof.
  intros Hf H. eapply store_ok_keys_of; [|exact H].
  unfold keys_of, service_ids, component_keys. simpl. f_equal.
  apply fmap_alter_same. exact Hf.
Qed.

Lemma HandleFIG0Extension17_ok d offset st :
  store_ok st -> store_ok (HandleFIG0Extension17 d offset st).2.
Proof.
  intros H. unfold HandleFIG0Extension17.
  destruct (findServiceId _ st) as [[i s]|]; destruct (_ =? 0); simpl;
    repeat (apply alter_service_ok; [reflexivity|]); exact H.
Qed.

Lemma FIG0Extension17_ok d st : store_ok st -> store_ok (FIG0Extension17 d st).
Proof.
  intros H. unfold FIG0Extension17. apply while_loop_inv; [|exact H].
  intros offset st'. apply HandleFIG0Extension17_ok.
Qed.

Lemma process_FIG0_ok hdr clk d st :
  store_ok st -> store_ok (process_FIG0 hdr clk d st).
Proof.
  intros H. unfold process_FIG0.
  repeat match goal with
         | |- context [if ?b then _ else _] => destruct b
         end;
  auto using FIG0Extension0_ok, FIG0Extension1_ok, FIG0Extension2_ok,
    FIG0Extension3_ok, FIG0Extension5_ok, FIG0Extension9_ok, FIG0Extension10_ok,
    FIG0Extension13_ok, FIG0Extension14_ok, FIG0Extension17_ok.
Qed.

Lemma store_ok_emit e st : store_ok st -> store_ok (emit e st).
Proof. intros H. exact H. Qed.

Lemma process_FIG1_ok d st : store_ok st -> store_ok (process_FIG1 d st).
Proof.
  intros H. unfold process_FIG1.
  destruct (_ =? 1); [exact H|].
  destruct (_ =? 0); [destruct (_ && _); exact H|].
  destruct (_ || _).
  { destruct (findServiceId _ st) as [[i s]|]; [|exact H].
    apply store_ok_emit.
    apply (alter_service_ok (set_svc_serviceLabel _) i st (fun _ => eq_refl) H). }
  destruct (_ =? 4); [|exact H].
  destruct (findComponent _ _ st) as [[i c]|]; [|exact H].
  apply (alter_component_ok (set_sc_componentLabel _) i st (fun _ => eq_refl) H).
Qed.

Lemma process_FIG2_ok d st : store_ok st -> store_ok (process_FIG2 d st).1.
Proof.
  intros H. unfold process_FIG2.
  repeat match goal with
         | |- context [if ?b then _ else _] => destruct b
         | |- context [match findServiceId ?a ?b with _ => _ end] =>
           destruct (findServiceId a b) as [[? ?]|]
         | |- context [match findComponent ?a ?b ?c with _ => _ end] =>
           destruct (findComponent a b c) as [[? ?]|]
         | |- context [let '(_, _) := ?x in _] => destruct x
         end; simpl; try exact H;
  first [ apply (alter_service_ok (set_svc_serviceLabel _) _ st (fun _ => eq_refl) H)
        | apply (alter_component_ok (set_sc_componentLabel _) _ st
                   (fun _ => eq_refl) H) ].
Qed.

Lemma dispatch_FIG_ok hdr clk d st :
  store_ok st -> store_ok (dispatch_FIG hdr clk d st).1.
Proof.
  intros H. unfold dispatch_FIG.
  destruct (_ =? 0); [exact (process_FIG0_ok hdr clk d st H)|].
  destruct (_ =? 1); [exact (process_FIG1_ok d st H)|].
  destruct (_ =? 2).
  { pose proof (process_FIG2_ok d st H) as H2.
    destruct (process_FIG2 d st) as [st' [e|]]; exact H2. }
  destruct (_ =? 6); [exact H|]. destruct (_ =? 7); exact H.
Qed.

Lemma processFIB_loop_ok hdr clk fuel p :
  forall processedBytes st,
    store_ok st -> store_ok (processFIB_loop hdr clk fuel p processedBytes st).1.
Proof.
  induction fuel as [|fuel IH]; intros processedBytes st H; simpl; [exact H|].
  destruct (processedBytes <? 30); [|exact H].
  pose proof (dispatch_FIG_ok hdr clk (advance p (processedBytes * 8)) st H) as Hd.
  destruct (dispatch_FIG _ _ _ st) as [st' [| |e]]; simpl in Hd; try exact Hd.
  apply IH, Hd.
Qed.

(** *** Announcements that are discarded *)

Lemma bind_unknown_service hdr TMid SId compnr a b c st :
  SId ∉ service_ids st ->
  bindAudioService hdr TMid SId compnr a b c st = st /\
  bindDataStreamService hdr TMid SId compnr a b c st = st /\
  bindPacketService hdr TMid SId compnr a b c st = st.
Proof.
  intros H. apply findServiceId_None in H.
  unfold bindAudioService, bindDataStreamService, bindPacketService.
  rewrite H. repeat split.
Qed.

Lemma bind_existing_pair hdr TMid SId compnr a b c st :
  (SId, compnr) ∈ component_keys st ->
  bindAudioService hdr TMid SId compnr a b c st = st /\
  bindDataStreamService hdr TMid SId compnr a b c st = st /\
  bindPacketService hdr TMid SId compnr a b c st = st.
Proof.
  intros H.
  unfold bindAudioService, bindDataStreamService, bindPacketService.
  destruct (findServiceId SId st) as [[i s]|] eqn:Hf; [|repeat split].
  apply findServiceId_Some in Hf as (_ & Hid & _).
  destruct (component_absent s compnr st) eqn:Ha; [|repeat split].
  apply component_absent_true in Ha. rewrite Hid in Ha. contradiction.
Qed.

Lemma bind_new_pair hdr TMid SId compnr a b c st :
  SId ∈ service_ids st -> (SId, compnr) ∉ component_keys st ->
  component_keys (bindAudioService hdr TMid SId compnr a b c st)
    = component_keys st ++ [(SId, compnr)] /\
  component_keys (bindDataStreamService hdr TMid SId compnr a b c st)
    = component_keys st ++ [(SId, compnr)] /\
  component_keys (bindPacketService hdr TMid SId compnr a b c st)
    = component_keys st ++ [(SId, compnr)].
Proof.
  intros Hs Hk.
  unfold bindAudioService, bindDataStreamService, bindPacketService.
  destruct (findServiceId SId st) as [[i s]|] eqn:Hf.
  - apply findServiceId_Some in Hf as (_ & Hid & _).
    destruct (component_absent s compnr st) eqn:Ha.
    + unfold component_keys. simpl. rewrite !fmap_app. repeat split.
    + exfalso. apply not_true_iff_false in Ha. apply Ha.
      apply component_absent_true. rewrite Hid. exact Hk.
  - apply findServiceId_None in Hf. contradiction.
Qed.

(** C7: the two invariants of the component collection (every
    component's [SId] is the id of a service in the collection; a pair
    (SId, componentNr) occurs at most once) hold after every operation on
    a store in which they hold: [clearEnsemble], [dropService],
    [processFIB] on any FIB, one FIG 0/2 record, and each of the three
    bind functions.  A component announced for a service that is not in
    the collection is discarded (the store is unchanged), an announcement
    for a pair that exists creates no row and leaves the existing one as
    it is, and an announcement for a new pair of a known service appends
    one row under that pair. *)
Theorem component_invariants (hdr : Header) (clk : Clock) (st : State) :
  store_ok st ->
  store_ok (clearEnsemble clk st) /\
  (forall SId, store_ok (dropService SId st)) /\
  (forall p fib, store_ok (processFIB hdr clk p fib st).1) /\
  (forall d offset cn pd,
     store_ok (HandleFIG0Extension2 hdr clk d offset cn pd st).2) /\
  (forall TMid SId compnr a b c,
     store_ok (bindAudioService hdr TMid SId compnr a b c st) /\
     store_ok (bindDataStreamService hdr TMid SId compnr a b c st) /\
     store_ok (bindPacketService hdr TMid SId compnr a b c st)) /\
  (forall TMid SId compnr a b c,
     SId ∉ service_ids st ->
     bindAudioService hdr TMid SId compnr a b c st = st /\
     bindDataStreamService hdr TMid SId compnr a b c st = st /\
     bindPacketService hdr TMid SId compnr a b c st = st) /\
  (forall TMid SId compnr a b c,
     (SId, compnr) ∈ component_keys st ->
     bindAudioService hdr TMid SId compnr a b c st = st /\
     bindDataStreamService hdr TMid SId compnr a b c st = st /\
     bindPacketService hdr TMid SId compnr a b c st = st) /\
  (forall TMid SId compnr a b c,
     SId ∈ service_ids st -> (SId, compnr) ∉ component_keys st ->
     component_keys (bindAudioService hdr TMid SId compnr a b c st)
       = component_keys st ++ [(SId, compnr)] /\
     component_keys (bindDataStreamService hdr TMid SId compnr a b c st)
       = component_keys st ++ [(SId, compnr)] /\
     component_keys (bindPacketService hdr TMid SId compnr a b c st)
       = component_keys st ++ [(SId, compnr)]).
Proof.
  intros H.
  split; [apply clearEnsemble_ok|].
  split; [intros SId; apply dropService_ok, H|].
  split; [intros p fib; apply processFIB_loop_ok, H|].
  split; [intros d offset cn pd; apply HandleFIG0Extension2_ok, H|].
  split.
  { intros TMid SId compnr a b c.
    auto using bindAudioService_ok, bindDataStreamService_ok, bindPacketService_ok. }
  split; [intros; apply bind_unknown_service; assumption|].
  split; [intros; apply bind_existing_pair; assumption|].
  intros; apply bind_new_pair; assumption.
Qed.

(** The invariants at a store with one service and one component, and
    after the same announcement is processed once more. *)
Lemma component_invariants_witness :
  store_ok st_confirmed /\
  store_ok (processFIB hdr0 clk0 fib_announce 0 st_confirmed).1.
Proof.
  assert (H : store_ok st_confirmed).
  { apply (bool_decide_unpack _). vm_compute. exact I. }
  split; [exact H|].
  destruct (component_invariants hdr0 clk0 st_confirmed H) as (_ & _ & Hp & _).
  exact (Hp fib_announce 0).
Defined.

(** ** Date and time (FIG 0/10) *)

Lemma all_from_spec (f : Z -> bool) (n : nat) :
  forall z, all_from f n z = true ->
  forall k, z <= k < z + Z.of_nat n -> f k = true.
Proof.
  induction n as [|n IH]; intros z H k Hk; [lia|].
  simpl in H. apply andb_true_iff in H as [Hz Hrest].
  destruct (Z.eq_dec k z) as [-> | Hne]; [exact Hz|].
  apply (IH (z + 1) Hrest). lia.
Qed.

(** Every 17-bit MJD is converted to an existing Gregorian date whose
    Julian day number is MJD + 2400001 (checked value by value). *)
Lemma mjd_to_date_all : all_from mjd_date_ok (Z.to_nat 131072) 0 = true.
Proof. vm_compute. reflexivity. Qed.

Lemma mjd_to_date_gregorian (mjd : Z) :
  0 <= mjd < 2 ^ 17 ->
  let '(Y, M, D) := mjd_to_date mjd in
  gregorian_date Y M D = true /\ gregorian_to_jdn Y M D = mjd + 2400001.
Proof.
  intros H.
  pose proof (all_from_spec _ _ _ mjd_to_date_all mjd) as Hok.
  rewrite Z2Nat.id in Hok by lia.
  specialize (Hok ltac:(change (2 ^ 17) with 131072 in H; lia)).
  unfold mjd_date_ok in Hok. destruct (mjd_to_date mjd) as [[Y M] D].
  apply andb_true_iff in Hok as [H1 H2]. split; [exact H1|]. lia.
Qed.

Lemma FIG0Extension10_dateTime (fig : bitvec) (st : State) :
  dateTime (FIG0Extension10 fig st) =
  let '(Y, M, D) := mjd_to_date (getBits fig 17 17) in
  let dt := dateTime st in
  mkDateTime Y M D (getBits_5 fig 37) (getBits_6 fig 42)
    (if fig 36 =? 1 then getBits_6 fig 48
     else if bool_decide (getBits_6 fig 42 <> dt_minutes dt) then 0
          else dt_seconds dt)
    (dt_hourOffset dt) (dt_minuteOffset dt).
Proof.
  unfold FIG0Extension10. change (16 + 1) with 17. change (16 + 21) with 37.
  change (16 + 26) with 42. change (16 + 20) with 36. change (16 + 32) with 48.
  destruct (mjd_to_date (getBits fig 17 17)) as [[Y M] D].
  destruct (timeOffsetReceived _); reflexivity.
Qed.

(** C8 (as amended): [FIG0Extension10] stores the Gregorian calendar date
    of the Julian day number MJD + 2400001, for every 17-bit MJD field: an
    existing date whose day number is that one, together with the hour
    and minute fields.  MJD 58849 gives 2020-01-01 (with hour 12 and
    minute 0: 2020-01-01 12:00) and MJD 51544 gives 2000-01-01. *)
Theorem FIG0Extension10_date (fig : bitvec) (st : State) :
  let mjd := getBits fig 17 17 in
  let dt := dateTime (FIG0Extension10 fig st) in
  gregorian_date (dt_year dt) (dt_month dt) (dt_day dt) = true /\
  gregorian_to_jdn (dt_year dt) (dt_month dt) (dt_day dt) = mjd + 2400001 /\
  dt_hour dt = getBits_5 fig 37 /\
  dt_minutes dt = getBits_6 fig 42 /\
  (mjd = 58849 -> (dt_year dt, dt_month dt, dt_day dt) = (2020, 1, 1)) /\
  (mjd = 51544 -> (dt_year dt, dt_month dt, dt_day dt) = (2000, 1, 1)) /\
  (let dt' := dateTime (FIG0Extension10 fig_mjd_58849 st) in
   (dt_year dt', dt_month dt', dt_day dt', dt_hour dt', dt_minutes dt')
   = (2020, 1, 1, 12, 0)).
Proof.
  cbv zeta. rewrite !FIG0Extension10_dateTime.
  pose proof (mjd_to_date_gregorian (getBits fig 17 17)
                (getBits_range fig 17 17 ltac:(lia))) as Hg.
  assert (H1 : mjd_to_date 58849 = (2020, 1, 1)) by (vm_compute; reflexivity).
  assert (H2 : mjd_to_date 51544 = (2000, 1, 1)) by (vm_compute; reflexivity).
  assert (H3 : getBits fig_mjd_58849 17 17 = 58849) by (vm_compute; reflexivity).
  assert (H4 : getBits_5 fig_mjd_58849 37 = 12) by (vm_compute; reflexivity).
  assert (H5 : getBits_6 fig_mjd_58849 42 = 0) by (vm_compute; reflexivity).
  rewrite H3, H1, H4, H5.
  destruct (mjd_to_date (getBits fig 17 17)) as [[Y M] D] eqn:E. simpl.
  destruct Hg as [Hg1 Hg2].
  repeat split; try assumption.
  - intros Hm. rewrite Hm, H1 in E. congruence.
  - intros Hm. rewrite Hm, H2 in E. congruence.
Qed.

(** The date the spec names for MJD 58849, 2020-02-02, is not the one
    that is stored. *)
Lemma FIG0Extension10_date_counterexample :
  getBits fig_mjd_58849 17 17 = 58849 /\
  getBits_5 fig_mjd_58849 37 = 12 /\
  getBits_6 fig_mjd_58849 42 = 0 /\
  (let dt := dateTime (FIG0Extension10 fig_mjd_58849 st0) in
   (dt_year dt, dt_month dt, dt_day dt)) <> (2020, 2, 2).
Proof.
  repeat split; try (vm_compute; reflexivity).
  vm_compute. intros H. discriminate H.
Qed.

(** The reader only looks at the elements of the field. *)
Lemma getBits_from_ext (d d' : bitvec) (size : nat) :
  forall offset res,
    (forall i, offset <= i < offset + Z.of_nat size -> d' i = d i) ->
    getBits_from d' offset size res = getBits_from d offset size res.
Proof.
  induction size as [|n IH]; intros offset res H; simpl; [reflexivity|].
  rewrite (H offset) by lia. apply IH. intros i Hi. apply H. lia.
Qed.

Lemma getBits_ext (d d' : bitvec) (offset size : Z) :
  0 <= size ->
  (forall i, offset <= i < offset + size -> d' i = d i) ->
  getBits d' offset size = getBits d offset size.
Proof.
  intros Hs H. unfold getBits. apply getBits_from_ext.
  intros i Hi. apply H. lia.
Qed.

(** C9: in [FIG0Extension10] the stored seconds come from the 6-bit
    seconds field exactly when the flag element (bit 36 of the FIG) is
    set.  When it is clear the seconds are the old ones, or 0 when the
    decoded minute differs from the stored minute, and the seconds field
    is not read: the result does not depend on its six elements. *)
Theorem FIG0Extension10_seconds (fig : bitvec) (st : State) :
  is_bit (fig 36) ->
  let st' := FIG0Extension10 fig st in
  (getBits_1 fig 36 = 1 ->
   dt_seconds (dateTime st') = getBits_6 fig 48) /\
  (getBits_1 fig 36 = 0 ->
   dt_seconds (dateTime st') =
     if bool_decide (getBits_6 fig 42 <> dt_minutes (dateTime st)) then 0
     else dt_seconds (dateTime st)) /\
  (getBits_1 fig 36 = 0 ->
   forall fig' : bitvec,
     (forall i, ~ 48 <= i < 54 -> fig' i = fig i) ->
     FIG0Extension10 fig' st = st').
Proof.
  intros Hbit. cbv zeta. rewrite (getBits_1_bit fig 36 Hbit).
  split; [|split].
  - intros H. rewrite FIG0Extension10_dateTime.
    destruct (mjd_to_date _) as [[Y M] D]. simpl. rewrite H. reflexivity.
  - intros H. rewrite FIG0Extension10_dateTime.
    destruct (mjd_to_date _) as [[Y M] D]. simpl. rewrite H. reflexivity.
  - intros H fig' Hsame. unfold FIG0Extension10.
    unfold getBits_5, getBits_6.
    rewrite (getBits_ext fig fig' (16 + 1) 17) by (intros; try apply Hsame; lia).
    rewrite (getBits_ext fig fig' (16 + 21) 5) by (intros; try apply Hsame; lia).
    rewrite (getBits_ext fig fig' (16 + 26) 6) by (intros; try apply Hsame; lia).
    change (16 + 20) with 36. rewrite (Hsame 36) by lia. rewrite H.
    reflexivity.
Qed.

Lemma FIG0Extension10_seconds_witness :
  is_bit (fig_mjd_58849 36) /\
  dt_seconds (dateTime (FIG0Extension10 fig_mjd_58849 st0)) = 0.
Proof.
  assert (Hbit : is_bit (fig_mjd_58849 36)) by (left; vm_compute; reflexivity).
  split; [exact Hbit|].
  destruct (FIG0Extension10_seconds fig_mjd_58849 st0 Hbit) as (_ & H0 & _).
  rewrite H0; vm_compute; reflexivity.
Defined.

(** ** Queries *)

(** C10: for a component whose stored subchannel id (an [int16_t]) is not
    an index of the 64-entry table, [getSubchannel] raises
    [std::out_of_range]; it returns neither a slot nor a sentinel. *)
Theorem getSubchannel_out_of_range (sc : ServiceComponent) (st : State) :
  length (subChannels st) = 64%nat ->
  - 2 ^ 15 <= sc_subchannelId sc < 2 ^ 15 ->
  ~ 0 <= sc_subchannelId sc < 64 ->
  getSubchannel sc st = inr out_of_range.
Proof.
  intros Hlen Hrange Hout. unfold getSubchannel, size_t_of.
  rewrite (proj2 (lookup_ge_None _ _)); [reflexivity|].
  rewrite Hlen.
  destruct (Z_lt_le_dec (sc_subchannelId sc) 0) as [Hneg | Hpos].
  - replace (sc_subchannelId sc mod 2 ^ 64)
      with (sc_subchannelId sc + 2 ^ 64).
    + change (2 ^ 15) with 32768 in Hrange.
      change (2 ^ 64) with 18446744073709551616. lia.
    + apply Z.mod_unique with (q := -1); [left|]; lia.
  - rewrite Z.mod_small by lia. lia.
Qed.

(** The packet-mode component that FIG 0/2 created, before any FIG 0/3:
    its subchannel id is still the initial [-1]. *)
Lemma getSubchannel_out_of_range_witness :
  exists sc, components st_packet = [sc] /\ sc_TMid sc = 3 /\
             sc_subchannelId sc = -1 /\
             getSubchannel sc st_packet = inr out_of_range.
Proof.
  eexists. split; [vm_compute; reflexivity|].
  split; [reflexivity|]. split; [reflexivity|].
  apply getSubchannel_out_of_range.
  - vm_compute. reflexivity.
  - simpl. lia.
  - simpl. lia.
Defined.

(** ** The dispatcher *)

Lemma int8_small (x : Z) : 0 <= x < 128 -> int8 x = x.
Proof. intros H. unfold int8. rewrite Z.mod_small; lia. Qed.

Lemma next_FIG_gt (p : bitvec) (a : Z) : a < next_FIG p a <= a + 32.
Proof.
  unfold next_FIG. pose proof (getBits_5_range (advance p (a * 8)) 3). lia.
Qed.

(** Types 6 and 7 leave the [switch] by [return], with the state as it
    was; no other type does. *)
Lemma dispatch_FIG_return hdr clk d st :
  if (getBits_3 d 0 =? 6) || (getBits_3 d 0 =? 7)
  then dispatch_FIG hdr clk d st = (st, Return)
  else (dispatch_FIG hdr clk d st).2 <> Return.
Proof.
  unfold dispatch_FIG, process_FIG6, process_FIG7.
  destruct (getBits_3 d 0 =? 0) eqn:E0.
  { apply Z.eqb_eq in E0. rewrite E0. simpl. discriminate. }
  destruct (getBits_3 d 0 =? 1) eqn:E1.
  { apply Z.eqb_eq in E1. rewrite E1. simpl. discriminate. }
  destruct (getBits_3 d 0 =? 2) eqn:E2.
  { apply Z.eqb_eq in E2. rewrite E2. simpl.
    destruct (process_FIG2 d st) as [st' [e|]]; discriminate. }
  destruct (getBits_3 d 0 =? 6) eqn:E6; [reflexivity|].
  destruct (getBits_3 d 0 =? 7) eqn:E7; [reflexivity|].
  simpl. discriminate.
Qed.

Lemma processFIB_loop_walk hdr clk p fuel :
  forall processedBytes st,
    0 <= processedBytes ->
    processFIB_loop hdr clk fuel p processedBytes st
    = dispatch_along hdr clk p (fig_walk fuel p processedBytes) st.
Proof.
  induction fuel as [|fuel IH]; intros pb st Hpb; simpl; [reflexivity|].
  destruct (pb <? 30) eqn:Hlt; [|reflexivity].
  apply Z.ltb_lt in Hlt.
  pose proof (dispatch_FIG_return hdr clk (advance p (pb * 8)) st) as Hret.
  pose proof (getBits_5_range (advance p (pb * 8)) 3) as Hlen.
  destruct ((getBits_3 (advance p (pb * 8)) 0 =? 6)
            || (getBits_3 (advance p (pb * 8)) 0 =? 7)).
  - simpl. rewrite Hret. reflexivity.
  - simpl. destruct (dispatch_FIG hdr clk (advance p (pb * 8)) st) as [st' [| |e]];
      simpl in Hret; try congruence.
    rewrite int8_small by lia. apply IH. lia.
Qed.

(** The walk, one step at a time: the offset after [a]. *)
Lemma fig_walk_step (p : bitvec) (fuel : nat) :
  forall offset (i : nat) a,
    0 <= offset -> 30 - offset <= Z.of_nat fuel ->
    fig_walk fuel p offset !! i = Some a ->
    offset <= a < 30 /\
    fig_walk fuel p offset !! S i =
      if end_FIG p a then None
      else if next_FIG p a <? 30 then Some (next_FIG p a) else None.
Proof.
  induction fuel as [|fuel IH]; intros offset i a H0 Hfuel Hi; [discriminate|].
  simpl in Hi |- *.
  destruct (offset <? 30) eqn:Hlt; [|discriminate].
  apply Z.ltb_lt in Hlt.
  pose proof (next_FIG_gt p offset) as Hnext.
  fold (FIGtype_at p offset) in Hi |- *. fold (end_FIG p offset) in Hi |- *.
  fold (next_FIG p offset) in Hi |- *.
  destruct i as [|i].
  - injection Hi as <-. split; [lia|]. simpl.
    destruct (end_FIG p offset); [reflexivity|].
    destruct fuel as [|fuel].
    + simpl. destruct (next_FIG p offset <? 30) eqn:E; [|reflexivity].
      apply Z.ltb_lt in E. lia.
    + simpl. destruct (next_FIG p offset <? 30); reflexivity.
  - simpl in Hi |- *.
    destruct (end_FIG p offset); [discriminate|].
    destruct (IH (next_FIG p offset) i a) as [Ha Hs]; try lia; try exact Hi.
    split; [lia | exact Hs].
Qed.



Lemma dispatch_FIG_handle hdr clk d st :
  dispatch_FIG hdr clk d st =
  ((handle_FIG hdr clk d st).1,
   match (handle_FIG hdr clk d st).2 with
   | Some e => Throw e
   | None => if (getBits_3 d 0 =? 6) || (getBits_3 d 0 =? 7) then Return else Break
   end).
Proof.
  unfold dispatch_FIG, handle_FIG, process_FIG6, process_FIG7,
    process_FIGUnsupported.
  generalize (process_FIG0 hdr clk d st) (process_FIG1 d st) (process_FIG2 d st).
  intros s0 s1 [s2 e2].
  destruct (Z.eq_dec (getBits_3 d 0) 0) as [-> | N0];
    [cbn [Z.eqb Pos.eqb orb fst snd]; reflexivity|].
  destruct (Z.eq_dec (getBits_3 d 0) 1) as [-> | N1];
    [cbn [Z.eqb Pos.eqb orb fst snd]; reflexivity|].
  destruct (Z.eq_dec (getBits_3 d 0) 2) as [-> | N2];
    [cbn [Z.eqb Pos.eqb orb fst snd]; destruct e2; reflexivity|].
  apply Z.eqb_neq in N0, N1, N2. rewrite N0, N1, N2. cbn [fst snd].
  destruct (getBits_3 d 0 =? 6); [reflexivity|].
  destruct (getBits_3 d 0 =? 7); reflexivity.
Qed.

Lemma dispatch_along_handle hdr clk p offsets :
  forall st,
    dispatch_along hdr clk p offsets st = handle_along hdr clk p offsets st.
Proof.
  induction offsets as [|a rest IH]; intros st; [reflexivity|].
  cbn [dispatch_along handle_along].
  rewrite (dispatch_FIG_handle hdr clk (advance p (a * 8)) st).
  destruct (handle_FIG hdr clk (advance p (a * 8)) st) as [st' [e|]]; cbn [fst snd].
  - reflexivity.
  - destruct (_ || _); apply IH.
Qed.

Lemma processFIB_handle_along hdr clk p fib st :
  processFIB hdr clk p fib st = handle_along hdr clk p (FIG_offsets p) st.
Proof.
  unfold processFIB, FIG_offsets.
  rewrite processFIB_loop_walk by lia. apply dispatch_along_handle.
Qed.

Lemma handle_along_app hdr clk p l1 l2 :
  forall st,
    handle_along hdr clk p (l1 ++ l2) st =
    match handle_along hdr clk p l1 st with
    | (st', None) => handle_along hdr clk p l2 st'
    | (st', Some e) => (st', Some e)
    end.
Proof.
  induction l1 as [|a l1 IH]; intros st; [reflexivity|].
  cbn [app handle_along].
  destruct (handle_FIG hdr clk (advance p (a * 8)) st) as [st' [e|]];
    [reflexivity|apply IH].
Qed.






(** The end marker at byte offset 10: the FIG 0/0 behind it is not
    processed, and the next FIB is processed as after any other FIB. *)
Example processFIB_end_marker_at_10 :
  FIG_offsets fib_end_at_10 = [0; 10] /\
  processFIB hdr0 clk0 fib_end_at_10 0 st0 = (st0, None) /\
  ensembleId (feed hdr0 [(clk0, fib_end_at_10); (clk0, fib_subch)] st0).1 = 0x1234.
Proof. repeat split; vm_compute; reflexivity. Qed.

(** ** The debounce filter *)

Lemma decay_pass_fold (P : State -> Prop) (st : State) :
  (forall st' kv, P st' -> P (decay_entry st' kv)) -> P st -> P (decay_pass st).
Proof.
  intros Hstep H. unfold decay_pass.
  generalize (map_to_list (serviceRepeatCount st)). intros l.
  revert st H. induction l as [|kv l IH]; intros st H; simpl; [exact H|].
  apply IH, Hstep, H.
Qed.

(** The decay pass never removes a service whose id is not 0: the call it
    makes is [dropService(it->second)], and [it->second] is the counter,
    which is 0 there. *)
Lemma decay_pass_keeps_nonzero (st : State) (s : Service) :
  svc_serviceId s <> 0 -> s ∈ services st -> s ∈ services (decay_pass st).
Proof.
  intros Hne Hin.
  apply (decay_pass_fold (fun st' => s ∈ services st')); [|exact Hin].
  clear st Hin. intros st [k v] H. unfold decay_entry.
  destruct (0 <? v); [exact H|].
  destruct (v =? 0) eqn:Hv; [|exact H].
  apply Z.eqb_eq in Hv. subst v. simpl.
  apply list_elem_of_filter. split; assumption.
Qed.

Lemma decay_events clk st : events (decay clk st) = events st.
Proof.
  unfold decay. destruct (_ <? _); [|reflexivity]. simpl.
  apply (decay_pass_fold (fun st' => events st' = events st)); [|reflexivity].
  intros st' [k v] H. unfold decay_entry.
  destruct (0 <? v); [exact H|]. destruct (v =? 0); exact H.
Qed.

Lemma decay_NoDup clk st :
  NoDup (service_ids st) -> NoDup (service_ids (decay clk st)).
Proof.
  intros H. unfold decay. destruct (_ <? _); [|exact H].
  change (NoDup (service_ids (decay_pass st))).
  apply (decay_pass_fold (fun st' => NoDup (service_ids st'))); [|exact H].
  intros st' [k v] H'. unfold decay_entry.
  destruct (0 <? v); [exact H'|]. destruct (v =? 0); [|exact H'].
  unfold service_ids in *. simpl.
  apply (sublist_NoDup _ (svc_serviceId <$> services st')); try exact H'.
  apply fmap_sublist, sublist_filter.
Qed.

Lemma decay_entry_counters (st : State) (k v : Z) :
  serviceRepeatCount (decay_entry st (k, v)) =
  match decayed v with
  | Some v' => if 0 <? v then <[k := v']> (serviceRepeatCount st)
               else serviceRepeatCount st
  | None => delete k (serviceRepeatCount st)
  end.
Proof.
  unfold decay_entry, decayed.
  destruct (0 <? v); [reflexivity|]. destruct (v =? 0); reflexivity.
Qed.

Lemma decay_fold_counters (l : list (Z * Z)) :
  NoDup l.*1 ->
  forall st,
    (forall k v, (k, v) ∈ l -> serviceRepeatCount st !! k = Some v) ->
    forall k,
      serviceRepeatCount (foldl decay_entry st l) !! k =
      if decide (k ∈ l.*1) then serviceRepeatCount st !! k ≫= decayed
      else serviceRepeatCount st !! k.
Proof.
  induction l as [|[k0 v0] l IH]; intros Hnd st Hl k.
  - simpl. destruct (decide (k ∈ [])) as [H|_]; [|reflexivity].
    apply elem_of_nil in H. contradiction.
  - rewrite fmap_cons in *. cbn [foldl fst] in *.
    apply NoDup_cons in Hnd as [Hk0 Hnd].
    assert (Hv0 : serviceRepeatCount st !! k0 = Some v0)
      by (apply Hl; left).
    assert (Hother : forall k', k' <> k0 ->
              serviceRepeatCount (decay_entry st (k0, v0)) !! k'
              = serviceRepeatCount st !! k').
    { intros k' Hne. rewrite decay_entry_counters. unfold decayed.
      destruct (0 <? v0); [apply lookup_insert_ne; congruence|].
      destruct (v0 =? 0); [apply lookup_delete_ne; congruence | reflexivity]. }
    assert (Hself : serviceRepeatCount (decay_entry st (k0, v0)) !! k0
                    = decayed v0).
    { rewrite decay_entry_counters. unfold decayed.
      destruct (0 <? v0); [apply lookup_insert_eq|].
      destruct (v0 =? 0); [apply lookup_delete_eq | exact Hv0]. }
    rewrite (IH Hnd (decay_entry st (k0, v0))).
    + destruct (decide (k = k0)) as [-> | Hne].
      * destruct (decide (k0 ∈ l.*1)) as [H|_]; [contradiction|].
        destruct (decide (k0 ∈ k0 :: l.*1)) as [_|H]; [|exfalso; apply H; left].
        rewrite Hself, Hv0. reflexivity.
      * rewrite (Hother k Hne).
        destruct (decide (k ∈ l.*1)) as [H|H];
          destruct (decide (k ∈ k0 :: l.*1)) as [H'|H']; try reflexivity.
        -- exfalso. apply H'. right. exact H.
        -- exfalso. apply elem_of_cons in H' as [H' | H']; contradiction.
    + intros k' v' Hin.
      assert (k' <> k0).
      { intros ->. apply Hk0. apply list_elem_of_fmap. exists (k0, v'). split; auto. }
      rewrite (Hother k') by assumption. apply Hl. right. exact Hin.
Qed.

(** Every positive counter is decremented by one; an entry whose counter
    is 0 when the pass runs is erased; a counter that the pass brings to 0
    stays tracked. *)
Lemma decay_pass_counters (st : State) (k : Z) :
  serviceRepeatCount (decay_pass st) !! k = serviceRepeatCount st !! k ≫= decayed.
Proof.
  unfold decay_pass.
  rewrite (decay_fold_counters (map_to_list (serviceRepeatCount st))).
  - destruct (decide (k ∈ (map_to_list (serviceRepeatCount st)).*1)) as [H|H];
      [reflexivity|].
    destruct (serviceRepeatCount st !! k) as [v|] eqn:E; [|reflexivity].
    exfalso. apply H. apply list_elem_of_fmap. exists (k, v). split; [reflexivity|].
    apply elem_of_map_to_list. exact E.
  - apply NoDup_fst_map_to_list.
  - intros k' v' Hin. apply elem_of_map_to_list. exact Hin.
Qed.

Lemma decay_bounded clk st :
  (forall k v, serviceRepeatCount st !! k = Some v -> 0 <= v <= 4) ->
  forall k v, serviceRepeatCount (decay clk st) !! k = Some v -> 0 <= v <= 4.
Proof.
  intros H k v. unfold decay. destruct (_ <? _); [|apply H].
  change (serviceRepeatCount (decay_pass st) !! k = Some v -> 0 <= v <= 4).
  rewrite decay_pass_counters.
  destruct (serviceRepeatCount st !! k) as [v0|] eqn:E; [|discriminate].
  specialize (H k v0 E). simpl. unfold decayed.
  destruct (0 <? v0) eqn:E1; [intros [= <-]; apply Z.ltb_lt in E1; lia|].
  destruct (v0 =? 0); [discriminate|]. intros [= <-]. exact H.
Qed.

(** *** The order of the iteration does not matter

    [serviceRepeatCount] is an unordered map; whatever order its iterator
    follows, the pass ends in the same state. *)

Lemma orphan_check_idem (comps : list ServiceComponent) (sub : Subchannel) :
  orphan_check comps (orphan_check comps sub) = orphan_check comps sub.
Proof.
  unfold orphan_check.
  destruct (bool_decide (sub_subChId sub = -1)) eqn:E1; [rewrite E1; reflexivity|].
  destruct (bool_decide
              (list_find (fun c => sc_subchannelId c = sub_subChId sub) comps = None))
    eqn:E2.
  - reflexivity.
  - rewrite E1, E2. reflexivity.
Qed.

Lemma filter_idem {A} (P : A -> Prop) `{!forall x, Decision (P x)} (l : list A) :
  filter P (filter P l) = filter P l.
Proof.
  induction l as [|x l IH]; [reflexivity|].
  rewrite filter_cons. destruct (decide (P x)) as [HP|HP].
  - rewrite filter_cons, decide_True by exact HP. f_equal. exact IH.
  - exact IH.
Qed.

Lemma dropService_idem (SId : Z) (st : State) :
  dropService SId (dropService SId st) = dropService SId st.
Proof.
  unfold dropService. simpl. rewrite !filter_idem.
  unfold set_subChannels, set_components, set_services. simpl. f_equal.
  rewrite <- list_fmap_compose. apply list_fmap_ext.
  intros i sub _. apply orphan_check_idem.
Qed.

Lemma decay_fold_state (l : list (Z * Z)) :
  forall st,
    foldl decay_entry st l =
    set_serviceRepeatCount (serviceRepeatCount (foldl decay_entry st l))
      (if any_zero l then dropService 0 st else st).
Proof.
  induction l as [|[k v] l IH]; intros st.
  - destruct st; reflexivity.
  - cbn [foldl]. rewrite IH at 1.
    generalize (serviceRepeatCount (foldl decay_entry (decay_entry st (k, v)) l)).
    intros M. unfold any_zero in *. cbn [existsb snd].
    unfold decay_entry.
    destruct (0 <? v) eqn:E1.
    { assert ((v =? 0) = false) as -> by (apply Z.ltb_lt in E1; apply Z.eqb_neq; lia).
      simpl orb. destruct (existsb _ l); reflexivity. }
    destruct (v =? 0) eqn:E0.
    { apply Z.eqb_eq in E0. subst v. simpl orb.
      destruct (existsb _ l).
      - change (dropService 0
                  (set_serviceRepeatCount
                     (delete k (serviceRepeatCount (dropService 0 st)))
                     (dropService 0 st)))
          with (set_serviceRepeatCount
                  (delete k (serviceRepeatCount (dropService 0 st)))
                  (dropService 0 (dropService 0 st))).
        rewrite dropService_idem. reflexivity.
      - reflexivity. }
    simpl orb. destruct (existsb _ l); reflexivity.
Qed.

Lemma any_zero_lookup (m : gmap Z Z) (l : list (Z * Z)) :
  (l ≡ₚ map_to_list m) ->
  (any_zero l = true <-> exists k, m !! k = Some 0).
Proof.
  intros Hp. unfold any_zero. rewrite existsb_exists. split.
  - intros ([k v] & Hin & Hv). simpl in Hv. apply Z.eqb_eq in Hv. subst v.
    exists k. apply elem_of_map_to_list. rewrite <- Hp.
    apply list_elem_of_In. exact Hin.
  - intros (k & Hk). exists (k, 0). split; [|reflexivity].
    apply list_elem_of_In. rewrite Hp. apply elem_of_map_to_list. exact Hk.
Qed.

(** X2: the state after the decay pass is the same for every order [l]
    in which the entries are visited: every counter is [decayed] (a
    positive one decremented, a zero entry erased), and apart from the
    counters the state is that of [dropService(0)] when some counter was
    0, and unchanged otherwise. *)
Theorem decay_pass_any_order (st : State) (l : list (Z * Z)) :
  (l ≡ₚ map_to_list (serviceRepeatCount st)) ->
  foldl decay_entry st l = decay_pass st /\
  (forall k, serviceRepeatCount (decay_pass st) !! k
             = serviceRepeatCount st !! k ≫= decayed) /\
  (forall st', st' = set_serviceRepeatCount (serviceRepeatCount st) (decay_pass st) ->
     ((exists k, serviceRepeatCount st !! k = Some 0) -> st' = dropService 0 st) /\
     (~ (exists k, serviceRepeatCount st !! k = Some 0) -> st' = st)).
Proof.
  intros Hp.
  assert (Hcounters : forall l', (l' ≡ₚ map_to_list (serviceRepeatCount st)) ->
            forall k, serviceRepeatCount (foldl decay_entry st l') !! k
                      = serviceRepeatCount st !! k ≫= decayed).
  { intros l' Hp' k.
    rewrite (decay_fold_counters l').
    - destruct (decide (k ∈ l'.*1)) as [H|H]; [reflexivity|].
      destruct (serviceRepeatCount st !! k) as [v|] eqn:E; [|reflexivity].
      exfalso. apply H. apply list_elem_of_fmap. exists (k, v). split; [reflexivity|].
      rewrite Hp'. apply elem_of_map_to_list. exact E.
    - rewrite Hp'. apply NoDup_fst_map_to_list.
    - intros k' v' Hin. apply elem_of_map_to_list. rewrite <- Hp'. exact Hin. }
  assert (Hzero : forall l', (l' ≡ₚ map_to_list (serviceRepeatCount st)) ->
            (if any_zero l' then dropService 0 st else st)
            = (if any_zero (map_to_list (serviceRepeatCount st))
               then dropService 0 st else st)).
  { intros l' Hp'.
    destruct (any_zero l') eqn:E1;
      destruct (any_zero (map_to_list (serviceRepeatCount st))) eqn:E2;
      try reflexivity; exfalso.
    - apply (any_zero_lookup _ _ Hp') in E1.
      apply (any_zero_lookup (serviceRepeatCount st) _ (reflexivity _)) in E1.
      congruence.
    - apply (any_zero_lookup (serviceRepeatCount st) _ (reflexivity _)) in E2.
      apply (any_zero_lookup _ _ Hp') in E2. congruence. }
  split; [|split].
  - unfold decay_pass.
    rewrite (decay_fold_state l), (decay_fold_state (map_to_list _)).
    rewrite (Hzero l Hp). f_equal.
    apply map_eq. intros k.
    rewrite (Hcounters l Hp), (Hcounters _ (reflexivity _)). reflexivity.
  - apply Hcounters. reflexivity.
  - intros st' ->. unfold decay_pass. rewrite decay_fold_state.
    generalize (serviceRepeatCount
                  (foldl decay_entry st (map_to_list (serviceRepeatCount st)))).
    intros M.
    pose proof (any_zero_lookup (serviceRepeatCount st) _ (reflexivity _)) as Hz.
    destruct (any_zero (map_to_list (serviceRepeatCount st))).
    + split; [|intros Hn; exfalso; apply Hn, Hz; reflexivity].
      intros _. destruct st; reflexivity.
    + split; [intros He; apply Hz in He; discriminate|].
      intros _. destruct st; reflexivity.
Qed.

(** Two tracked services, visited in the other order. *)
Lemma decay_pass_any_order_witness :
  let st := (feed hdr0 (take 3 decay_run) st0).1 in
  map_to_list (serviceRepeatCount st) = [(0xA1B2, 1); (0xC3D4, 1)] /\
  foldl decay_entry st [(0xC3D4, 1); (0xA1B2, 1)] = decay_pass st.
Proof.
  cbv zeta.
  assert (E : map_to_list (serviceRepeatCount (feed hdr0 (take 3 decay_run) st0).1)
              = [(0xA1B2, 1); (0xC3D4, 1)]) by (vm_compute; reflexivity).
  split; [exact E|].
  refine (proj1 (decay_pass_any_order (feed hdr0 (take 3 decay_run) st0).1
                   [(0xC3D4, 1); (0xA1B2, 1)] _)).
  rewrite E. apply perm_swap.
Defined.

(** *** Sightings *)

(** [bind_components] writes [components] only. *)
Lemma bind_components_frame hdr d SId n :
  forall i lOffset st,
    let st' := (bind_components hdr d SId n i lOffset st).2 in
    services st' = services st /\ events st' = events st /\
    serviceRepeatCount st' = serviceRepeatCount st.
Proof.
  induction n as [|n IH]; intros i lOffset st; simpl; [repeat split|].
  match goal with
  | |- context [bind_components hdr d SId n (i + 1) (lOffset + 16) ?s] =>
    destruct (IH (i + 1) (lOffset + 16) s) as (H1 & H2 & H3);
    assert (Hs : services s = services st /\ events s = events st /\
                 serviceRepeatCount s = serviceRepeatCount st)
  end.
  { unfold bindAudioService, bindDataStreamService, bindPacketService.
    repeat match goal with
           | |- context [if ?b then _ else _] => destruct b
           | |- context [match findServiceId ?a ?b with _ => _ end] =>
             destruct (findServiceId a b) as [[? ?]|]
           end; repeat split. }
  destruct Hs as (Hs1 & Hs2 & Hs3).
  rewrite H1, H2, H3. repeat split; assumption.
Qed.

Lemma sighting_spec hdr SId st :
  let c := counter_of SId (serviceRepeatCount st) in
  let c' := if c <? 4 then c + 1 else c in
  let st' := sighting hdr SId st in
  serviceRepeatCount st' = <[SId := c']> (serviceRepeatCount st) /\
  ((SId ∉ service_ids st) /\ 2 <= c' ->
   services st' = services st ++ [Service_ctor hdr SId] /\
   events st' = events st ++ [onServiceDetected SId]) /\
  (~ ((SId ∉ service_ids st) /\ 2 <= c') ->
   services st' = services st /\ events st' = events st).
Proof.
  cbv zeta. unfold sighting.
  set (c := counter_of SId (serviceRepeatCount st)).
  set (m2 := if c <? 4 then <[SId:=c + 1]> (<[SId:=c]> (serviceRepeatCount st))
             else <[SId:=c]> (serviceRepeatCount st)).
  assert (Hm2 : m2 = <[SId := if c <? 4 then c + 1 else c]> (serviceRepeatCount st)).
  { unfold m2. destruct (c <? 4); [apply insert_insert_eq | reflexivity]. }
  assert (Hc2 : counter_of SId m2 = if c <? 4 then c + 1 else c).
  { rewrite Hm2. unfold counter_of. rewrite lookup_insert_eq. reflexivity. }
  rewrite Hc2.
  change (findServiceId SId (set_serviceRepeatCount m2 st))
    with (findServiceId SId st).
  destruct (bool_decide (findServiceId SId st = None)) eqn:Hf.
  - apply bool_decide_eq_true in Hf. apply findServiceId_None in Hf.
    destruct (2 <=? (if c <? 4 then c + 1 else c)) eqn:H2; simpl.
    + apply Z.leb_le in H2. split; [exact Hm2|]. split; [intros _; split; reflexivity|].
      intros Hn. exfalso. apply Hn. split; assumption.
    + apply Z.leb_gt in H2. split; [exact Hm2|]. split; [intros [_ H]; lia|].
      intros _. split; reflexivity.
  - apply bool_decide_eq_false in Hf. rewrite findServiceId_None in Hf. simpl.
    split; [exact Hm2|]. split; [intros [H _]; contradiction|].
    intros _. split; reflexivity.
Qed.

Lemma sighting_NoDup hdr SId st :
  NoDup (service_ids st) -> NoDup (service_ids (sighting hdr SId st)).
Proof.
  intros H. destruct (sighting_spec hdr SId st) as (_ & Hyes & Hno).
  set (c' := if counter_of SId (serviceRepeatCount st) <? 4
             then counter_of SId (serviceRepeatCount st) + 1
             else counter_of SId (serviceRepeatCount st)) in *.
  destruct (decide ((SId ∉ service_ids st) /\ 2 <= c')) as [Hd | Hd].
  - destruct (Hyes Hd) as [Hs _]. unfold service_ids in *. rewrite Hs, fmap_app.
    simpl. apply NoDup_app. repeat split; [exact H| |apply NoDup_singleton].
    intros x Hx Hx'. apply list_elem_of_singleton in Hx'. subst x.
    destruct Hd as [Hd _]. contradiction.
  - destruct (Hno Hd) as [Hs _]. unfold service_ids in *. rewrite Hs. exact H.
Qed.

Lemma HandleFIG0Extension2_step (hdr : Header) (clk : Clock) (d : bitvec)
    (offset cn pd : Z) (st : State) :
  let SId := (FIG0Extension2_SId d offset pd).1 in
  let st1 := decay clk st in
  let st' := (HandleFIG0Extension2 hdr clk d offset cn pd st).2 in
  let c := counter_of SId (serviceRepeatCount st1) in
  let c' := if c <? 4 then c + 1 else c in
  serviceRepeatCount st' = <[SId := c']> (serviceRepeatCount st1) /\
  (0 <= c <= 4 -> c' = Z.min (c + 1) 4 /\ 1 <= c' <= 4) /\
  ((SId ∉ service_ids st1) /\ 2 <= c' ->
   services st' = services st1 ++ [Service_ctor hdr SId] /\
   events st' = events st ++ [onServiceDetected SId]) /\
  (~ ((SId ∉ service_ids st1) /\ 2 <= c') ->
   services st' = services st1 /\ events st' = events st) /\
  (NoDup (service_ids st) -> NoDup (service_ids st')) /\
  ((forall k v, serviceRepeatCount st !! k = Some v -> 0 <= v <= 4) ->
   forall k v, serviceRepeatCount st' !! k = Some v -> 0 <= v <= 4).
Proof.
  cbv zeta. unfold HandleFIG0Extension2.
  destruct (FIG0Extension2_SId d offset pd) as [SId lOffset]. simpl fst.
  pose proof (bind_components_frame hdr d SId
                (Z.to_nat (getBits_4 d (lOffset + 4))) 0 (lOffset + 8)
                (sighting hdr SId (decay clk st))) as Hb.
  cbv zeta in Hb.
  destruct (bind_components _ _ _ _ _ _ _) as [lOffset' st3].
  simpl in Hb |- *. destruct Hb as (Hb1 & Hb2 & Hb3).
  destruct (sighting_spec hdr SId (decay clk st)) as (Hm & Hyes & Hno).
  rewrite (decay_events clk st) in Hyes, Hno.
  rewrite Hb1, Hb2, Hb3.
  split; [exact Hm|]. split.
  { intros Hc. destruct (counter_of SId (serviceRepeatCount (decay clk st)) <? 4) eqn:E.
    - apply Z.ltb_lt in E. lia.
    - apply Z.ltb_ge in E. lia. }
  split; [exact Hyes|]. split; [exact Hno|].
  split.
  { intros Hnd. unfold service_ids. rewrite Hb1.
    apply sighting_NoDup, decay_NoDup, Hnd. }
  intros Hbound k v. rewrite Hm.
  pose proof (decay_bounded clk st Hbound) as Hd.
  assert (Hc : 0 <= counter_of SId (serviceRepeatCount (decay clk st)) <= 4).
  { unfold counter_of.
    destruct (serviceRepeatCount (decay clk st) !! SId) as [v0|] eqn:E; simpl;
      [exact (Hd SId v0 E) | lia]. }
  destruct (decide (k = SId)) as [-> | Hne].
  - rewrite lookup_insert_eq. intros [= <-].
    destruct (counter_of SId (serviceRepeatCount (decay clk st)) <? 4) eqn:E.
    + apply Z.ltb_lt in E. lia.
    + lia.
  - rewrite lookup_insert_ne by congruence. apply Hd.
Qed.

(** While a service remains in the collection, the records that follow
    send no notification for it. *)
Lemma handle_records_quiet hdr X rs :
  forall st,
    remains hdr X rs st ->
    exists new, events (handle_records hdr rs st) = events st ++ new /\
                onServiceDetected X ∉ new.
Proof.
  induction rs as [|r rs IH]; intros st Hrem.
  - exists []. split; [symmetry; apply app_nil_r | apply not_elem_of_nil].
  - destruct Hrem as [Hin Hrem].
    destruct (IH _ Hrem) as (new & Hev & Hnew).
    pose proof (HandleFIG0Extension2_step hdr (rec_clk r) (rec_d r) (rec_offset r)
                  (rec_cn r) (rec_pd r) st) as Hstep.
    cbv zeta in Hstep. destruct Hstep as (_ & _ & Hyes & Hno & _).
    fold (handle_record hdr r st) in Hyes, Hno.
    set (SId := (FIG0Extension2_SId (rec_d r) (rec_offset r) (rec_pd r)).1) in *.
    set (c' := if counter_of SId (serviceRepeatCount (decay (rec_clk r) st)) <? 4
               then counter_of SId (serviceRepeatCount (decay (rec_clk r) st)) + 1
               else counter_of SId (serviceRepeatCount (decay (rec_clk r) st))) in *.
    change (handle_records hdr (r :: rs) st)
      with (handle_records hdr rs (handle_record hdr r st)).
    destruct (decide ((SId ∉ service_ids (decay (rec_clk r) st)) /\ 2 <= c'))
      as [Hd | Hd].
    + destruct (Hyes Hd) as [_ He]. rewrite He in Hev.
      exists ([onServiceDetected SId] ++ new). split.
      * rewrite Hev, <- app_assoc. reflexivity.
      * intros Hx. apply elem_of_app in Hx as [Hx | Hx]; [|contradiction].
        apply list_elem_of_singleton in Hx. injection Hx as ->.
        destruct Hd as [Hd _]. contradiction.
    + destruct (Hno Hd) as [_ He]. rewrite He in Hev.
      exists new. split; assumption.
Qed.

(** C2: one FIG 0/2 record for service [SId], after the decay block has
    run ([st1]): the counter of [SId] (0 when untracked) is incremented
    unless it is 4 already, so it stays at most 4.  Exactly when no
    service with that id exists and the counter has reached at least 2, a
    [Service] row for [SId] is appended and [onServiceDetected(SId)] is
    called once; in every other case (in particular while the service is
    in the collection) no row is added and no notification is sent.  The
    collection never holds two services with the same id, and the
    counters stay within 0..4.  Through any FIG 0/2 records that follow,
    as long as the service remains in the collection, no further
    notification for it is sent: it fires exactly once. *)
Theorem HandleFIG0Extension2_confirms (hdr : Header) (clk : Clock) (d : bitvec)
    (offset cn pd : Z) (st : State) :
  let SId := (FIG0Extension2_SId d offset pd).1 in
  let st1 := decay clk st in
  let st' := (HandleFIG0Extension2 hdr clk d offset cn pd st).2 in
  let c := counter_of SId (serviceRepeatCount st1) in
  let c' := if c <? 4 then c + 1 else c in
  serviceRepeatCount st' = <[SId := c']> (serviceRepeatCount st1) /\
  (0 <= c <= 4 -> c' = Z.min (c + 1) 4 /\ 1 <= c' <= 4) /\
  ((SId ∉ service_ids st1) /\ 2 <= c' ->
   services st' = services st1 ++ [Service_ctor hdr SId] /\
   events st' = events st ++ [onServiceDetected SId]) /\
  (~ ((SId ∉ service_ids st1) /\ 2 <= c') ->
   services st' = services st1 /\ events st' = events st) /\
  (NoDup (service_ids st) -> NoDup (service_ids st')) /\
  ((forall k v, serviceRepeatCount st !! k = Some v -> 0 <= v <= 4) ->
   forall k v, serviceRepeatCount st' !! k = Some v -> 0 <= v <= 4) /\
  (forall rs, remains hdr SId rs st' ->
     exists new, events (handle_records hdr rs st') = events st' ++ new /\
                 onServiceDetected SId ∉ new).
Proof.
  pose proof (HandleFIG0Extension2_step hdr clk d offset cn pd st) as H.
  cbv zeta in H |- *. destruct H as (H1 & H2 & H3 & H4 & H5 & H6).
  repeat (split; [assumption|]).
  intros rs. apply handle_records_quiet.
Qed.

(** *** The decay pass on a service that is no longer seen *)

(** C1 (the code on [decay_run]): service [0xA1B2] is confirmed and then
    not seen again.  The first pass takes its counter from 2 to 1, the
    second to 0: the entry is still tracked and the service is still in
    the collection.  The third pass erases the entry, but the service,
    its component and the subchannel the component uses are all still
    there: the pass has called [dropService] with the counter value 0,
    not with the service id. *)
Theorem decay_run_keeps_service :
  let after (n : nat) := (feed hdr0 (take n decay_run) st0).1 in
  (serviceRepeatCount (after 2%nat) !! 0xA1B2 = Some 2 /\
   service_ids (after 2%nat) = [0xA1B2] /\
   events (after 2%nat) = [onServiceDetected 0xA1B2]) /\
  serviceRepeatCount (after 3%nat) !! 0xA1B2 = Some 1 /\
  (serviceRepeatCount (after 4%nat) !! 0xA1B2 = Some 0 /\
   service_ids (after 4%nat) = [0xA1B2]) /\
  (serviceRepeatCount (after 5%nat) !! 0xA1B2 = None /\
   service_ids (after 5%nat) = [0xA1B2] /\
   component_keys (after 5%nat) = [(0xA1B2, 0)] /\
   sub_subChId <$> subChannels (after 5%nat) !! 5%nat = Some 5).
Proof. cbv zeta. repeat split; vm_compute; reflexivity. Qed.

(** ** Extended labels (FIG 2) and exceptions *)

(** The label as it is when the exception is thrown. *)
Lemma handle_throw_label (label : DabLabel) (toggle_flag b : Z) :
  let label1 :=
    if bool_decide (lbl_toggle_flag label <> toggle_flag) then
      mkDabLabel (lbl_fig1_label label) (lbl_fig1_flag label) (lbl_charset label)
        toggle_flag ∅ Undefined (lbl_segment_count label) (lbl_fig2_rfu label)
    else label in
  let label2 :=
    mkDabLabel (lbl_fig1_label label1) (lbl_fig1_flag label1)
      (lbl_charset label1) (lbl_toggle_flag label1) (lbl_segments label1)
      (if Z.shiftr (Z.land b 128) 7 =? 0 then UnicodeUtf8 else UnicodeUcs2)
      (Z.shiftr (Z.land b 112) 4 + 1) (lbl_fig2_rfu label1) in
  lbl_toggle_flag label2 = toggle_flag /\
  lbl_segment_count label2 = Z.shiftr (Z.land b 112) 4 + 1 /\
  lbl_extended_label_charset label2 <> Undefined /\
  lbl_segments label2 =
    if bool_decide (lbl_toggle_flag label <> toggle_flag) then ∅
    else lbl_segments label.
Proof.
  cbv zeta. simpl.
  split; [|split; [reflexivity|split; [destruct (_ =? 0); discriminate|]]].
  - case_bool_decide as Ht; [reflexivity|].
    destruct (decide (lbl_toggle_flag label = toggle_flag)); [assumption|contradiction].
  - case_bool_decide; reflexivity.
Qed.

Lemma handle_ext_label_throws fig_bytes f len_bytes toggle_flag segment_index rfu
    label :
  let r := handle_ext_label_data_field fig_bytes f len_bytes toggle_flag
             segment_index rfu label in
  (r.2 = Some runtime_error <->
   segment_index = 0 /\ ((rfu = 0 /\ len_bytes <= 3) \/ (rfu <> 0 /\ len_bytes <= 1))) /\
  (r.2 = None \/ r.2 = Some runtime_error) /\
  (r.2 = Some runtime_error ->
   lbl_toggle_flag r.1 = toggle_flag /\
   lbl_segment_count r.1 = Z.shiftr (Z.land (byte_at fig_bytes f 0) 112) 4 + 1 /\
   lbl_extended_label_charset r.1 <> Undefined /\
   lbl_segments r.1 =
     if bool_decide (lbl_toggle_flag label <> toggle_flag) then ∅
     else lbl_segments label).
Proof.
  cbv zeta. unfold handle_ext_label_data_field.
  destruct (segment_index =? 0) eqn:Es.
  - apply Z.eqb_eq in Es.
    destruct (rfu =? 0) eqn:Er.
    + apply Z.eqb_eq in Er.
      destruct (len_bytes <=? 3) eqn:El; simpl.
      * apply Z.leb_le in El. split; [split; [intros _|reflexivity]; lia|].
        split; [right; reflexivity|]. intros _.
        apply handle_throw_label.
      * apply Z.leb_gt in El. split; [split; [discriminate|lia]|].
        split; [left; reflexivity | discriminate].
    + apply Z.eqb_neq in Er.
      destruct (len_bytes <=? 1) eqn:El; simpl.
      * apply Z.leb_le in El. split; [split; [intros _|reflexivity]; lia|].
        split; [right; reflexivity|]. intros _.
        apply handle_throw_label.
      * apply Z.leb_gt in El. split; [split; [discriminate|lia]|].
        split; [left; reflexivity | discriminate].
  - apply Z.eqb_neq in Es. simpl.
    split; [split; [discriminate|lia]|]. split; [left; reflexivity | discriminate].
Qed.

Lemma process_FIG2_exn d st e :
  (process_FIG2 d st).2 = Some e -> e = runtime_error.
Proof.
  unfold process_FIG2.
  repeat match goal with
         | |- context [if ?b then _ else _] => destruct b
         | |- context [match findServiceId ?a ?b with _ => _ end] =>
           destruct (findServiceId a b) as [[? ?]|]
         | |- context [match findComponent ?a ?b ?c with _ => _ end] =>
           destruct (findComponent a b c) as [[? ?]|]
         end; simpl; try discriminate;
  match goal with
  | |- context [handle_ext_label_data_field ?a ?b ?c ?d ?e ?f ?g] =>
    destruct (handle_ext_label_throws a b c d e f g) as (_ & [H | H] & _);
    destruct (handle_ext_label_data_field a b c d e f g) as [l o];
    simpl in H |- *; subst o; congruence
  end.
Qed.

Lemma processFIB_loop_exn hdr clk p fuel :
  forall processedBytes st e,
    (processFIB_loop hdr clk fuel p processedBytes st).2 = Some e ->
    e = runtime_error.
Proof.
  induction fuel as [|fuel IH]; intros pb st e; simpl; [discriminate|].
  destruct (pb <? 30); [|discriminate].
  unfold dispatch_FIG.
  destruct (_ =? 0); [apply IH|]. destruct (_ =? 1); [apply IH|].
  destruct (_ =? 2).
  { pose proof (process_FIG2_exn (advance p (pb * 8)) st) as H2.
    destruct (process_FIG2 (advance p (pb * 8)) st) as [st' [e'|]]; simpl in *.
    - intros [= <-]. apply H2. reflexivity.
    - apply IH. }
  destruct (_ =? 6); [discriminate|]. destruct (_ =? 7); [discriminate|].
  apply IH.
Qed.

(** A FIG 2 that is too short to hold its identifier is skipped. *)
Lemma process_FIG2_too_short d st :
  Z.land (getBits_8 d 0) 31 <= 3 -> process_FIG2 d st = (st, None).
Proof.
  intros H. unfold process_FIG2.
  change (byte_at (read_bytes d 0 30) 0 0) with (getBits_8 d (0 + Z.of_nat 0 * 8)).
  change (0 + Z.of_nat 0 * 8) with 0.
  set (figlen := Z.land (getBits_8 d 0) 31) in *.
  destruct (_ =? 0).
  { destruct (figlen <=? 1 + 2) eqn:E; [reflexivity|]. apply Z.leb_gt in E. lia. }
  destruct (_ =? 1).
  { destruct (figlen <=? 1 + 2) eqn:E; [reflexivity|]. apply Z.leb_gt in E. lia. }
  destruct (_ =? 4).
  { destruct (_ =? 0).
    - destruct (figlen <=? 1 + 3) eqn:E; [reflexivity|]. apply Z.leb_gt in E. lia.
    - destruct (figlen <=? 1 + 5) eqn:E; [reflexivity|]. apply Z.leb_gt in E. lia. }
  destruct (_ =? 5); [|reflexivity].
  destruct (figlen <=? 1 + 4) eqn:E; [reflexivity|]. apply Z.leb_gt in E. lia.
Qed.

(** [process_FIG2] through the label the FIG is for. *)
Lemma process_FIG2_form (d : bitvec) (st : State) :
  process_FIG2 d st =
  match FIG2_label d st with
  | Some (identifier_len, label) =>
    if FIG2_figlen d <=? 1 + identifier_len then (st, None)
    else
      let r := handle_ext_label_data_field (read_bytes d 0 30)
                 (1 + Z.to_nat 1 + Z.to_nat identifier_len)
                 (uint8 (size_t_of (FIG2_figlen d - 1 - identifier_len)))
                 (FIG2_toggle_flag d) (FIG2_segment_index d) (FIG2_rfu d) label in
      (FIG2_store d st r.1, r.2)
  | None => (st, None)
  end.
Proof.
  unfold process_FIG2, FIG2_label, FIG2_store, FIG2_figlen, FIG2_toggle_flag,
    FIG2_segment_index, FIG2_rfu.
  cbv zeta.
  repeat match goal with
         | |- context [if ?a =? ?b then _ else _] => destruct (a =? b)
         | |- context [match findServiceId ?a ?b with _ => _ end] =>
           destruct (findServiceId a b) as [[? ?]|]
         | |- context [match findComponent ?a ?b ?c with _ => _ end] =>
           destruct (findComponent a b c) as [[? ?]|]
         | |- context [if ?a <=? ?b then _ else _] => destruct (a <=? b)
         | |- context [let '(_, _) := ?x in _] => destruct x
         end; reflexivity.
Qed.

Lemma FIG2_figlen_range (d : bitvec) : 0 <= FIG2_figlen d <= 31.
Proof.
  unfold FIG2_figlen. generalize (byte_at (read_bytes d 0 30) 0 0). intros x.
  pose proof (Z.land_ones x 5 ltac:(lia)) as H.
  change (Z.ones 5) with 31 in H. change (2 ^ 5) with 32 in H. rewrite H.
  pose proof (Z.mod_pos_bound x 32 ltac:(lia)). lia.
Qed.

Lemma FIG2_label_identifier (d : bitvec) (st : State) identifier_len label :
  FIG2_label d st = Some (identifier_len, label) -> 2 <= identifier_len <= 5.
Proof.
  unfold FIG2_label. cbv zeta.
  repeat match goal with
         | |- context [if ?a =? ?b then _ else _] => destruct (a =? b)
         | |- context [match findServiceId ?a ?b with _ => _ end] =>
           destruct (findServiceId a b) as [[? ?]|]
         | |- context [match findComponent ?a ?b ?c with _ => _ end] =>
           destruct (findComponent a b c) as [[? ?]|]
         end; intros [= <- _] || discriminate; lia.
Qed.

(** The length handed to the label handler is the rest of the FIG. *)
Lemma FIG2_len_bytes (d : bitvec) (identifier_len : Z) :
  2 <= identifier_len <= 5 -> 1 + identifier_len < FIG2_figlen d ->
  uint8 (size_t_of (FIG2_figlen d - 1 - identifier_len))
  = FIG2_figlen d - 1 - identifier_len.
Proof.
  intros Hi Hl. pose proof (FIG2_figlen_range d).
  unfold uint8, size_t_of.
  rewrite (Z.mod_small _ (2 ^ 64)) by lia. apply Z.mod_small. lia.
Qed.

(** When [process_FIG2] throws. *)
Lemma process_FIG2_refused (d : bitvec) (st : State) :
  (process_FIG2 d st).2 = Some runtime_error <-> FIG2_refused d st.
Proof.
  rewrite process_FIG2_form. unfold FIG2_refused.
  destruct (FIG2_label d st) as [[identifier_len label]|] eqn:El;
    [|split; [discriminate|intros []]].
  pose proof (FIG2_label_identifier d st _ _ El) as Hi.
  cbv zeta.
  destruct (FIG2_figlen d <=? 1 + identifier_len) eqn:E.
  { apply Z.leb_le in E. cbn [snd]. split; [discriminate|lia]. }
  apply Z.leb_gt in E. cbn [snd].
  rewrite (FIG2_len_bytes d identifier_len Hi E).
  match goal with
  | |- context [handle_ext_label_data_field ?a ?b ?c ?t ?i ?r ?l] =>
    destruct (handle_ext_label_throws a b c t i r l) as (Hiff & _)
  end.
  cbv zeta in Hiff. rewrite Hiff. split; [intros H; split; [lia|exact H]|tauto].
Qed.

(** What [process_FIG2] leaves behind when it throws. *)
Lemma process_FIG2_refused_state (d : bitvec) (st : State) :
  FIG2_refused d st ->
  exists identifier_len label l,
    FIG2_label d st = Some (identifier_len, label) /\
    process_FIG2 d st = (FIG2_store d st l, Some runtime_error) /\
    lbl_toggle_flag l = FIG2_toggle_flag d /\
    lbl_segment_count l
    = Z.shiftr (Z.land (byte_at (read_bytes d 0 30)
                          (1 + Z.to_nat 1 + Z.to_nat identifier_len) 0) 112) 4 + 1 /\
    lbl_extended_label_charset l <> Undefined /\
    lbl_segments l =
      if bool_decide (lbl_toggle_flag label <> FIG2_toggle_flag d) then ∅
      else lbl_segments label.
Proof.
  intros Hr. pose proof (proj2 (process_FIG2_refused d st) Hr) as He.
  rewrite process_FIG2_form in He |- *. unfold FIG2_refused in Hr.
  destruct (FIG2_label d st) as [[identifier_len label]|] eqn:El; [|destruct Hr].
  cbv zeta in Hr. destruct Hr as (Hlen & _).
  destruct (FIG2_figlen d <=? 1 + identifier_len) eqn:E.
  { apply Z.leb_le in E. lia. }
  cbv zeta in He |- *. cbn [snd] in He.
  match type of He with
  | context [handle_ext_label_data_field ?a ?b ?c ?t ?i ?r ?lab] =>
    destruct (handle_ext_label_throws a b c t i r lab) as (_ & _ & Hst);
    cbv zeta in Hst; specialize (Hst He);
    exists identifier_len, label, (handle_ext_label_data_field a b c t i r lab).1
  end.
  split; [reflexivity|]. split; [rewrite He; reflexivity|]. exact Hst.
Qed.

(** A run of handlers up to the FIG at the [i]-th offset. *)
Lemma handle_along_at hdr clk p (l : list Z) (i : nat) (a : Z) st st_a :
  l !! i = Some a ->
  handle_along hdr clk p (take i l) st = (st_a, None) ->
  handle_along hdr clk p l st =
  match handle_FIG hdr clk (advance p (a * 8)) st_a with
  | (st', None) => handle_along hdr clk p (drop (S i) l) st'
  | (st', Some e) => (st', Some e)
  end.
Proof.
  intros Hi Hpre. rewrite <- (take_drop_middle l i a Hi) at 1.
  rewrite handle_along_app, Hpre. reflexivity.
Qed.

(** A run of handlers that fails has come through the FIGs in front of
    the one whose handler threw. *)
Lemma handle_along_throws hdr clk p (l : list Z) :
  forall st st' e,
    handle_along hdr clk p l st = (st', Some e) ->
    exists (i : nat) a st_a,
      l !! i = Some a /\
      handle_along hdr clk p (take i l) st = (st_a, None) /\
      handle_FIG hdr clk (advance p (a * 8)) st_a = (st', Some e).
Proof.
  induction l as [|a l IH]; intros st st' e H; [discriminate|].
  cbn [handle_along] in H.
  destruct (handle_FIG hdr clk (advance p (a * 8)) st) as [s1 [e1|]] eqn:Eh.
  - exists 0%nat, a, st. split; [reflexivity|]. split; [reflexivity|].
    rewrite Eh. exact H.
  - destruct (IH s1 st' e H) as (i & a' & st_a & Hi & Hpre & Hh).
    exists (S i), a', st_a. split; [exact Hi|]. split; [|exact Hh].
    cbn [take handle_along]. rewrite Eh. exact Hpre.
Qed.

Lemma handle_FIG_throws hdr clk d st st' e :
  handle_FIG hdr clk d st = (st', Some e) ->
  getBits_3 d 0 = 2 /\ process_FIG2 d st = (st', Some e).
Proof.
  unfold handle_FIG.
  destruct (getBits_3 d 0 =? 0); [discriminate|].
  destruct (getBits_3 d 0 =? 1); [discriminate|].
  destruct (getBits_3 d 0 =? 2) eqn:E2; [|discriminate].
  apply Z.eqb_eq in E2. auto.
Qed.

Lemma handle_FIG_2 hdr clk d st :
  getBits_3 d 0 = 2 -> handle_FIG hdr clk d st = process_FIG2 d st.
Proof. unfold handle_FIG. intros ->. reflexivity. Qed.

(** C3 (as amended): for segment 0 of a FIG 2 label,
    [handle_ext_label_data_field] throws exactly when the declared length
    of the data field is at most the header overhead of the path taken
    (at most 3 with [rfu] 0, at most 1 otherwise); it has set the toggle
    flag, character set and segment count by then but stores no segment.
    Neither [process_FIG2] nor [processFIB] catches the exception:
    [process_FIG2] throws exactly for a FIG 2 that is for a label of the
    store, is segment 0 and has such a data field, and has then written
    the label with the new toggle flag, character set and segment count
    to the store; and when the handlers of the FIGs in front of such a
    FIG have returned, [processFIB] ends at that FIG with the state
    reached there, the remaining FIGs of the FIB are not processed and
    the exception reaches the caller.  This [runtime_error] is the only
    way in which a [processFIB] call fails, and it fails only at such a
    FIG; a FIG 2 too short for its identifier is skipped without an
    error. *)
Theorem FIG2_short_label_throws :
  (forall fig_bytes f len_bytes toggle_flag segment_index rfu label,
     let r := handle_ext_label_data_field fig_bytes f len_bytes toggle_flag
                segment_index rfu label in
     (r.2 = Some runtime_error <->
      segment_index = 0 /\
      ((rfu = 0 /\ len_bytes <= 3) \/ (rfu <> 0 /\ len_bytes <= 1))) /\
     (r.2 = None \/ r.2 = Some runtime_error) /\
     (r.2 = Some runtime_error ->
      lbl_toggle_flag r.1 = toggle_flag /\
      lbl_segment_count r.1
        = Z.shiftr (Z.land (byte_at fig_bytes f 0) 112) 4 + 1 /\
      lbl_extended_label_charset r.1 <> Undefined /\
      lbl_segments r.1 =
        if bool_decide (lbl_toggle_flag label <> toggle_flag) then ∅
        else lbl_segments label)) /\
  (forall hdr clk p fuel processedBytes st st' e,
     processedBytes < 30 ->
     getBits_3 (advance p (processedBytes * 8)) 0 = 2 ->
     process_FIG2 (advance p (processedBytes * 8)) st = (st', Some e) ->
     processFIB_loop hdr clk (S fuel) p processedBytes st = (st', Some e)) /\
  (forall hdr clk p fib st e,
     (processFIB hdr clk p fib st).2 = Some e -> e = runtime_error) /\
  (forall d st,
     Z.land (getBits_8 d 0) 31 <= 3 -> process_FIG2 d st = (st, None)) /\
  (forall d st,
     (process_FIG2 d st).2 = Some runtime_error <-> FIG2_refused d st) /\
  (forall d st,
     FIG2_refused d st ->
     exists identifier_len label l,
       FIG2_label d st = Some (identifier_len, label) /\
       process_FIG2 d st = (FIG2_store d st l, Some runtime_error) /\
       lbl_toggle_flag l = FIG2_toggle_flag d /\
       lbl_segment_count l
       = Z.shiftr (Z.land (byte_at (read_bytes d 0 30)
                             (1 + Z.to_nat 1 + Z.to_nat identifier_len) 0) 112) 4
         + 1 /\
       lbl_extended_label_charset l <> Undefined /\
       lbl_segments l =
         if bool_decide (lbl_toggle_flag label <> FIG2_toggle_flag d) then ∅
         else lbl_segments label) /\
  (forall hdr clk p fib st (i : nat) a st_a,
     FIG_offsets p !! i = Some a ->
     handle_along hdr clk p (take i (FIG_offsets p)) st = (st_a, None) ->
     FIGtype_at p a = 2 ->
     FIG2_refused (advance p (a * 8)) st_a ->
     processFIB hdr clk p fib st
     = ((process_FIG2 (advance p (a * 8)) st_a).1, Some runtime_error)) /\
  (forall hdr clk p fib st st' e,
     processFIB hdr clk p fib st = (st', Some e) ->
     e = runtime_error /\
     exists (i : nat) a st_a,
       FIG_offsets p !! i = Some a /\
       handle_along hdr clk p (take i (FIG_offsets p)) st = (st_a, None) /\
       FIGtype_at p a = 2 /\
       FIG2_refused (advance p (a * 8)) st_a /\
       st' = (process_FIG2 (advance p (a * 8)) st_a).1).
Proof.
  split; [exact handle_ext_label_throws|].
  split; [|split; [|split; [exact process_FIG2_too_short|]]].
  - intros hdr clk p fuel pb st st' e Hlt Ht H2. simpl.
    apply Z.ltb_lt in Hlt. rewrite Hlt.
    unfold dispatch_FIG. rewrite Ht, H2. reflexivity.
  - intros hdr clk p fib st e. apply processFIB_loop_exn.
  - split; [exact process_FIG2_refused|].
    split; [exact process_FIG2_refused_state|]. split.
    + intros hdr clk p fib st i a st_a Hi Hpre Ht Hr.
      rewrite processFIB_handle_along.
      rewrite (handle_along_at hdr clk p (FIG_offsets p) i a st st_a Hi Hpre).
      rewrite (handle_FIG_2 hdr clk (advance p (a * 8)) st_a Ht).
      pose proof (proj2 (process_FIG2_refused (advance p (a * 8)) st_a) Hr) as He.
      destruct (process_FIG2 (advance p (a * 8)) st_a) as [s' o].
      cbn [fst snd] in He |- *. rewrite He. reflexivity.
    + intros hdr clk p fib st st' e H.
      rewrite processFIB_handle_along in H.
      destruct (handle_along_throws hdr clk p (FIG_offsets p) st st' e H)
        as (i & a & st_a & Hi & Hpre & Hh).
      apply handle_FIG_throws in Hh as [Ht H2].
      assert (He : e = runtime_error).
      { apply (process_FIG2_exn (advance p (a * 8)) st_a). rewrite H2. reflexivity. }
      subst e. split; [reflexivity|].
      exists i, a, st_a. split; [exact Hi|]. split; [exact Hpre|].
      split; [exact Ht|]. split; [|rewrite H2; reflexivity].
      apply process_FIG2_refused. rewrite H2. reflexivity.
Qed.

(** A FIB in which the label field of a FIG 2 is shorter than the header:
    the FIG 2 at byte offset 6 is refused in the state the FIG in front
    of it leaves, the FIG 0/0 behind it is not processed, and the call
    fails. *)
Lemma processFIB_FIG2_counterexample :
  let r := processFIB hdr0 clk0 fib_short_label 0 st0 in
  let pre := handle_along hdr0 clk0 fib_short_label [0] st0 in
  FIG_offsets fib_short_label = [0; 6; 11; 17] /\
  FIGtype_at fib_short_label 6 = 2 /\
  (FIGtype_at fib_short_label 11 = 0 /\ getBits fib_short_label (11 * 8 + 16) 16 = 0x5678) /\
  r.2 = Some runtime_error /\
  ensembleId r.1 = 0x1234 /\
  events r.1 = [onNewEnsemble 0x1234] /\
  pre.2 = None /\
  FIG2_refused (advance fib_short_label (6 * 8)) pre.1.
Proof.
  cbv zeta.
  split; [vm_compute; reflexivity|]. split; [vm_compute; reflexivity|].
  split; [split; vm_compute; reflexivity|].
  split; [vm_compute; reflexivity|]. split; [vm_compute; reflexivity|].
  split; [vm_compute; reflexivity|]. split; [vm_compute; reflexivity|].
  vm_compute.
  split; [reflexivity|]. split; [reflexivity|].
  left. split; [reflexivity|discriminate].
Qed.

(** ** Reset *)

(** C4 (as amended): after any call of [clearEnsemble] the service and
    component collections and the debounce tracking are empty, so the
    service list is empty, [getService] returns the sentinel [Service(0)]
    and [getComponents] returns nothing; the subchannel table holds
    exactly 64 entries; the entries the call creates are in the invalid
    state, which are all 64 when the table was empty before (the call of
    the constructor); and both timers hold the clock readings of the
    call. *)
Theorem clearEnsemble_reset (hdr : Header) (clk : Clock) (st : State) :
  let st' := clearEnsemble clk st in
  getServiceList st' = [] /\
  (forall sId, getService hdr sId st' = Service_ctor hdr 0) /\
  (forall s, getComponents s st' = []) /\
  components st' = [] /\
  serviceRepeatCount st' = ∅ /\
  length (subChannels st') = 64%nat /\
  (forall i : nat, (length (subChannels st) <= i < 64)%nat ->
     subChannels st' !! i = Some Subchannel_init) /\
  (subChannels st = [] ->
   forall sub, sub ∈ subChannels st' -> ~ sub_valid sub) /\
  ~ sub_valid Subchannel_init /\
  timeLastServiceDecrement st' = steady_now clk /\
  timeLastFCT0Frame st' = system_now clk.
Proof.
  cbv zeta. unfold clearEnsemble, getServiceList, getService, getComponents. simpl.
  assert (Hinv : ~ sub_valid Subchannel_init) by (intros H; apply H; reflexivity).
  repeat split; try exact Hinv.
  - apply length_resize.
  - intros i [Hi1 Hi2].
    rewrite lookup_resize_new; [reflexivity | lia | lia].
  - intros Hnil sub Hsub. rewrite Hnil in Hsub.
    rewrite resize_nil in Hsub. apply elem_of_replicate in Hsub as [-> _]. exact Hinv.
Qed.

(** A second call, after a FIB has set the ensemble id and defined
    subchannel 5: the slot is still valid and [getEnsembleId] still
    returns the id. *)
Lemma clearEnsemble_counterexample :
  let st1 := (processFIB hdr0 clk0 fib_subch 0 st0).1 in
  let st2 := clearEnsemble (clk_ms 5000) st1 in
  length (subChannels st2) = 64%nat /\
  sub_subChId <$> subChannels st2 !! 5%nat = Some 5 /\
  getEnsembleId st0 = 0 /\
  getEnsembleId st2 = 0x1234.
Proof. cbv zeta. repeat split; vm_compute; reflexivity. Qed.

(** ** The loops of the handlers end before their fuel

    Each record advances the offset, which starts at byte 2, by at least
    one byte towards the 5-bit length of the FIG; [loop_fuel] rounds are
    therefore never used up, and more rounds give the same result. *)

Lemma quot8 (u x k : Z) : 0 <= u -> 0 <= k -> x = k * 8 -> (u * 8 + x) ÷ 8 = u + k.
Proof.
  intros Hu Hk ->. replace (u * 8 + k * 8) with ((u + k) * 8) by lia.
  apply Z.quot_mul. lia.
Qed.

Lemma quot8_ge (u x : Z) : 0 <= u -> u * 8 + 8 <= x -> u < x ÷ 8.
Proof.
  intros Hu Hx. rewrite Z.quot_div_nonneg by lia.
  apply (Z.lt_le_trans _ ((u * 8 + 8) / 8)).
  - replace (u * 8 + 8) with ((u + 1) * 8) by lia. rewrite Z.div_mul by lia. lia.
  - apply Z.div_le_mono; lia.
Qed.

Lemma bind_components_offset hdr d SId n :
  forall i lOffset st,
    (bind_components hdr d SId n i lOffset st).1 = lOffset + 16 * Z.of_nat n.
Proof.
  induction n as [|n IH]; intros i lOffset st.
  - cbn [bind_components fst]. lia.
  - cbn [bind_components]. rewrite IH. lia.
Qed.

Lemma user_applications_offset d n :
  forall bitOffset st,
    0 <= bitOffset ->
    bitOffset + 264 * Z.of_nat n < 65536 ->
    bitOffset <= (user_applications d n bitOffset st).1.
Proof.
  induction n as [|n IH]; intros bitOffset st H0 Hmax.
  - cbn [user_applications fst]. lia.
  - cbn [user_applications].
    pose proof (getBits_5_range d (bitOffset + 11)) as Hl.
    assert (Hw : uint16 (bitOffset + 11 + 5 + 8 * getBits_5 d (bitOffset + 11))
                 = bitOffset + 11 + 5 + 8 * getBits_5 d (bitOffset + 11)).
    { unfold uint16. apply Z.mod_small. lia. }
    rewrite Hw.
    match goal with
    | |- _ <= (user_applications d n ?b ?s).1 =>
      specialize (IH b s ltac:(lia) ltac:(lia))
    end. lia.
Qed.

Lemma HandleFIG0Extension1_progress hdr d used pd st :
  0 <= used -> used < (HandleFIG0Extension1 hdr d used pd st).1.
Proof.
  intros Hu. unfold HandleFIG0Extension1.
  destruct (_ =? 0); cbn [fst].
  - rewrite (quot8 used 24 3) by lia. lia.
  - rewrite (quot8 used 32 4) by lia. lia.
Qed.

Lemma HandleFIG0Extension2_progress hdr clk d used cn pd st :
  0 <= used -> used < (HandleFIG0Extension2 hdr clk d used cn pd st).1.
Proof.
  intros Hu. unfold HandleFIG0Extension2.
  assert (Hs : 8 * used + 16 <= (FIG0Extension2_SId d used pd).2).
  { unfold FIG0Extension2_SId. destruct (pd =? 1); cbn [snd]; lia. }
  destruct (FIG0Extension2_SId d used pd) as [SId lOffset]. cbn [snd] in Hs.
  match goal with
  | |- context [bind_components ?a ?b ?c ?n ?i ?o ?s'] =>
    pose proof (bind_components_offset a b c n i o s') as Hb;
    destruct (bind_components a b c n i o s') as [o' s'']
  end.
  cbn [fst] in Hb |- *. apply quot8_ge; lia.
Qed.

Lemma HandleFIG0Extension3_progress d used st :
  used < (HandleFIG0Extension3 d used st).1.
Proof.
  unfold HandleFIG0Extension3. change (56 ÷ 8) with 7.
  destruct (findPacketComponent _ _) as [[? ?]|]; cbn [fst]; lia.
Qed.

Lemma HandleFIG0Extension5_progress d used st :
  0 <= used -> used < (HandleFIG0Extension5 d used st).1.
Proof.
  intros Hu. unfold HandleFIG0Extension5.
  destruct (_ =? 0); cbn [fst].
  - rewrite (quot8 used 16 2) by lia. lia.
  - rewrite (quot8 used 24 3) by lia. lia.
Qed.

Lemma HandleFIG0Extension13_progress d used cn oe pd st :
  0 <= used <= 31 -> used < (HandleFIG0Extension13 d used cn oe pd st).1.
Proof.
  intros Hu. unfold HandleFIG0Extension13.
  set (SIdLength := if pd =? 1 then 32 else 16).
  assert (HS : 16 <= SIdLength <= 32) by (unfold SIdLength; destruct (pd =? 1); lia).
  pose proof (getBits_range d (used * 8 + SIdLength + 4) 4 ltac:(lia)) as Hn.
  change (2 ^ 4) with 16 in Hn.
  pose proof (user_applications_offset d
                (Z.to_nat (getBits_4 d (used * 8 + SIdLength + 4)))
                (used * 8 + SIdLength + 8) st ltac:(lia)) as Hb.
  unfold getBits_4 in *.
  rewrite Z2Nat.id in Hb by lia. specialize (Hb ltac:(lia)).
  destruct (user_applications _ _ _ _) as [o' s'']. cbn [fst] in Hb |- *.
  apply quot8_ge; lia.
Qed.

Lemma HandleFIG0Extension17_progress d offset st :
  offset + 32 <= (HandleFIG0Extension17 d offset st).1.
Proof.
  unfold HandleFIG0Extension17.
  destruct (findServiceId _ _) as [[? ?]|]; destruct (_ =? 0); destruct (_ =? 0);
    cbn [fst]; lia.
Qed.

(** *** The loops leave through their condition *)

(** A loop whose body brings the offset nearer to the bound by at least
    one in every round is left through its condition within as many
    rounds as the distance at the start, and one more to see it. *)
Lemma while_loop_exit_ends (cond : Z -> bool) (body : Z -> State -> Z * State)
    (inv : Z -> Prop) (dist : Z -> Z) :
  (forall used, inv used -> cond used = true -> 0 < dist used) ->
  (forall used st, inv used -> cond used = true ->
     inv (body used st).1 /\ dist (body used st).1 < dist used) ->
  forall fuel used st,
    inv used -> dist used <= Z.of_nat fuel ->
    exists used',
      while_loop_exit (S fuel) cond body used st
      = Some (used', while_loop (S fuel) cond body used st) /\
      cond used' = false /\ inv used'.
Proof.
  intros H1 H2. induction fuel as [|n IH]; intros u st Hi Hd.
  - cbn [while_loop_exit while_loop].
    destruct (cond u) eqn:Ec.
    + specialize (H1 u Hi Ec). change (Z.of_nat 0) with 0 in Hd. lia.
    + exists u. auto.
  - assert (Ee : while_loop_exit (S (S n)) cond body u st
                 = if cond u then
                     let '(u1, s1) := body u st in
                     while_loop_exit (S n) cond body u1 s1
                   else Some (u, st)) by reflexivity.
    assert (Ew : while_loop (S (S n)) cond body u st
                 = if cond u then
                     let '(u1, s1) := body u st in while_loop (S n) cond body u1 s1
                   else st) by reflexivity.
    rewrite Ee, Ew. clear Ee Ew.
    destruct (cond u) eqn:Ec.
    + destruct (H2 u st Hi Ec) as [Hi1 Hd1].
      destruct (body u st) as [u1 s1]. cbn [fst] in Hi1, Hd1.
      apply IH; [exact Hi1|lia].
    + exists u. auto.
Qed.

(** The same for the rounds of the model, and any number more. *)
Lemma while_loop_ends (cond : Z -> bool) (body : Z -> State -> Z * State)
    (inv : Z -> Prop) (dist : Z -> Z) :
  (forall used, inv used -> cond used = true -> 0 < dist used) ->
  (forall used st, inv used -> cond used = true ->
     inv (body used st).1 /\ dist (body used st).1 < dist used) ->
  forall used st (extra : nat),
    inv used -> dist used <= 31 ->
    while_loop (loop_fuel + extra) cond body used st
    = while_loop loop_fuel cond body used st /\
    exists used',
      while_loop_exit (loop_fuel + extra) cond body used st
      = Some (used', while_loop loop_fuel cond body used st) /\
      cond used' = false /\ inv used'.
Proof.
  intros H1 H2 u st extra Hi Hd.
  assert (Hs : while_loop (loop_fuel + extra) cond body u st
               = while_loop loop_fuel cond body u st).
  { apply (while_loop_fuel cond body inv dist H1 H2); [exact Hi|].
    change (Z.of_nat loop_fuel) with 32. lia. }
  split; [exact Hs|].
  destruct (while_loop_exit_ends cond body inv dist H1 H2 (31 + extra) u st Hi
              ltac:(lia)) as (u' & He & Hc & Hi').
  change (S (31 + extra)) with (loop_fuel + extra)%nat in He.
  rewrite Hs in He. exists u'. auto.
Qed.

Lemma FIG0Extension1_ends hdr d st extra :
  let Length := getBits_5 d 3 in
  let PD_bit := getBits_1 d (8 + 2) in
  let CN := getBits_1 d (8 + 0) in
  let OE_bit := getBits_1 d (8 + 1) in
  let more := (loop_fuel + extra)%nat in
  while_loop more (fun used => used <? Length - 1)
    (fun used => HandleFIG0Extension1 hdr d used PD_bit) 2 st
  = FIG0Extension1 hdr d st /\
  exists u,
    while_loop_exit more (fun used => used <? Length - 1)
      (fun used => HandleFIG0Extension1 hdr d used PD_bit) 2 st
    = Some (u, FIG0Extension1 hdr d st) /\ Length - 1 <= u.
Proof.
  cbv zeta. pose proof (getBits_5_range d 3) as HL.
  unfold FIG0Extension1.
  match goal with
  | |- while_loop _ ?c ?b _ _ = _ /\ _ =>
    destruct (while_loop_ends c b (fun u => 0 <= u) (fun u => getBits_5 d 3 - 1 - u))
      with (used := 2) (st := st) (extra := extra) as (Hs & u & He & Hc & _)
  end.
  - intros u _ Hc. apply Z.ltb_lt in Hc. lia.
  - intros u s Hu _.
    pose proof (HandleFIG0Extension1_progress hdr d u (getBits_1 d (8 + 2)) s Hu). lia.
  - lia.
  - lia.
  - split; [exact Hs|]. exists u. split; [exact He|].
    apply Z.ltb_ge in Hc. exact Hc.
Qed.

Lemma FIG0Extension2_ends hdr clk d st extra :
  let Length := getBits_5 d 3 in
  let PD_bit := getBits_1 d (8 + 2) in
  let CN := getBits_1 d (8 + 0) in
  let OE_bit := getBits_1 d (8 + 1) in
  let more := (loop_fuel + extra)%nat in
  while_loop more (fun used => used <? Length)
    (fun used => HandleFIG0Extension2 hdr clk d used CN PD_bit) 2 st
  = FIG0Extension2 hdr clk d st /\
  exists u,
    while_loop_exit more (fun used => used <? Length)
      (fun used => HandleFIG0Extension2 hdr clk d used CN PD_bit) 2 st
    = Some (u, FIG0Extension2 hdr clk d st) /\ Length <= u.
Proof.
  cbv zeta. pose proof (getBits_5_range d 3) as HL.
  unfold FIG0Extension2.
  match goal with
  | |- while_loop _ ?c ?b _ _ = _ /\ _ =>
    destruct (while_loop_ends c b (fun u => 0 <= u) (fun u => getBits_5 d 3 - u))
      with (used := 2) (st := st) (extra := extra) as (Hs & u & He & Hc & _)
  end.
  - intros u _ Hc. apply Z.ltb_lt in Hc. lia.
  - intros u s Hu _.
    pose proof (HandleFIG0Extension2_progress hdr clk d u (getBits_1 d (8 + 0))
                  (getBits_1 d (8 + 2)) s Hu). lia.
  - lia.
  - lia.
  - split; [exact Hs|]. exists u. split; [exact He|].
    apply Z.ltb_ge in Hc. exact Hc.
Qed.

Lemma FIG0Extension3_ends d st extra :
  let Length := getBits_5 d 3 in
  let PD_bit := getBits_1 d (8 + 2) in
  let CN := getBits_1 d (8 + 0) in
  let OE_bit := getBits_1 d (8 + 1) in
  let more := (loop_fuel + extra)%nat in
  while_loop more (fun used => used <? Length)
    (fun used => HandleFIG0Extension3 d used) 2 st
  = FIG0Extension3 d st /\
  exists u,
    while_loop_exit more (fun used => used <? Length)
      (fun used => HandleFIG0Extension3 d used) 2 st
    = Some (u, FIG0Extension3 d st) /\ Length <= u.
Proof.
  cbv zeta. pose proof (getBits_5_range d 3) as HL.
  unfold FIG0Extension3.
  match goal with
  | |- while_loop _ ?c ?b _ _ = _ /\ _ =>
    destruct (while_loop_ends c b (fun u => 0 <= u) (fun u => getBits_5 d 3 - u))
      with (used := 2) (st := st) (extra := extra) as (Hs & u & He & Hc & _)
  end.
  - intros u _ Hc. apply Z.ltb_lt in Hc. lia.
  - intros u s Hu _. pose proof (HandleFIG0Extension3_progress d u s). lia.
  - lia.
  - lia.
  - split; [exact Hs|]. exists u. split; [exact He|].
    apply Z.ltb_ge in Hc. exact Hc.
Qed.

Lemma FIG0Extension5_ends d st extra :
  let Length := getBits_5 d 3 in
  let PD_bit := getBits_1 d (8 + 2) in
  let CN := getBits_1 d (8 + 0) in
  let OE_bit := getBits_1 d (8 + 1) in
  let more := (loop_fuel + extra)%nat in
  while_loop more (fun used => used <? Length)
    (fun used => HandleFIG0Extension5 d used) 2 st
  = FIG0Extension5 d st /\
  exists u,
    while_loop_exit more (fun used => used <? Length)
      (fun used => HandleFIG0Extension5 d used) 2 st
    = Some (u, FIG0Extension5 d st) /\ Length <= u.
Proof.
  cbv zeta. pose proof (getBits_5_range d 3) as HL.
  unfold FIG0Extension5.
  match goal with
  | |- while_loop _ ?c ?b _ _ = _ /\ _ =>
    destruct (while_loop_ends c b (fun u => 0 <= u) (fun u => getBits_5 d 3 - u))
      with (used := 2) (st := st) (extra := extra) as (Hs & u & He & Hc & _)
  end.
  - intros u _ Hc. apply Z.ltb_lt in Hc. lia.
  - intros u s Hu _. pose proof (HandleFIG0Extension5_progress d u s Hu). lia.
  - lia.
  - lia.
  - split; [exact Hs|]. exists u. split; [exact He|].
    apply Z.ltb_ge in Hc. exact Hc.
Qed.

Lemma FIG0Extension13_ends d st extra :
  let Length := getBits_5 d 3 in
  let PD_bit := getBits_1 d (8 + 2) in
  let CN := getBits_1 d (8 + 0) in
  let OE_bit := getBits_1 d (8 + 1) in
  let more := (loop_fuel + extra)%nat in
  while_loop more (fun used => used <? Length)
    (fun used => HandleFIG0Extension13 d used CN OE_bit PD_bit) 2 st
  = FIG0Extension13 d st /\
  exists u,
    while_loop_exit more (fun used => used <? Length)
      (fun used => HandleFIG0Extension13 d used CN OE_bit PD_bit) 2 st
    = Some (u, FIG0Extension13 d st) /\ Length <= u.
Proof.
  cbv zeta. pose proof (getBits_5_range d 3) as HL.
  unfold FIG0Extension13.
  match goal with
  | |- while_loop _ ?c ?b _ _ = _ /\ _ =>
    destruct (while_loop_ends c b (fun u => 0 <= u) (fun u => getBits_5 d 3 - u))
      with (used := 2) (st := st) (extra := extra) as (Hs & u & He & Hc & _)
  end.
  - intros u _ Hc. apply Z.ltb_lt in Hc. lia.
  - intros u s Hu Hc. apply Z.ltb_lt in Hc.
    pose proof (HandleFIG0Extension13_progress d u (getBits_1 d (8 + 0))
                  (getBits_1 d (8 + 1)) (getBits_1 d (8 + 2)) s ltac:(lia)). lia.
  - lia.
  - lia.
  - split; [exact Hs|]. exists u. split; [exact He|].
    apply Z.ltb_ge in Hc. exact Hc.
Qed.

Lemma FIG0Extension14_ends d st extra :
  let Length := getBits_5 d 3 in
  let PD_bit := getBits_1 d (8 + 2) in
  let CN := getBits_1 d (8 + 0) in
  let OE_bit := getBits_1 d (8 + 1) in
  let more := (loop_fuel + extra)%nat in
  while_loop more (fun used => used <? Length)
    (fun used => HandleFIG0Extension14 d used) 2 st
  = FIG0Extension14 d st /\
  exists u,
    while_loop_exit more (fun used => used <? Length)
      (fun used => HandleFIG0Extension14 d used) 2 st
    = Some (u, FIG0Extension14 d st) /\ Length <= u.
Proof.
  cbv zeta. pose proof (getBits_5_range d 3) as HL.
  unfold FIG0Extension14.
  match goal with
  | |- while_loop _ ?c ?b _ _ = _ /\ _ =>
    destruct (while_loop_ends c b (fun u => 0 <= u) (fun u => getBits_5 d 3 - u))
      with (used := 2) (st := st) (extra := extra) as (Hs & u & He & Hc & _)
  end.
  - intros u _ Hc. apply Z.ltb_lt in Hc. lia.
  - intros u s Hu _. unfold HandleFIG0Extension14. cbn [fst]. lia.
  - lia.
  - lia.
  - split; [exact Hs|]. exists u. split; [exact He|].
    apply Z.ltb_ge in Hc. exact Hc.
Qed.

Lemma FIG0Extension17_ends d st extra :
  let Length := getBits_5 d 3 in
  let more := (loop_fuel + extra)%nat in
  while_loop more (fun offset => offset <? Length * 8)
    (fun offset => HandleFIG0Extension17 d offset) 16 st
  = FIG0Extension17 d st /\
  exists offset,
    while_loop_exit more (fun offset => offset <? Length * 8)
      (fun offset => HandleFIG0Extension17 d offset) 16 st
    = Some (offset, FIG0Extension17 d st) /\ Length * 8 <= offset.
Proof.
  cbv zeta. pose proof (getBits_5_range d 3) as HL.
  unfold FIG0Extension17.
  match goal with
  | |- while_loop _ ?c ?b _ _ = _ /\ _ =>
    destruct (while_loop_ends c b (fun u => 0 <= u)
                (fun u => (getBits_5 d 3 * 8 - u + 7) / 8))
      with (used := 16) (st := st) (extra := extra) as (Hs & u & He & Hc & _)
  end.
  - intros u _ Hc. apply Z.ltb_lt in Hc. cbv beta.
    Z.div_mod_to_equations. lia.
  - intros u s Hu _. pose proof (HandleFIG0Extension17_progress d u s).
    cbv beta. Z.div_mod_to_equations. lia.
  - lia.
  - cbv beta. Z.div_mod_to_equations. lia.
  - split; [exact Hs|]. exists u. split; [exact He|].
    apply Z.ltb_ge in Hc. exact Hc.
Qed.

(** X1: the record loops of the FIG 0 handlers (extensions 1, 2, 3, 5,
    13, 14 and 17) end through their condition.  Every record moves the
    offset on: by at least one byte in the loops of the extensions 1, 2,
    3, 5 and 13, by exactly one byte in that of extension 14, by at
    least 32 bits in that of extension 17.  So each loop is left, within
    the rounds [loop_fuel] of the model, at an offset at which its
    condition is false, with the state the handler returns; and run
    with [extra] more rounds than [loop_fuel], each gives the same
    state. *)
Theorem handler_loops_fuel (hdr : Header) (clk : Clock) (d : bitvec) (st : State)
    (extra : nat) :
  let Length := getBits_5 d 3 in
  let PD_bit := getBits_1 d (8 + 2) in
  let CN := getBits_1 d (8 + 0) in
  let OE_bit := getBits_1 d (8 + 1) in
  let more := (loop_fuel + extra)%nat in
  (while_loop more (fun used => used <? Length - 1)
     (fun used => HandleFIG0Extension1 hdr d used PD_bit) 2 st
   = FIG0Extension1 hdr d st /\
   while_loop more (fun used => used <? Length)
     (fun used => HandleFIG0Extension2 hdr clk d used CN PD_bit) 2 st
   = FIG0Extension2 hdr clk d st /\
   while_loop more (fun used => used <? Length)
     (fun used => HandleFIG0Extension3 d used) 2 st
   = FIG0Extension3 d st /\
   while_loop more (fun used => used <? Length)
     (fun used => HandleFIG0Extension5 d used) 2 st
   = FIG0Extension5 d st /\
   while_loop more (fun used => used <? Length)
     (fun used => HandleFIG0Extension13 d used CN OE_bit PD_bit) 2 st
   = FIG0Extension13 d st /\
   while_loop more (fun used => used <? Length)
     (fun used => HandleFIG0Extension14 d used) 2 st
   = FIG0Extension14 d st /\
   while_loop more (fun offset => offset <? Length * 8)
     (fun offset => HandleFIG0Extension17 d offset) 16 st
   = FIG0Extension17 d st) /\
  ((exists used,
      while_loop_exit more (fun used => used <? Length - 1)
        (fun used => HandleFIG0Extension1 hdr d used PD_bit) 2 st
      = Some (used, FIG0Extension1 hdr d st) /\ Length - 1 <= used) /\
   (exists used,
      while_loop_exit more (fun used => used <? Length)
        (fun used => HandleFIG0Extension2 hdr clk d used CN PD_bit) 2 st
      = Some (used, FIG0Extension2 hdr clk d st) /\ Length <= used) /\
   (exists used,
      while_loop_exit more (fun used => used <? Length)
        (fun used => HandleFIG0Extension3 d used) 2 st
      = Some (used, FIG0Extension3 d st) /\ Length <= used) /\
   (exists used,
      while_loop_exit more (fun used => used <? Length)
        (fun used => HandleFIG0Extension5 d used) 2 st
      = Some (used, FIG0Extension5 d st) /\ Length <= used) /\
   (exists used,
      while_loop_exit more (fun used => used <? Length)
        (fun used => HandleFIG0Extension13 d used CN OE_bit PD_bit) 2 st
      = Some (used, FIG0Extension13 d st) /\ Length <= used) /\
   (exists used,
      while_loop_exit more (fun used => used <? Length)
        (fun used => HandleFIG0Extension14 d used) 2 st
      = Some (used, FIG0Extension14 d st) /\ Length <= used) /\
   (exists offset,
      while_loop_exit more (fun offset => offset <? Length * 8)
        (fun offset => HandleFIG0Extension17 d offset) 16 st
      = Some (offset, FIG0Extension17 d st) /\ Length * 8 <= offset)) /\
  (forall used pd cn oe (s : State),
     (0 <= used -> used < (HandleFIG0Extension1 hdr d used pd s).1) /\
     (0 <= used -> used < (HandleFIG0Extension2 hdr clk d used cn pd s).1) /\
     used < (HandleFIG0Extension3 d used s).1 /\
     (0 <= used -> used < (HandleFIG0Extension5 d used s).1) /\
     (0 <= used <= 31 -> used < (HandleFIG0Extension13 d used cn oe pd s).1) /\
     (HandleFIG0Extension14 d used s).1 = used + 1 /\
     used + 32 <= (HandleFIG0Extension17 d used s).1).
Proof.
  cbv zeta.
  destruct (FIG0Extension1_ends hdr d st extra) as [A1 B1].
  destruct (FIG0Extension2_ends hdr clk d st extra) as [A2 B2].
  destruct (FIG0Extension3_ends d st extra) as [A3 B3].
  destruct (FIG0Extension5_ends d st extra) as [A5 B5].
  destruct (FIG0Extension13_ends d st extra) as [A13 B13].
  destruct (FIG0Extension14_ends d st extra) as [A14 B14].
  destruct (FIG0Extension17_ends d st extra) as [A17 B17].
  cbv zeta in *.
  split; [|split].
  - split; [exact A1|]. split; [exact A2|]. split; [exact A3|].
    split; [exact A5|]. split; [exact A13|]. split; [exact A14|exact A17].
  - split; [exact B1|]. split; [exact B2|]. split; [exact B3|].
    split; [exact B5|]. split; [exact B13|]. split; [exact B14|exact B17].
  - intros used pd cn oe s.
    split; [apply HandleFIG0Extension1_progress|].
    split; [apply HandleFIG0Extension2_progress|].
    split; [apply HandleFIG0Extension3_progress|].
    split; [apply HandleFIG0Extension5_progress|].
    split; [apply HandleFIG0Extension13_progress|].
    split; [reflexivity|apply HandleFIG0Extension17_progress].
Qed.

(** ** The record loops of the extensions decoded for the log *)

Lemma offset_loop_ends (cond : Z -> bool) (next : Z -> Z) (inv : Z -> Prop)
    (dist : Z -> Z) :
  (forall u, 0 <= dist u) ->
  (forall u, inv u -> cond u = true -> inv (next u) /\ dist (next u) < dist u) ->
  forall fuel u,
    inv u -> dist u < Z.of_nat fuel ->
    exists u', offset_loop fuel cond next u = Some u' /\ cond u' = false /\ inv u'.
Proof.
  intros Hpos Hdec fuel. induction fuel as [|fuel IH]; intros u Hinv Hd.
  - specialize (Hpos u). lia.
  - simpl. destruct (cond u) eqn:Hc.
    + destruct (Hdec u Hinv Hc) as [Hinv' Hlt]. apply IH; [exact Hinv'|lia].
    + exists u. auto.
Qed.

Lemma HandleFIG0Extension8_step d used pdBit :
  0 <= used -> used + 3 <= HandleFIG0Extension8 d used pdBit <= used + 7.
Proof.
  intros Hu. unfold HandleFIG0Extension8.
  rewrite Z.quot_div_nonneg;
    [|destruct (pdBit =? 1), (_ =? 1), (_ =? 0); lia | lia].
  destruct (pdBit =? 1), (_ =? 1), (_ =? 0); Z.div_mod_to_equations; lia.
Qed.

Lemma HandleFIG0Extension22_step d used :
  used + 2 <= HandleFIG0Extension22 d used <= used + 44.
Proof.
  unfold HandleFIG0Extension22. change (48 ÷ 6) with 8.
  destruct (_ =? 0); [lia|].
  pose proof (getBits_3_range d (used * 8 + 13)) as Hn.
  rewrite Z.quot_div_nonneg by lia. Z.div_mod_to_equations. lia.
Qed.

(** X3: the record loops of FIG 0/8, 0/18, 0/19 and 0/22 end within the
    rounds of [loop_fuel]: every record advances the offset (by 3 to 7
    bytes, by 40 to 288 bits, by 32 or 40 bits, by 2 to 44 bytes), so the
    loop leaves through its condition, at an offset that is at most one
    record behind the 5-bit length of the FIG. *)
Theorem log_loops_end (d : bitvec) :
  let Length := getBits_5 d 3 in
  (exists u, FIG0Extension8 d = Some u /\ Length <= u /\ 2 <= u <= Z.max 2 (Length + 6)) /\
  (exists o, FIG0Extension18 d = Some o /\ Length - 1 <= o ÷ 8 /\
             16 <= o <= Z.max 16 (Length * 8 + 279)) /\
  (exists o, FIG0Extension19 d = Some o /\ Length - 1 <= o ÷ 8 /\
             16 <= o <= Z.max 16 (Length * 8 + 31)) /\
  (exists u, FIG0Extension22 d = Some u /\ Length <= u /\ 2 <= u <= Z.max 2 (Length + 43)).
Proof.
  cbv zeta. pose proof (getBits_5_range d 3) as HL.
  set (L := getBits_5 d 3) in *.
  assert (Hfuel : Z.of_nat loop_fuel = 32) by reflexivity.
  split; [|split; [|split]].
  - destruct (offset_loop_ends (fun used => used <? L)
                (fun used => HandleFIG0Extension8 d used (getBits_1 d (8 + 2)))
                (fun u => 2 <= u <= Z.max 2 (L + 6))
                (fun u => Z.max 0 (L - u))) with (fuel := loop_fuel) (u := 2)
      as (u' & Hr & Hc & Hi); try lia.
    + intros u Hu Hc. apply Z.ltb_lt in Hc.
      pose proof (HandleFIG0Extension8_step d u (getBits_1 d (8 + 2)) ltac:(lia)). lia.
    + exists u'. apply Z.ltb_ge in Hc. split; [exact Hr|]. lia.
  - destruct (offset_loop_ends (fun offset => offset ÷ 8 <? L - 1)
                (fun offset => offset + (40 + getBits_5 d (offset + 35) * 8))
                (fun o => 16 <= o <= Z.max 16 (L * 8 + 279))
                (fun o => Z.max 0 (L - 1 - o / 8))) with (fuel := loop_fuel) (u := 16)
      as (o' & Hr & Hc & Hi); try lia.
    + intros o Ho Hc. apply Z.ltb_lt in Hc.
      rewrite Z.quot_div_nonneg in Hc by lia.
      pose proof (getBits_5_range d (o + 35)) as Hn.
      Z.div_mod_to_equations. lia.
    + change (16 / 8) with 2. lia.
    + exists o'. apply Z.ltb_ge in Hc. split; [exact Hr|]. lia.
  - destruct (offset_loop_ends (fun offset => offset ÷ 8 <? L - 1)
                (fun offset => if getBits_1 d (offset + 25) =? 0
                               then offset + 32 else offset + 40)
                (fun o => 16 <= o <= Z.max 16 (L * 8 + 31))
                (fun o => Z.max 0 (L - 1 - o / 8))) with (fuel := loop_fuel) (u := 16)
      as (o' & Hr & Hc & Hi); try lia.
    + intros o Ho Hc. apply Z.ltb_lt in Hc.
      rewrite Z.quot_div_nonneg in Hc by lia.
      destruct (_ =? 0); Z.div_mod_to_equations; lia.
    + change (16 / 8) with 2. lia.
    + exists o'. apply Z.ltb_ge in Hc. split; [exact Hr|]. lia.
  - destruct (offset_loop_ends (fun used => used <? L)
                (fun used => HandleFIG0Extension22 d used)
                (fun u => 2 <= u <= Z.max 2 (L + 43))
                (fun u => Z.max 0 (L - u))) with (fuel := loop_fuel) (u := 2)
      as (u' & Hr & Hc & Hi); try lia.
    + intros u Hu Hc. apply Z.ltb_lt in Hc.
      pose proof (HandleFIG0Extension22_step d u). lia.
    + exists u'. apply Z.ltb_ge in Hc. split; [exact Hr|]. lia.
Qed.

(** ** [processFIB] as a sequence of member updates *)

Lemma updates_step hdr st st' : update hdr st st' -> updates hdr st st'.
Proof. apply rtc_once. Qed.

Lemma updates_then hdr st st' st'' :
  updates hdr st st' -> update hdr st' st'' -> updates hdr st st''.
Proof. apply rtc_r. Qed.

Lemma updates_trans hdr st st' st'' :
  updates hdr st st' -> updates hdr st' st'' -> updates hdr st st''.
Proof. intros H1 H2. unfold updates in *. etrans; eassumption. Qed.

Lemma updates_refl hdr st : updates hdr st st.
Proof. apply rtc_refl. Qed.

(** An invariant of the single updates is an invariant of a sequence. *)
Lemma updates_inv hdr (P : State -> Prop) :
  (forall st st', update hdr st st' -> P st -> P st') ->
  forall st st', updates hdr st st' -> P st -> P st'.
Proof.
  intros Hstep st st' H. induction H as [|st st1 st2 H1 _ IH]; [auto|].
  intros HP. apply IH. exact (Hstep st st1 H1 HP).
Qed.

Lemma while_loop_updates hdr (cond : Z -> bool) (body : Z -> State -> Z * State) :
  (forall used st, updates hdr st (body used st).2) ->
  forall fuel used st, updates hdr st (while_loop fuel cond body used st).
Proof.
  intros Hb fuel used st.
  apply (while_loop_inv (updates hdr st)); [|apply updates_refl].
  intros used' st' H. exact (updates_trans _ _ _ _ H (Hb used' st')).
Qed.

Lemma getBits_6_range (d : bitvec) (offset : Z) : 0 <= getBits_6 d offset < 64.
Proof. apply (getBits_range d offset 6). lia. Qed.

Lemma FIG0Extension0_updates hdr clk d st :
  updates hdr st (FIG0Extension0 clk d st).
Proof.
  unfold FIG0Extension0.
  assert (H1 : updates hdr st
                 (if bool_decide (ensembleId st <> getBits d 16 16)
                  then emit (onNewEnsemble (getBits d 16 16))
                         (set_ensembleId (getBits d 16 16) st)
                  else st)).
  { case_bool_decide as E; [|apply updates_refl].
    apply updates_step, upd_new_ensemble, E. }
  destruct (_ =? 0); [|exact H1].
  eapply updates_then; [exact H1|]. apply upd_timeLastFCT0Frame.
Qed.

Lemma HandleFIG0Extension1_updates hdr d offset pd st :
  updates hdr st (HandleFIG0Extension1 hdr d offset pd st).2.
Proof.
  unfold HandleFIG0Extension1.
  pose proof (getBits_6_range d (offset * 8)) as Hr.
  assert (Hi : (Z.to_nat (getBits_6 d (offset * 8)) < 64)%nat) by lia.
  assert (Hz : Z.of_nat (Z.to_nat (getBits_6 d (offset * 8))) = getBits_6 d (offset * 8))
    by lia.
  destruct (_ =? 0); [|destruct (_ || _)]; cbn [snd];
    rewrite ?list_alter_alter_eq;
    apply updates_step, upd_define_subchannel; try exact Hi;
    intros s; rewrite Hz; reflexivity.
Qed.

Lemma decay_pass_state (st : State) :
  decay_pass st =
  set_serviceRepeatCount (serviceRepeatCount (decay_pass st))
    (if any_zero (map_to_list (serviceRepeatCount st)) then dropService 0 st
     else st).
Proof. unfold decay_pass. apply decay_fold_state. Qed.

Lemma decay_updates hdr clk st : updates hdr st (decay clk st).
Proof.
  unfold decay. destruct (_ <? _); [|apply updates_refl].
  eapply updates_then; [|apply upd_timeLastServiceDecrement].
  rewrite decay_pass_state.
  destruct (any_zero _) eqn:Ez.
  - eapply updates_then.
    + apply updates_step, upd_drop_zero.
      apply (any_zero_lookup _ (map_to_list (serviceRepeatCount st))); [reflexivity|exact Ez].
    + apply upd_decay_counters. intros k.
      change (serviceRepeatCount (dropService 0 st)) with (serviceRepeatCount st).
      apply decay_pass_counters.
  - apply updates_step, upd_decay_counters. intros k. apply decay_pass_counters.
Qed.

Lemma sighting_counters SId (m : gmap Z Z) :
  (if counter_of SId m <? 4
   then <[SId := counter_of SId m + 1]> (<[SId := counter_of SId m]> m)
   else <[SId := counter_of SId m]> m)
  = <[SId := sighted (counter_of SId m)]> m.
Proof.
  unfold sighted. destruct (_ <? 4); [apply insert_insert_eq|reflexivity].
Qed.

Lemma sighting_updates hdr SId st : updates hdr st (sighting hdr SId st).
Proof.
  unfold sighting. rewrite sighting_counters.
  set (m2 := <[SId := _]> _).
  assert (H1 : updates hdr st (set_serviceRepeatCount m2 st))
    by apply updates_step, upd_sighting.
  destruct (bool_decide _) eqn:Ef; [|exact H1].
  destruct (2 <=? _) eqn:Ec; [|exact H1]. cbn [andb].
  eapply updates_then; [exact H1|].
  apply bool_decide_eq_true in Ef. apply Z.leb_le in Ec.
  apply upd_new_service; [|exact Ec].
  apply findServiceId_None, Ef.
Qed.

Lemma bind_updates hdr TMid SId compnr a b c st :
  updates hdr st (bindAudioService hdr TMid SId compnr a b c st) /\
  updates hdr st (bindDataStreamService hdr TMid SId compnr a b c st) /\
  updates hdr st (bindPacketService hdr TMid SId compnr a b c st).
Proof.
  unfold bindAudioService, bindDataStreamService, bindPacketService.
  destruct (findServiceId SId st) as [[i s]|] eqn:Ef;
    [|repeat split; apply updates_refl].
  destruct (findServiceId_Some _ _ _ _ Ef) as (_ & Hid & Hin).
  destruct (component_absent s compnr st) eqn:Ea;
    [|repeat split; apply updates_refl].
  apply component_absent_true in Ea. rewrite Hid in Ea.
  repeat split; apply updates_step, upd_new_component; assumption.
Qed.

Lemma bind_components_updates hdr d SId n :
  forall i lOffset st,
    updates hdr st (bind_components hdr d SId n i lOffset st).2.
Proof.
  induction n as [|n IH]; intros i lOffset st; [apply updates_refl|].
  cbn [bind_components].
  eapply updates_trans; [|apply IH].
  destruct (_ =? 0); [apply bind_updates|].
  destruct (_ =? 1); [apply bind_updates|].
  destruct (_ =? 3); [apply bind_updates|apply updates_refl].
Qed.

Lemma HandleFIG0Extension2_updates hdr clk d offset cn pd st :
  updates hdr st (HandleFIG0Extension2 hdr clk d offset cn pd st).2.
Proof.
  unfold HandleFIG0Extension2.
  destruct (FIG0Extension2_SId d offset pd) as [SId lOffset].
  pose proof (bind_components_updates hdr d SId
                (Z.to_nat (getBits_4 d (lOffset + 4))) 0 (lOffset + 8)
                (sighting hdr SId (decay clk st))) as Hb.
  destruct (bind_components _ _ _ _ _ _ _) as [lOffset' st3]. cbn [snd] in *.
  eapply updates_trans; [|exact Hb].
  eapply updates_trans; [apply decay_updates|apply sighting_updates].
Qed.

Lemma HandleFIG0Extension3_updates hdr d used st :
  updates hdr st (HandleFIG0Extension3 d used st).2.
Proof.
  unfold HandleFIG0Extension3.
  destruct (findPacketComponent _ st) as [[i c]|]; [|apply updates_refl].
  apply updates_step, upd_component. reflexivity.
Qed.

Lemma HandleFIG0Extension5_updates hdr d offset st :
  updates hdr st (HandleFIG0Extension5 d offset st).2.
Proof.
  unfold HandleFIG0Extension5.
  destruct (_ =? 0); [|apply updates_refl].
  destruct (_ =? 0); [|apply updates_refl].
  apply updates_step, upd_subchannel_language.
  pose proof (getBits_6_range d (offset * 8 + 2)). lia.
Qed.

Lemma FIG0Extension10_updates hdr fig st :
  updates hdr st (FIG0Extension10 fig st).
Proof.
  unfold FIG0Extension10. destruct (mjd_to_date _) as [[Y M] D].
  set (dt' := mkDateTime _ _ _ _ _ _ _ _).
  destruct (timeOffsetReceived (set_dateTime dt' st)) eqn:Et.
  - eapply updates_then; [apply updates_step, (upd_dateTime _ _ dt')|].
    exact (upd_dateTime_event hdr (set_dateTime dt' st) Et).
  - apply updates_step, upd_dateTime.
Qed.

Lemma user_applications_updates hdr d n :
  forall bitOffset st, updates hdr st (user_applications d n bitOffset st).2.
Proof.
  induction n as [|n IH]; intros bitOffset st; [apply updates_refl|].
  cbn [user_applications].
  eapply updates_trans; [|apply IH].
  destruct (_ =? 2); [|apply updates_refl].
  apply updates_step, upd_label_event. exact I.
Qed.

Lemma HandleFIG0Extension13_updates hdr d used cn oe pd st :
  updates hdr st (HandleFIG0Extension13 d used cn oe pd st).2.
Proof.
  unfold HandleFIG0Extension13.
  pose proof (user_applications_updates hdr d
                (Z.to_nat (getBits_4 d (used * 8 + (if pd =? 1 then 32 else 16) + 4)))
                (used * 8 + (if pd =? 1 then 32 else 16) + 8) st) as Hu.
  destruct (user_applications _ _ _ _) as [b st1]. exact Hu.
Qed.

Lemma HandleFIG0Extension17_updates hdr d offset st :
  updates hdr st (HandleFIG0Extension17 d offset st).2.
Proof.
  unfold HandleFIG0Extension17.
  destruct (findServiceId _ st) as [[i s]|]; destruct (_ =? 0); cbn [snd];
    try apply updates_refl.
  - apply updates_step, upd_service. reflexivity.
  - eapply updates_then; [apply updates_step|];
      apply upd_service; reflexivity.
Qed.

Lemma process_FIG0_updates hdr clk d st :
  updates hdr st (process_FIG0 hdr clk d st).
Proof.
  unfold process_FIG0.
  destruct (_ =? 0); [apply FIG0Extension0_updates|].
  destruct (_ =? 1);
    [apply while_loop_updates; intros; apply HandleFIG0Extension1_updates|].
  destruct (_ =? 2);
    [apply while_loop_updates; intros; apply HandleFIG0Extension2_updates|].
  destruct (_ =? 3);
    [apply while_loop_updates; intros; apply HandleFIG0Extension3_updates|].
  destruct (_ =? 5);
    [apply while_loop_updates; intros; apply HandleFIG0Extension5_updates|].
  destruct (_ =? 9); [apply updates_step, upd_time_offset|].
  destruct (_ =? 10); [apply FIG0Extension10_updates|].
  destruct (_ =? 13);
    [apply while_loop_updates; intros; apply HandleFIG0Extension13_updates|].
  destruct (_ =? 14);
    [apply while_loop_updates; intros; apply updates_step, upd_set_fec|].
  destruct (_ =? 17);
    [apply while_loop_updates; intros; apply HandleFIG0Extension17_updates|].
  apply updates_refl.
Qed.

Lemma process_FIG1_updates hdr d st : updates hdr st (process_FIG1 d st).
Proof.
  unfold process_FIG1.
  destruct (_ =? 1); [apply updates_refl|].
  destruct (_ =? 0).
  { destruct (_ && _); [|apply updates_refl].
    eapply updates_then; cycle 1.
    - apply upd_label_event. exact I.
    - apply updates_step, upd_ensembleLabel. }
  destruct (_ || _).
  { destruct (findServiceId _ st) as [[i s]|]; [|apply updates_refl].
    eapply updates_then; cycle 1.
    - apply upd_label_event. exact I.
    - apply updates_step, upd_service. reflexivity. }
  destruct (_ =? 4); [|apply updates_refl].
  destruct (findComponent _ _ st) as [[i c]|]; [|apply updates_refl].
  apply updates_step, upd_component. reflexivity.
Qed.

Lemma process_FIG2_updates hdr d st : updates hdr st (process_FIG2 d st).1.
Proof.
  unfold process_FIG2.
  repeat match goal with
         | |- context [if ?b then _ else _] => destruct b
         | |- context [match findServiceId ?a ?b with _ => _ end] =>
           destruct (findServiceId a b) as [[? ?]|]
         | |- context [match findComponent ?a ?b ?c with _ => _ end] =>
           destruct (findComponent a b c) as [[? ?]|]
         | |- context [let '(_, _) := ?x in _] => destruct x
         end; cbn [fst]; try apply updates_refl;
  apply updates_step;
  first [ apply upd_ensembleLabel
        | apply upd_service; reflexivity
        | apply upd_component; reflexivity ].
Qed.

Lemma dispatch_FIG_updates hdr clk d st :
  updates hdr st (dispatch_FIG hdr clk d st).1.
Proof.
  unfold dispatch_FIG.
  destruct (_ =? 0); [apply process_FIG0_updates|].
  destruct (_ =? 1); [apply process_FIG1_updates|].
  destruct (_ =? 2).
  { pose proof (process_FIG2_updates hdr d st) as H2.
    destruct (process_FIG2 d st) as [st' [e|]]; exact H2. }
  destruct (_ =? 6); [apply updates_refl|].
  destruct (_ =? 7); apply updates_refl.
Qed.

Lemma processFIB_loop_updates hdr clk fuel p :
  forall processedBytes st,
    updates hdr st (processFIB_loop hdr clk fuel p processedBytes st).1.
Proof.
  induction fuel as [|fuel IH]; intros processedBytes st; [apply updates_refl|].
  cbn [processFIB_loop].
  destruct (processedBytes <? 30); [|apply updates_refl].
  pose proof (dispatch_FIG_updates hdr clk (advance p (processedBytes * 8)) st) as Hd.
  destruct (dispatch_FIG _ _ _ st) as [st' [| |e]]; cbn [fst] in *; try exact Hd.
  eapply updates_trans; [exact Hd|apply IH].
Qed.

Lemma processFIB_updates hdr clk p fib st :
  updates hdr st (processFIB hdr clk p fib st).1.
Proof. apply processFIB_loop_updates. Qed.

(** ** The subchannel table *)

Lemma subtable_alter (f : Subchannel -> Subchannel) (i : nat) (st : State) :
  (forall s, sub_subChId (f s) = sub_subChId s \/ sub_subChId (f s) = Z.of_nat i) ->
  subtable_ok st ->
  subtable_ok (set_subChannels (alter f i (subChannels st)) st).
Proof.
  intros Hf [Hlen Hid]. split; cbn [subChannels set_subChannels].
  - rewrite length_alter. exact Hlen.
  - intros j sub. rewrite list_lookup_alter. destruct (decide (i = j)) as [->|_].
    + destruct (subChannels st !! j) as [s|] eqn:Es; [|discriminate].
      cbn. intros [= <-]. destruct (Hf s) as [-> | ->]; [|right; reflexivity].
      apply (Hid j s Es).
    + apply Hid.
Qed.

Lemma subtable_fmap (f : Subchannel -> Subchannel) (st : State) :
  (forall s, sub_subChId (f s) = sub_subChId s \/ sub_subChId (f s) = -1) ->
  subtable_ok st ->
  subtable_ok (set_subChannels (f <$> subChannels st) st).
Proof.
  intros Hf [Hlen Hid]. split; cbn [subChannels set_subChannels].
  - rewrite length_fmap. exact Hlen.
  - intros j sub. rewrite list_lookup_fmap.
    destruct (subChannels st !! j) as [s|] eqn:Es; [|discriminate].
    cbn. intros [= <-]. destruct (Hf s) as [-> | ->]; [|left; reflexivity].
    apply (Hid j s Es).
Qed.

(** On a table of 64 slots the search of [FIG0Extension14] visits every
    slot. *)
Lemma set_fec_fmap (subChId fecScheme : Z) (l : list Subchannel) :
  length l = 64%nat ->
  set_fec subChId fecScheme l =
  (fun s => if sub_subChId s =? subChId then set_sub_fecScheme fecScheme s else s)
    <$> l.
Proof.
  intros Hlen. unfold set_fec.
  rewrite take_ge, drop_ge by lia. apply app_nil_r.
Qed.

Lemma orphan_check_id (comps : list ServiceComponent) (sub : Subchannel) :
  sub_subChId (orphan_check comps sub) = sub_subChId sub \/
  sub_subChId (orphan_check comps sub) = -1.
Proof.
  unfold orphan_check. repeat case_bool_decide; auto.
Qed.

Lemma dropService_subtable (SId : Z) (st : State) :
  subtable_ok st -> subtable_ok (dropService SId st).
Proof.
  intros H.
  exact (subtable_fmap (orphan_check (filter (fun c => sc_SId c <> SId) (components st)))
           st (orphan_check_id _) H).
Qed.

Lemma update_subtable hdr st st' :
  update hdr st st' -> subtable_ok st -> subtable_ok st'.
Proof.
  intros Hu H. destruct Hu; try exact H.
  - apply subtable_alter; [|exact H]. intros s. right. auto.
  - apply subtable_alter; [|exact H]. intros s. left. reflexivity.
  - rewrite set_fec_fmap by apply H.
    apply subtable_fmap; [|exact H].
    intros s. left. destruct (_ =? _); reflexivity.
  - apply dropService_subtable, H.
Qed.

Lemma clearEnsemble_subtable clk st :
  subtable_ok st -> subtable_ok (clearEnsemble clk st).
Proof.
  intros [Hlen Hid]. split; cbn [subChannels clearEnsemble set_timeLastFCT0Frame
    set_timeLastServiceDecrement set_serviceRepeatCount set_services
    set_subChannels set_components];
    rewrite <- Hlen, resize_all; first [reflexivity | assumption].
Qed.

Lemma size_t_of_index (x : Z) :
  - 2 ^ 15 <= x < 2 ^ 15 ->
  (Z.to_nat (size_t_of x) < 64)%nat -> 0 <= x < 64 /\ size_t_of x = x.
Proof.
  intros Hr Hi. unfold size_t_of in *.
  change (2 ^ 15) with 32768 in Hr.
  destruct (Z_lt_le_dec x 0) as [Hneg | Hpos].
  - exfalso.
    assert (E : x mod 2 ^ 64 = x + 2 ^ 64).
    { symmetry. apply Z.mod_unique with (q := -1); [left|]; lia. }
    rewrite E in Hi. change (2 ^ 64) with 18446744073709551616 in Hi. lia.
  - rewrite Z.mod_small in * by lia. lia.
Qed.

Lemma subtable_st0 : subtable_ok st0.
Proof.
  split; [reflexivity|]. intros i sub Hl. left.
  change (subChannels st0) with (replicate 64 Subchannel_init) in Hl.
  apply lookup_replicate in Hl as [-> _]. reflexivity.
Qed.

Lemma getSubchannel_in_range (sc : ServiceComponent) (st : State) :
  length (subChannels st) = 64%nat ->
  0 <= sc_subchannelId sc < 64 ->
  exists sub, getSubchannel sc st = inl sub.
Proof.
  intros Hlen Hr. unfold getSubchannel, size_t_of.
  rewrite Z.mod_small by lia.
  destruct (lookup_lt_is_Some_2 (subChannels st) (Z.to_nat (sc_subchannelId sc)))
    as [sub Hs]; [lia|].
  exists sub. rewrite Hs. reflexivity.
Qed.

(** X4: the subchannel table keeps its shape.  From a table of 64 slots
    in which every valid slot sits at the index of its id (the table the
    constructor leaves is one), [processFIB], [dropService] and
    [clearEnsemble] lead to such a table again.  On such a table
    [getSubchannel] returns a slot for every component whose subchannel
    id is between 0 and 63, and a valid slot it returns carries the id
    the component names. *)
Theorem subchannel_table_invariant (hdr : Header) (clk : Clock) (st : State) :
  subtable_ok st ->
  (forall p fib, subtable_ok (processFIB hdr clk p fib st).1) /\
  (forall SId, subtable_ok (dropService SId st)) /\
  subtable_ok (clearEnsemble clk st) /\
  (forall sc, 0 <= sc_subchannelId sc < 64 ->
     exists sub, getSubchannel sc st = inl sub) /\
  (forall sc sub,
     - 2 ^ 15 <= sc_subchannelId sc < 2 ^ 15 ->
     getSubchannel sc st = inl sub -> sub_valid sub ->
     sub_subChId sub = sc_subchannelId sc).
Proof.
  intros H.
  split.
  { intros p fib.
    exact (updates_inv hdr subtable_ok (update_subtable hdr) _ _
             (processFIB_updates hdr clk p fib st) H). }
  split; [intros SId; apply dropService_subtable, H|].
  split; [apply clearEnsemble_subtable, H|].
  destruct H as [Hlen Hid]. split.
  - intros sc Hr. apply getSubchannel_in_range; assumption.
  - intros sc sub Hr Hg Hv. unfold getSubchannel in Hg.
    destruct (subChannels st !! _) as [s|] eqn:Es; [|discriminate].
    injection Hg as ->.
    pose proof (lookup_lt_Some _ _ _ Es) as Hlt. rewrite Hlen in Hlt.
    destruct (size_t_of_index _ Hr Hlt) as [Hr' Hsz].
    destruct (Hid _ _ Es) as [Hbad|Hi]; [contradiction|].
    rewrite Hi, Hsz. lia.
Qed.

(** The table of a new processor, and after a FIB that defines
    subchannel 5. *)
Lemma subchannel_table_invariant_witness :
  subtable_ok st0 /\ subtable_ok (processFIB hdr0 clk0 fib_subch 0 st0).1.
Proof.
  split; [exact subtable_st0|].
  destruct (subchannel_table_invariant hdr0 clk0 st0 subtable_st0) as (Hp & _).
  exact (Hp fib_subch 0).
Defined.

(** ** The service list and the debounce counters under [processFIB] *)

Lemma dropService_ids_sublist (SId : Z) (st : State) :
  sublist (service_ids (dropService SId st)) (service_ids st).
Proof. unfold service_ids. cbn. apply fmap_sublist, sublist_filter. Qed.

Lemma services_ok_same (st st' : State) :
  service_ids st' = service_ids st ->
  (forall e, e ∈ events st -> e ∈ events st') ->
  services_ok st -> services_ok st'.
Proof.
  intros Hs He [Hnd Han]. split; rewrite Hs; [exact Hnd|].
  intros SId Hin. apply He, Han, Hin.
Qed.

Lemma dropService_services_ok (SId : Z) (st : State) :
  services_ok st -> services_ok (dropService SId st).
Proof.
  intros [Hnd Han]. split.
  - apply (sublist_NoDup _ (service_ids st)); try exact Hnd.
    apply dropService_ids_sublist.
  - intros k Hk. apply Han.
    exact (elem_of_sublist _ _ _ Hk (dropService_ids_sublist SId st)).
Qed.

Lemma update_services_ok hdr st st' :
  update hdr st st' -> services_ok st -> services_ok st'.
Proof.
  intros Hu H.
  destruct Hu;
    try (apply (services_ok_same st); [reflexivity| |exact H];
         cbn; intros e' He'; try apply elem_of_app; auto; fail).
  - apply dropService_services_ok, H.
  - destruct H as [Hnd Han]. split; unfold service_ids in *; cbn.
    + rewrite fmap_app. apply NoDup_app. split; [exact Hnd|].
      split; [|apply NoDup_singleton].
      intros x Hx Hx'. apply list_elem_of_singleton in Hx'. cbn in Hx'.
      subst x. contradiction.
    + intros k Hk. rewrite fmap_app in Hk. apply elem_of_app in Hk.
      apply elem_of_app. destruct Hk as [Hk|Hk]; [left; apply Han, Hk|right].
      apply list_elem_of_singleton in Hk. cbn in Hk. subst k.
      apply list_elem_of_singleton. reflexivity.
  - apply (services_ok_same st); [|auto|exact H].
    unfold service_ids. cbn. apply fmap_alter_same. assumption.
Qed.

Lemma NoDup_find_id (l : list Service) (s : Service) :
  NoDup (svc_serviceId <$> l) -> s ∈ l ->
  exists i, list_find (fun s' => svc_serviceId s' = svc_serviceId s) l = Some (i, s).
Proof.
  induction l as [|a l IH]; intros Hnd Hin; [apply elem_of_nil in Hin; contradiction|].
  rewrite fmap_cons in Hnd. apply NoDup_cons in Hnd as [Ha Hnd].
  cbn. destruct (decide (svc_serviceId a = svc_serviceId s)) as [E|E].
  - apply elem_of_cons in Hin as [->|Hin]; [exists 0%nat; reflexivity|].
    exfalso. apply Ha. rewrite E. apply list_elem_of_fmap. exists s. auto.
  - apply elem_of_cons in Hin as [->|Hin]; [contradiction|].
    destruct (IH Hnd Hin) as [i Hi]. exists (S i). rewrite Hi. reflexivity.
Qed.

Lemma clearEnsemble_services_ok (clk : Clock) (st : State) :
  services_ok (clearEnsemble clk st).
Proof.
  split; [apply NoDup_nil_2|]. intros SId Hin.
  apply elem_of_nil in Hin. contradiction.
Qed.

Lemma getService_listed (hdr : Header) (st : State) (s : Service) :
  NoDup (service_ids st) -> s ∈ getServiceList st ->
  getService hdr (svc_serviceId s) st = s.
Proof.
  intros Hnd Hs. unfold getService, getServiceList in *.
  destruct (NoDup_find_id _ s Hnd Hs) as [i Hi]. rewrite Hi. reflexivity.
Qed.

(** X5: the service list keeps an id at most once, and every service in
    it has been reported through [onServiceDetected]: both hold of a new
    processor and are kept by [processFIB], [dropService] and
    [clearEnsemble].  With ids unique, [getService] returns for the id of
    a listed service that very entry. *)
Theorem service_list_invariant (hdr : Header) (clk : Clock) (st : State) :
  services_ok st ->
  (forall p fib, services_ok (processFIB hdr clk p fib st).1) /\
  (forall SId, services_ok (dropService SId st)) /\
  services_ok (clearEnsemble clk st) /\
  (forall s, s ∈ getServiceList st -> getService hdr (svc_serviceId s) st = s).
Proof.
  intros H.
  split.
  { intros p fib.
    exact (updates_inv hdr services_ok (update_services_ok hdr) _ _
             (processFIB_updates hdr clk p fib st) H). }
  split; [intros SId; apply dropService_services_ok, H|].
  split; [apply clearEnsemble_services_ok|].
  intros s Hs. apply getService_listed; [apply H|exact Hs].
Qed.

(** The store after two sightings of service [0xA1B2], and after a third
    FIB. *)
Lemma service_list_invariant_witness :
  services_ok st_confirmed /\
  services_ok (processFIB hdr0 clk0 fib_other 0 st_confirmed).1.
Proof.
  assert (H : services_ok st_confirmed).
  { split.
    - change (service_ids st_confirmed) with [0xA1B2].
      apply NoDup_singleton.
    - change (service_ids st_confirmed) with [0xA1B2].
      change (events st_confirmed) with [onServiceDetected 0xA1B2].
      intros SId HS. apply list_elem_of_singleton in HS. subst SId.
      apply list_elem_of_singleton. reflexivity. }
  split; [exact H|].
  destruct (service_list_invariant hdr0 clk0 st_confirmed H) as (Hp & _).
  exact (Hp fib_other 0).
Defined.

Lemma counter_of_bounded (SId : Z) (st : State) :
  counters_bounded st -> 0 <= counter_of SId (serviceRepeatCount st) <= 4.
Proof.
  intros H. unfold counter_of.
  destruct (serviceRepeatCount st !! SId) as [v|] eqn:E; cbn; [|lia].
  apply (H SId v E).
Qed.

Lemma update_counters_bounded hdr st st' :
  update hdr st st' -> counters_bounded st -> counters_bounded st'.
Proof.
  intros Hu H. destruct Hu; try exact H.
  - intros k v. cbn. rewrite H0.
    destruct (serviceRepeatCount st !! k) as [v0|] eqn:E; [|discriminate].
    pose proof (H k v0 E) as Hv0. cbn. unfold decayed.
    destruct (0 <? v0) eqn:E1; [intros [= <-]; apply Z.ltb_lt in E1; lia|].
    destruct (v0 =? 0); [discriminate|]. intros [= <-]. exact Hv0.
  - intros k v. cbn.
    pose proof (counter_of_bounded SId st H) as Hc.
    destruct (decide (k = SId)) as [->|Hne].
    + rewrite lookup_insert_eq. intros [= <-]. unfold sighted.
      destruct (_ <? 4) eqn:E; [apply Z.ltb_lt in E|]; lia.
    + rewrite lookup_insert_ne by congruence. apply H.
Qed.

Lemma decay_passes_counters (n : nat) :
  forall st k,
    serviceRepeatCount (Nat.iter n decay_pass st) !! k =
    Nat.iter n (fun o => o ≫= decayed) (serviceRepeatCount st !! k).
Proof.
  induction n as [|n IH]; intros st k; [reflexivity|].
  rewrite !Nat.iter_succ, decay_pass_counters, IH. reflexivity.
Qed.

Lemma decayed_iter (n : nat) :
  forall v, 0 <= v ->
    Nat.iter n (fun o => o ≫= decayed) (Some v) =
    if Z.of_nat n <=? v then Some (v - Z.of_nat n) else None.
Proof.
  induction n as [|n IH]; intros v Hv.
  - cbn. destruct (_ <=? _) eqn:E; [f_equal; lia|apply Z.leb_gt in E; lia].
  - rewrite Nat.iter_succ, IH by exact Hv.
    destruct (Z.of_nat n <=? v) eqn:E1; destruct (Z.of_nat (S n) <=? v) eqn:E2;
      try apply Z.leb_le in E1; try apply Z.leb_le in E2;
      try apply Z.leb_gt in E1; try apply Z.leb_gt in E2; try lia; cbn.
    + unfold decayed. destruct (0 <? _) eqn:E3; [f_equal; lia|].
      apply Z.ltb_ge in E3. lia.
    + unfold decayed. destruct (0 <? _) eqn:E3; [apply Z.ltb_lt in E3; lia|].
      destruct (_ =? 0) eqn:E4; [reflexivity|apply Z.eqb_neq in E4; lia].
    + reflexivity.
Qed.

(** X6: the debounce counters stay between 0 and 4 under [processFIB]
    (the increment saturates at 4, the decay pass erases at 0), so a
    counter [v] reads [v - n] after [n <= v] decay passes without a
    sighting, and is erased by the pass after that: five passes empty
    the tracking map of every processor, while (by the argument that
    [dropService] is called with) every service whose id is not 0 is
    still in the service list. *)
Theorem counters_stay_bounded (hdr : Header) (clk : Clock) (st : State) :
  counters_bounded st ->
  (forall p fib, counters_bounded (processFIB hdr clk p fib st).1) /\
  (forall (n : nat) k v,
     serviceRepeatCount st !! k = Some v ->
     serviceRepeatCount (Nat.iter n decay_pass st) !! k =
       if Z.of_nat n <=? v then Some (v - Z.of_nat n) else None) /\
  serviceRepeatCount (Nat.iter 5 decay_pass st) = ∅ /\
  (forall (n : nat) s,
     s ∈ services st -> svc_serviceId s <> 0 ->
     s ∈ services (Nat.iter n decay_pass st)).
Proof.
  intros H.
  split.
  { intros p fib.
    exact (updates_inv hdr counters_bounded (update_counters_bounded hdr) _ _
             (processFIB_updates hdr clk p fib st) H). }
  split.
  { intros n k v Hk. rewrite decay_passes_counters, Hk.
    apply decayed_iter. apply (H k v Hk). }
  split.
  { apply map_eq. intros k. rewrite lookup_empty, decay_passes_counters.
    destruct (serviceRepeatCount st !! k) as [v|] eqn:Hk; [|reflexivity].
    rewrite decayed_iter by apply (H k v Hk).
    pose proof (H k v Hk) as Hv.
    destruct (_ <=? _) eqn:E; [apply Z.leb_le in E; lia|reflexivity]. }
  intros n s Hs Hne. induction n as [|n IH]; [exact Hs|].
  rewrite Nat.iter_succ. apply decay_pass_keeps_nonzero; assumption.
Qed.

(** The store after two sightings of service [0xA1B2]: its counter is 2,
    and gone after three passes; the service is still listed. *)
Lemma counters_stay_bounded_witness :
  counters_bounded st_confirmed /\
  serviceRepeatCount st_confirmed !! 0xA1B2 = Some 2 /\
  serviceRepeatCount (Nat.iter 3 decay_pass st_confirmed) !! 0xA1B2 = None /\
  service_ids (Nat.iter 3 decay_pass st_confirmed) = [0xA1B2].
Proof.
  assert (H : counters_bounded st_confirmed).
  { intros k v.
    change (serviceRepeatCount st_confirmed) with (<[0xA1B2 := 2]> (∅ : gmap Z Z)).
    destruct (decide (k = 0xA1B2)) as [->|Hne].
    - rewrite lookup_insert_eq. intros [= <-]. lia.
    - rewrite lookup_insert_ne by congruence. rewrite lookup_empty. discriminate. }
  destruct (counters_stay_bounded hdr0 clk0 st_confirmed H) as (_ & Hn & _).
  split; [exact H|]. split; [reflexivity|].
  split; [exact (Hn 3%nat 0xA1B2 2 eq_refl)|].
  vm_compute. reflexivity.
Defined.

(** ** What the radio interface is told *)

Lemma announced_ensemble_new (evs : list Event) (eId : Z) :
  announced_ensemble (evs ++ [onNewEnsemble eId]) = Some eId.
Proof.
  unfold announced_ensemble. rewrite omap_app. cbn. apply last_snoc.
Qed.

Lemma announced_ensemble_other (evs : list Event) (e : Event) :
  (forall eId, e <> onNewEnsemble eId) ->
  announced_ensemble (evs ++ [e]) = announced_ensemble evs.
Proof.
  intros He. unfold announced_ensemble. rewrite omap_app.
  destruct e; cbn; rewrite ?app_nil_r; try reflexivity.
  exfalso. exact (He _ eq_refl).
Qed.

Lemma update_ensemble_in_sync hdr e0 st st' :
  update hdr st st' -> ensemble_in_sync e0 st -> ensemble_in_sync e0 st'.
Proof.
  intros Hu H. unfold ensemble_in_sync, getEnsembleId in *.
  destruct Hu; try exact H; cbn [events ensembleId emit set_ensembleId set_services].
  - rewrite announced_ensemble_new. reflexivity.
  - rewrite announced_ensemble_other by discriminate. exact H.
  - rewrite announced_ensemble_other by discriminate. exact H.
  - rewrite announced_ensemble_other; [exact H|].
    intros eId ->. contradiction.
Qed.

(** X7: the ensemble id that [getEnsembleId] returns is the one the
    radio interface was last given through [onNewEnsemble] (or still the
    initial one, if no call was made): [processFIB] keeps the two in
    step, and so do [clearEnsemble] and [dropService], which touch
    neither.  [clearEnsemble] in particular leaves the id of the previous
    ensemble in place, so the same ensemble received again is not
    announced again. *)
Theorem ensemble_id_announced (hdr : Header) (clk : Clock) (e0 : Z) (st : State) :
  ensemble_in_sync e0 st ->
  (forall p fib, ensemble_in_sync e0 (processFIB hdr clk p fib st).1) /\
  (forall SId, ensemble_in_sync e0 (dropService SId st)) /\
  ensemble_in_sync e0 (clearEnsemble clk st) /\
  (forall clk' d,
     getBits d 16 16 = getEnsembleId st ->
     events (FIG0Extension0 clk' d (clearEnsemble clk st)) = events st).
Proof.
  intros H.
  split.
  { intros p fib.
    exact (updates_inv hdr (ensemble_in_sync e0) (update_ensemble_in_sync hdr e0) _ _
             (processFIB_updates hdr clk p fib st) H). }
  split; [intros SId; exact H|].
  split; [exact H|].
  intros clk' d Hd. unfold FIG0Extension0, getEnsembleId in *.
  cbn [ensembleId clearEnsemble set_timeLastFCT0Frame set_timeLastServiceDecrement
       set_serviceRepeatCount set_services set_subChannels set_components].
  rewrite Hd. rewrite bool_decide_eq_false_2 by (intros Hne; apply Hne; reflexivity).
  destruct (_ =? 0); reflexivity.
Qed.

(** A new processor, and after the FIB that carries ensemble id
    [0x1234]. *)
Lemma ensemble_id_announced_witness :
  ensemble_in_sync 0 st0 /\
  ensemble_in_sync 0 (processFIB hdr0 clk0 fib_subch 0 st0).1 /\
  getEnsembleId (processFIB hdr0 clk0 fib_subch 0 st0).1 = 0x1234.
Proof.
  assert (H : ensemble_in_sync 0 st0) by reflexivity.
  split; [exact H|].
  destruct (ensemble_id_announced hdr0 clk0 0 st0 H) as (Hp & _).
  split; [exact (Hp fib_subch 0)|].
  vm_compute. reflexivity.
Defined.

Lemma getBits_4_range (d : bitvec) (offset : Z) : 0 <= getBits_4 d offset < 16.
Proof. apply (getBits_range d offset 4). lia. Qed.

Lemma update_timeOffsetReceived hdr st st' :
  update hdr st st' ->
  timeOffsetReceived st = true -> timeOffsetReceived st' = true.
Proof. intros Hu H. destruct Hu; try exact H. reflexivity. Qed.

Lemma update_time_gated hdr st st' :
  update hdr st st' -> time_gated st -> time_gated st'.
Proof.
  intros Hu H. unfold time_gated in *.
  destruct Hu; try exact H; cbn [events timeOffsetReceived emit set_ensembleId
    set_services set_ensembleEcc set_timeOffsetReceived set_dateTime];
    try discriminate.
  - intros Hf dt Hin. apply elem_of_app in Hin as [Hin|Hin]; [exact (H Hf dt Hin)|].
    apply list_elem_of_singleton in Hin. discriminate.
  - intros Hf dt Hin. apply elem_of_app in Hin as [Hin|Hin]; [exact (H Hf dt Hin)|].
    apply list_elem_of_singleton in Hin. discriminate.
  - intros Hf. congruence.
  - intros Hf dt Hin. apply elem_of_app in Hin as [Hin|Hin]; [exact (H Hf dt Hin)|].
    apply list_elem_of_singleton in Hin. subst e. contradiction.
Qed.

(** X8: date and time reach the radio interface only behind a time
    offset.  FIG 0/9 stores an hour offset between -15 and 15 and a
    minute offset of 0 or 30, sets [timeOffsetReceived] and makes no
    call; FIG 0/10 calls [onDateTimeUpdate] with the date just stored if
    and only if the flag is set, and keeps the two offsets.  Under
    [processFIB] the flag, once set, stays set, and no
    [onDateTimeUpdate] is in the log of a processor whose flag is not
    set; [clearEnsemble] keeps the flag and the stored date. *)
Theorem date_time_gating (hdr : Header) (clk : Clock) (d : bitvec) (st : State) :
  let st9 := FIG0Extension9 d st in
  let st10 := FIG0Extension10 d st in
  (timeOffsetReceived st9 = true /\ events st9 = events st /\
   - 15 <= dt_hourOffset (dateTime st9) <= 15 /\
   (dt_minuteOffset (dateTime st9) = 0 \/ dt_minuteOffset (dateTime st9) = 30)) /\
  (events st10 =
     (if timeOffsetReceived st then events st ++ [onDateTimeUpdate (dateTime st10)]
      else events st) /\
   timeOffsetReceived st10 = timeOffsetReceived st /\
   dt_hourOffset (dateTime st10) = dt_hourOffset (dateTime st) /\
   dt_minuteOffset (dateTime st10) = dt_minuteOffset (dateTime st)) /\
  (forall p fib,
     let st' := (processFIB hdr clk p fib st).1 in
     (timeOffsetReceived st = true -> timeOffsetReceived st' = true) /\
     (time_gated st -> time_gated st')) /\
  (timeOffsetReceived (clearEnsemble clk st) = timeOffsetReceived st /\
   dateTime (clearEnsemble clk st) = dateTime st).
Proof.
  cbv zeta. split; [|split; [|split]].
  - split; [reflexivity|]. split; [reflexivity|].
    unfold FIG0Extension9.
    cbn [dateTime set_ensembleEcc set_timeOffsetReceived set_dateTime
         dt_hourOffset dt_minuteOffset].
    pose proof (getBits_4_range d (16 + 3)) as Hr.
    split; [destruct (_ =? 1); lia|]. destruct (_ =? 1); auto.
  - unfold FIG0Extension10. destruct (mjd_to_date _) as [[Y M] D].
    cbn [timeOffsetReceived set_dateTime].
    destruct (timeOffsetReceived st) eqn:Et; repeat split; try reflexivity; exact Et.
  - intros p fib. split.
    + exact (updates_inv hdr (fun s => timeOffsetReceived s = true)
               (update_timeOffsetReceived hdr) _ _
               (processFIB_updates hdr clk p fib st)).
    + exact (updates_inv hdr time_gated (update_time_gated hdr) _ _
               (processFIB_updates hdr clk p fib st)).
  - split; reflexivity.
Qed.

(** ** The handlers that fill the subchannel table *)

Lemma list_alter_insert {A} (f : A -> A) (i : nat) (l : list A) (x : A) :
  l !! i = Some x -> alter f i l = <[i := f x]> l.
Proof.
  intros Hx. rewrite list_insert_alter. apply list_alter_ext; [|reflexivity].
  intros y Hy. congruence.
Qed.

Lemma getSubchannel_index (sc : ServiceComponent) (st : State) (sub : Subchannel) :
  0 <= sc_subchannelId sc < 2 ^ 64 ->
  subChannels st !! Z.to_nat (sc_subchannelId sc) = Some sub ->
  getSubchannel sc st = inl sub.
Proof.
  intros Hr Hs. unfold getSubchannel, size_t_of.
  rewrite Z.mod_small by exact Hr. rewrite Hs. reflexivity.
Qed.

(** X9: one FIG 0/1 record defines the slot of its subchannel id.  On a
    table of 64 slots the record replaces exactly the slot at the index
    of its 6-bit id; the new entry carries that id, the start address
    and the programme flag, and [getSubchannel] returns it for every
    component on that subchannel.  The size comes from the protection
    table (short form) or from the record (long form, option 0 or 1);
    with any other option the slot is marked defined but keeps the size
    it had.  Language and FEC scheme of the slot survive the
    (re)definition.  Nothing else is written. *)
Theorem HandleFIG0Extension1_defines (hdr : Header) (d : bitvec) (offset pd : Z)
    (st : State) :
  let bitOffset := offset * 8 in
  let subChId := getBits_6 d bitOffset in
  let short := getBits_1 d (bitOffset + 16) =? 0 in
  let option := getBits_3 d (bitOffset + 17) in
  let st' := (HandleFIG0Extension1 hdr d offset pd st).2 in
  length (subChannels st) = 64%nat ->
  exists old new,
    subChannels st !! Z.to_nat subChId = Some old /\
    st' = set_subChannels (<[Z.to_nat subChId := new]> (subChannels st)) st /\
    (forall sc, sc_subchannelId sc = subChId -> getSubchannel sc st' = inl new) /\
    sub_subChId new = subChId /\
    sub_startAddr new = getBits d (bitOffset + 6) 10 /\
    sub_programmeNotData new = pd /\
    ps_shortForm (sub_protectionSettings new) = short /\
    sub_length new =
      (if short then ProtLevel hdr (getBits_6 d (bitOffset + 18)) 0
       else if (option =? 0) || (option =? 1) then getBits d (bitOffset + 22) 10
       else sub_length old) /\
    sub_language new = sub_language old /\
    sub_fecScheme new = sub_fecScheme old.
Proof.
  cbv zeta. intros Hlen.
  pose proof (getBits_6_range d (offset * 8)) as Hr.
  destruct (lookup_lt_is_Some_2 (subChannels st) (Z.to_nat (getBits_6 d (offset * 8))))
    as [old Hold]; [lia|].
  assert (Hget : forall new sc,
            sc_subchannelId sc = getBits_6 d (offset * 8) ->
            getSubchannel sc
              (set_subChannels
                 (<[Z.to_nat (getBits_6 d (offset * 8)) := new]> (subChannels st)) st)
            = inl new).
  { intros new sc Hsc. apply getSubchannel_index.
    - rewrite Hsc. change (2 ^ 64) with 18446744073709551616. lia.
    - rewrite Hsc. cbn [subChannels set_subChannels].
      apply list_lookup_insert_eq. lia. }
  exists old. unfold HandleFIG0Extension1.
  destruct (getBits_1 d (offset * 8 + 16) =? 0); [|destruct (_ || _)]; cbn [snd];
    rewrite ?list_alter_alter_eq, (list_alter_insert _ _ _ old Hold);
    eexists; (split; [exact Hold|]); (split; [reflexivity|]);
    (split; [apply Hget|]); repeat split; reflexivity.
Qed.

(** The FIG 0/1 of [fib_subch] on a new processor: subchannel 5, start
    address 64, long form, 72 capacity units. *)
Lemma HandleFIG0Extension1_defines_witness :
  length (subChannels st0) = 64%nat /\
  exists new,
    (forall sc, sc_subchannelId sc = 5 ->
       getSubchannel sc (HandleFIG0Extension1 hdr0 (advance fib_subch 48) 2 0 st0).2
       = inl new) /\
    sub_subChId new = 5 /\ sub_startAddr new = 64 /\ sub_length new = 72.
Proof.
  split; [reflexivity|].
  destruct (HandleFIG0Extension1_defines hdr0 (advance fib_subch 48) 2 0 st0 eq_refl)
    as (old & new & Hold & _ & Hget & Hid & Hstart & _ & _ & Hlen & _).
  exists new. split; [exact Hget|].
  split; [exact Hid|]. split; [exact Hstart|]. exact Hlen.
Defined.

Lemma set_subChannels_same (st : State) : set_subChannels (subChannels st) st = st.
Proof. destruct st. reflexivity. Qed.

Lemma set_fec_defined (subChId fecScheme : Z) (st : State) (sub : Subchannel) :
  subtable_ok st ->
  0 <= subChId ->
  subChannels st !! Z.to_nat subChId = Some sub ->
  set_fec subChId fecScheme (subChannels st) =
  if bool_decide (sub_valid sub)
  then <[Z.to_nat subChId := set_sub_fecScheme fecScheme sub]> (subChannels st)
  else subChannels st.
Proof.
  intros [Hlen Hid] Hpos Hsub. rewrite set_fec_fmap by exact Hlen.
  apply list_eq. intros j. rewrite list_lookup_fmap.
  assert (Hother : j <> Z.to_nat subChId ->
            (fun s => if sub_subChId s =? subChId
                      then set_sub_fecScheme fecScheme s else s) <$> subChannels st !! j
            = subChannels st !! j).
  { intros Hj. destruct (subChannels st !! j) as [s|] eqn:Es; [|reflexivity].
    cbn. destruct (sub_subChId s =? subChId) eqn:E; [|reflexivity].
    apply Z.eqb_eq in E. destruct (Hid j s Es); lia. }
  case_bool_decide as Hv.
  - destruct (decide (j = Z.to_nat subChId)) as [->|Hj].
    + rewrite Hsub, list_lookup_insert_eq by (apply lookup_lt_Some in Hsub; exact Hsub).
      cbn. destruct (Hid _ _ Hsub) as [Hbad|Hi]; [contradiction|].
      rewrite Hi, Z2Nat.id, Z.eqb_refl by exact Hpos. reflexivity.
    + rewrite list_lookup_insert_ne by congruence. apply Hother, Hj.
  - destruct (decide (j = Z.to_nat subChId)) as [->|Hj]; [|apply Hother, Hj].
    rewrite Hsub. cbn.
    assert (E : sub_subChId sub = -1).
    { destruct (decide (sub_subChId sub = -1)) as [E|E]; [exact E|].
      exfalso. apply Hv. exact E. }
    rewrite E. destruct (-1 =? subChId) eqn:E'; [apply Z.eqb_eq in E'; lia|reflexivity].
Qed.

(** X10: the two attributes that can arrive for a subchannel are filed
    differently.  FIG 0/14 searches the table for the id: on a table
    whose valid slots sit at the index of their id, the FEC scheme is
    stored in the slot of that id if the subchannel has been defined,
    and is dropped if it has not.  FIG 0/5 (short form, MSC) indexes the
    table by the id: the language is stored in the slot whether or not
    the subchannel has been defined, and the slot stays as undefined as
    it was; the long form and the FIC form write nothing. *)
Theorem subchannel_attributes (d : bitvec) (used : Z) (st : State) :
  subtable_ok st ->
  (let subChId := getBits_6 d (used * 8) in
   let fecScheme := getBits_2 d (used * 8 + 6) in
   let st' := (HandleFIG0Extension14 d used st).2 in
   exists sub,
     subChannels st !! Z.to_nat subChId = Some sub /\
     (sub_valid sub ->
      st' = set_subChannels
              (<[Z.to_nat subChId := set_sub_fecScheme fecScheme sub]> (subChannels st))
              st) /\
     (~ sub_valid sub -> st' = st)) /\
  (let subChId := getBits_6 d (used * 8 + 2) in
   let language := getBits_8 d (used * 8 + 8) in
   let st' := (HandleFIG0Extension5 d used st).2 in
   exists sub,
     subChannels st !! Z.to_nat subChId = Some sub /\
     (getBits_1 d (used * 8) = 0 /\ getBits_1 d (used * 8 + 1) = 0 ->
      st' = set_subChannels
              (<[Z.to_nat subChId := set_sub_language language sub]> (subChannels st))
              st /\
      sub_subChId (set_sub_language language sub) = sub_subChId sub) /\
     (~ (getBits_1 d (used * 8) = 0 /\ getBits_1 d (used * 8 + 1) = 0) ->
      st' = st)).
Proof.
  intros H. cbv zeta. split.
  - pose proof (getBits_6_range d (used * 8)) as Hr.
    destruct (lookup_lt_is_Some_2 (subChannels st) (Z.to_nat (getBits_6 d (used * 8))))
      as [sub Hsub]; [rewrite (proj1 H); lia|].
    exists sub. split; [exact Hsub|].
    unfold HandleFIG0Extension14. cbn [snd].
    rewrite (set_fec_defined _ _ st sub H (proj1 Hr) Hsub).
    split; intros Hv.
    + rewrite bool_decide_eq_true_2 by exact Hv. reflexivity.
    + rewrite bool_decide_eq_false_2 by exact Hv. apply set_subChannels_same.
  - pose proof (getBits_6_range d (used * 8 + 2)) as Hr.
    destruct (lookup_lt_is_Some_2 (subChannels st)
                (Z.to_nat (getBits_6 d (used * 8 + 2))))
      as [sub Hsub]; [rewrite (proj1 H); lia|].
    exists sub. split; [exact Hsub|].
    unfold HandleFIG0Extension5.
    destruct (getBits_1 d (used * 8) =? 0) eqn:E1;
      [apply Z.eqb_eq in E1; destruct (getBits_1 d (used * 8 + 1) =? 0) eqn:E2;
       [apply Z.eqb_eq in E2|apply Z.eqb_neq in E2]
      |apply Z.eqb_neq in E1]; cbn [snd].
    + split; [|intros Hn; exfalso; apply Hn; auto].
      intros _. rewrite (list_alter_insert _ _ _ sub Hsub). split; reflexivity.
    + split; [intros [_ Hb]; contradiction|reflexivity].
    + split; [intros [Hb _]; contradiction|reflexivity].
Qed.

(** A new processor: no subchannel is defined, and the FEC scheme that a
    FIG 0/14 carries for subchannel 5 is dropped. *)
Lemma subchannel_attributes_witness :
  subtable_ok st0 /\
  (HandleFIG0Extension14 (fib_of_bytes [0x05; 0x0E; 0x15; 0x19]) 2 st0).2 = st0.
Proof.
  split; [exact subtable_st0|].
  destruct (subchannel_attributes (fib_of_bytes [0x05; 0x0E; 0x15; 0x19]) 2 st0
              subtable_st0) as [(sub & Hsub & _ & Hn) _].
  apply Hn.
  change (subChannels st0) with (replicate 64 Subchannel_init) in Hsub.
  apply lookup_replicate in Hsub as [-> _].
  intros Hv. apply Hv. reflexivity.
Defined.

(** X11: one FIG 0/3 record completes a packet-mode component.  The
    record is ignored when no component of transport mode 3 carries its
    SCId; otherwise the first such component receives the subchannel id,
    the data service type, the data group flag and the packet address of
    the record, and nothing else changes.  As the id is a 6-bit field,
    [getSubchannel] on a table of 64 slots then returns a slot for the
    component, where it fails for a packet component that has not had
    its FIG 0/3. *)
Theorem HandleFIG0Extension3_packet (d : bitvec) (used : Z) (st : State) :
  let SCId := getBits d (used * 8) 12 in
  let st' := (HandleFIG0Extension3 d used st).2 in
  (findPacketComponent SCId st = None -> st' = st) /\
  (forall i c,
     findPacketComponent SCId st = Some (i, c) ->
     exists c',
       st' = set_components (<[i := c']> (components st)) st /\
       sc_TMid c = 3 /\ sc_SCId c = SCId /\
       (forall (j : nat) c0, (j < i)%nat -> components st !! j = Some c0 ->
          ~ (sc_TMid c0 = 3 /\ sc_SCId c0 = SCId)) /\
       sc_subchannelId c' = getBits_6 d (used * 8 + 24) /\
       sc_DSCTy c' = getBits_6 d (used * 8 + 18) /\
       sc_DGflag c' = getBits_1 d (used * 8 + 16) /\
       sc_packetAddress c' = getBits d (used * 8 + 30) 10 /\
       (sc_TMid c', sc_SId c', sc_componentNr c', sc_SCId c', sc_componentLabel c')
       = (sc_TMid c, sc_SId c, sc_componentNr c, sc_SCId c, sc_componentLabel c) /\
       (length (subChannels st) = 64%nat ->
        exists sub, getSubchannel c' st' = inl sub)).
Proof.
  cbv zeta. unfold HandleFIG0Extension3. split.
  - intros ->. reflexivity.
  - intros i c Hf. rewrite Hf. cbn [snd].
    unfold findPacketComponent in Hf.
    apply list_find_Some in Hf as (Hc & [Ht Hs] & Hfirst).
    rewrite (list_alter_insert _ _ _ c Hc).
    eexists. split; [reflexivity|].
    split; [exact Ht|]. split; [exact Hs|].
    split; [intros j c0 Hj Hc0; exact (Hfirst j c0 Hc0 Hj)|].
    split; [reflexivity|]. split; [reflexivity|]. split; [reflexivity|].
    split; [reflexivity|]. split; [reflexivity|].
    intros Hlen.
    pose proof (getBits_6_range d (used * 8 + 24)) as Hr.
    destruct (lookup_lt_is_Some_2 (subChannels st)
                (Z.to_nat (getBits_6 d (used * 8 + 24)))) as [sub Hsub]; [lia|].
    exists sub. apply getSubchannel_index.
    + cbn [sc_subchannelId]. change (2 ^ 64) with 18446744073709551616. lia.
    + exact Hsub.
Qed.

(** ** FIG 1 labels *)

Lemma c_str_spec (chars : list Z) :
  (length (c_str chars) <= length chars)%nat /\
  c_str chars `prefix_of` chars /\
  (0 ∉ c_str chars) /\
  ((length (c_str chars) < length chars)%nat ->
   chars !! length (c_str chars) = Some 0).
Proof.
  induction chars as [|c rest (IH1 & IH2 & IH3 & IH4)]; cbn [c_str].
  - split; [lia|]. split; [reflexivity|]. split; [apply not_elem_of_nil|].
    cbn. lia.
  - destruct (c =? 0) eqn:E.
    + apply Z.eqb_eq in E. subst c.
      split; [cbn; lia|]. split; [apply prefix_nil|].
      split; [apply not_elem_of_nil|]. reflexivity.
    + apply Z.eqb_neq in E.
      split; [cbn; lia|]. split; [apply prefix_cons, IH2|]. split.
      * intros Hin. apply elem_of_cons in Hin as [Hin|Hin]; [congruence|].
        exact (IH3 Hin).
      * cbn. intros Hlt. apply IH4. lia.
Qed.

Lemma length_read_bytes (d : bitvec) (bitOffset n : Z) :
  length (read_bytes d bitOffset n) = Z.to_nat n.
Proof. unfold read_bytes. rewrite length_map, length_seq. reflexivity. Qed.

Lemma read_bytes_range (d : bitvec) (bitOffset n b : Z) :
  b ∈ read_bytes d bitOffset n -> 0 <= b < 256.
Proof.
  unfold read_bytes. intros Hin. apply list_elem_of_In, in_map_iff in Hin.
  destruct Hin as (i & <- & _). apply (getBits_range d _ 8). lia.
Qed.

Lemma list_find_alter {A} (P : A -> Prop) `{!forall x, Decision (P x)}
    (f : A -> A) (l : list A) (i : nat) (x : A) :
  (forall y, P (f y) <-> P y) ->
  list_find P l = Some (i, x) ->
  list_find P (alter f i l) = Some (i, f x).
Proof.
  intros Hf Hx. apply list_find_Some in Hx as (Hl & HP & Hfirst).
  apply list_find_Some. split; [|split].
  - rewrite list_lookup_alter, decide_True by reflexivity. rewrite Hl. reflexivity.
  - apply Hf, HP.
  - intros j y Hj Hlt. rewrite list_lookup_alter_ne in Hj by lia.
    exact (Hfirst j y Hj Hlt).
Qed.

Lemma list_alter_twice {A} (f g : A -> A) (i : nat) (l : list A) :
  (forall x, f (g x) = g x) -> alter f i (alter g i l) = alter g i l.
Proof.
  intros H. rewrite list_alter_alter_eq. apply list_alter_ext; [|reflexivity].
  intros x _. apply H.
Qed.

(** X12: what a FIG 1 does to the store.  A label whose target is not
    there is dropped, not kept for later: other ensemble, service not
    (yet) in the list, component not bound; so are the labels of the
    other-ensemble flag and of extensions 2, 3, 6 and 7.  A label that is
    applied is the 16 characters of the FIG cut at the first NUL: at
    most 16 bytes, none of them 0.  Only labels and the call log change.
    A service label is stored in the first service with that id and
    reported through [onSetServiceLabel]; the FIG 2 state of the label is
    kept.  Receiving the same FIG again leaves the store as it is. *)
Theorem process_FIG1_labels (hdr : Header) (d : bitvec) (st : State) :
  let oe := getBits_1 d (8 + 4) in
  let extension := getBits_3 d (8 + 5) in
  let st' := process_FIG1 d st in
  (oe = 1 \/ extension = 2 \/ extension = 3 \/ extension = 6 \/ extension = 7 ->
   st' = st) /\
  (extension = 0 -> getBits d 16 16 <> ensembleId st -> st' = st) /\
  (extension = 1 -> getBits d 16 16 ∉ service_ids st -> st' = st) /\
  (extension = 5 -> getBits d 16 32 ∉ service_ids st -> st' = st) /\
  (extension = 4 ->
   findComponent (if getBits d 16 1 =? 0 then getBits d 24 16 else getBits d 24 32)
     (getBits d 20 4) st = None ->
   st' = st) /\
  (forall offset,
     let label := c_str (read_bytes d offset 16) in
     (length label <= 16)%nat /\
     label `prefix_of` read_bytes d offset 16 /\
     (forall b, b ∈ label -> 0 < b < 256)) /\
  (service_ids st' = service_ids st /\ component_keys st' = component_keys st /\
   subChannels st' = subChannels st /\
   serviceRepeatCount st' = serviceRepeatCount st /\
   ensembleId st' = ensembleId st /\ dateTime st' = dateTime st) /\
  (oe <> 1 -> extension = 1 ->
   forall i s, findServiceId (getBits d 16 16) st = Some (i, s) ->
     let l := svc_serviceLabel (getService hdr (getBits d 16 16) st') in
     st' = emit (onSetServiceLabel (getBits d 16 16) l)
             (set_services (<[i := set_svc_serviceLabel l s]> (services st)) st) /\
     lbl_fig1_label l = c_str (read_bytes d 32 16) /\
     lbl_fig1_flag l = getBits d 160 16 /\
     lbl_charset l = getBits_4 d 8 /\
     (lbl_toggle_flag l, lbl_segments l, lbl_extended_label_charset l,
      lbl_segment_count l, lbl_fig2_rfu l)
     = (let l0 := svc_serviceLabel s in
        (lbl_toggle_flag l0, lbl_segments l0, lbl_extended_label_charset l0,
         lbl_segment_count l0, lbl_fig2_rfu l0))) /\
  (services (process_FIG1 d st') = services st' /\
   components (process_FIG1 d st') = components st' /\
   ensembleLabel (process_FIG1 d st') = ensembleLabel st').
Proof.
  cbv zeta.
  split.
  { unfold process_FIG1. intros [H|H].
    - rewrite H. reflexivity.
    - destruct (_ =? 1); [reflexivity|].
      destruct H as [H|[H|[H|H]]]; rewrite H; reflexivity. }
  split.
  { unfold process_FIG1. intros H Hne. rewrite H.
    destruct (_ =? 1); [reflexivity|]. cbn [Z.eqb].
    rewrite (proj2 (Z.eqb_neq _ _) Hne), andb_false_r. reflexivity. }
  split.
  { unfold process_FIG1. intros H Hne. rewrite H.
    destruct (_ =? 1); [reflexivity|]. cbn [Z.eqb orb Pos.eqb].
    apply findServiceId_None in Hne. rewrite Hne. reflexivity. }
  split.
  { unfold process_FIG1. intros H Hne. rewrite H.
    destruct (_ =? 1); [reflexivity|]. cbn [Z.eqb orb Pos.eqb].
    apply findServiceId_None in Hne. rewrite Hne. reflexivity. }
  split.
  { unfold process_FIG1. intros H Hne. rewrite H.
    destruct (_ =? 1); [reflexivity|]. cbn [Z.eqb orb Pos.eqb].
    rewrite Hne. reflexivity. }
  split.
  { intros offset.
    destruct (c_str_spec (read_bytes d offset 16)) as (H1 & H2 & H3 & _).
    rewrite length_read_bytes in H1.
    split; [exact H1|]. split; [exact H2|].
    intros b Hb.
    assert (Hr : 0 <= b < 256).
    { apply (read_bytes_range d offset 16).
      destruct H2 as [k ->]. apply elem_of_app. left. exact Hb. }
    assert (b <> 0) by (intros ->; exact (H3 Hb)). lia. }
  split.
  { unfold process_FIG1.
    destruct (_ =? 1); [repeat split; reflexivity|].
    destruct (_ =? 0); [destruct (_ && _); repeat split; reflexivity|].
    destruct (_ || _).
    { destruct (findServiceId _ st) as [[i s]|]; [|repeat split; reflexivity].
      repeat split; try reflexivity.
      unfold service_ids. cbn. apply fmap_alter_same. reflexivity. }
    destruct (_ =? 4); [|repeat split; reflexivity].
    destruct (findComponent _ _ st) as [[i c]|]; [|repeat split; reflexivity].
    repeat split; try reflexivity.
    unfold component_keys. cbn. apply fmap_alter_same. reflexivity. }
  split.
  { intros Hoe Hext i s Hf. unfold process_FIG1. rewrite Hext.
    destruct (getBits_1 d (8 + 4) =? 1) eqn:E; [apply Z.eqb_eq in E; contradiction|].
    cbn [Z.eqb orb Pos.eqb]. rewrite Hf.
    set (l := set_fig1 _ _ _ _).
    assert (Hg : getService hdr (getBits d 16 16)
                   (emit (onSetServiceLabel (getBits d 16 16) l)
                      (set_services (alter (set_svc_serviceLabel l) i (services st)) st))
                 = set_svc_serviceLabel l s).
    { unfold getService. cbn [services emit set_services].
      unfold findServiceId in Hf.
      rewrite (list_find_alter (fun s0 => svc_serviceId s0 = getBits d 16 16)
                 (set_svc_serviceLabel l) _ i s (fun _ => iff_refl _) Hf).
      reflexivity. }
    rewrite Hg. cbn [svc_serviceLabel set_svc_serviceLabel].
    apply findServiceId_Some in Hf as (Hs & _).
    rewrite (list_alter_insert _ _ _ s Hs).
    repeat split; reflexivity. }
  unfold process_FIG1.
  destruct (_ =? 1); [repeat split; reflexivity|].
  destruct (getBits_3 d (8 + 5) =? 0).
  { destruct ((getBits_1 d (8 + 4) =? 0) && (getBits d 16 16 =? ensembleId st)) eqn:E;
      cbn [ensembleId emit set_ensembleLabel]; rewrite E;
      repeat split; reflexivity. }
  destruct (_ || _).
  { destruct (findServiceId _ st) as [[i s]|] eqn:Hf.
    - unfold findServiceId in *. cbn [services emit set_services].
      match type of Hf with
      | list_find ?P _ = _ =>
        rewrite (list_find_alter P (set_svc_serviceLabel _) _ i s
                   (fun _ => iff_refl _) Hf)
      end.
      cbn [services components ensembleLabel emit set_services].
      repeat split; try reflexivity.
      apply list_alter_twice. reflexivity.
    - rewrite Hf. repeat split; reflexivity. }
  destruct (_ =? 4); [|repeat split; reflexivity].
  destruct (findComponent _ _ st) as [[i c]|] eqn:Hf.
  - unfold findComponent in *. cbn [components set_components].
    match type of Hf with
    | list_find ?P _ = _ =>
      rewrite (list_find_alter P (set_sc_componentLabel _) _ i c
                 (fun _ => iff_refl _) Hf)
    end.
    cbn [services components ensembleLabel set_components].
    repeat split; try reflexivity.
    apply list_alter_twice. reflexivity.
  - rewrite Hf. repeat split; reflexivity.
Qed.

(** ** FIG 2 extended labels *)

(** The label a data field leaves, when it is accepted; whether it is
    accepted, and what it stores, does not depend on the label. *)
Lemma handle_ext_label_form fig_bytes f len_bytes toggle_flag segment_index rfu
    label :
  (handle_ext_label_data_field fig_bytes f len_bytes toggle_flag segment_index rfu
     label).2 = None ->
  forall label',
    let skip := if segment_index =? 0 then (if rfu =? 0 then 3 else 1) else 0 in
    let fresh := bool_decide (lbl_toggle_flag label' <> toggle_flag) in
    handle_ext_label_data_field fig_bytes f len_bytes toggle_flag segment_index rfu
      label'
    = (mkDabLabel (lbl_fig1_label label') (lbl_fig1_flag label') (lbl_charset label')
         toggle_flag
         (<[segment_index :=
              map (byte_at fig_bytes (f + Z.to_nat skip))
                (seq 0 (Z.to_nat (len_bytes - skip)))]>
            (if fresh then ∅ else lbl_segments label'))
         (if segment_index =? 0
          then if Z.shiftr (Z.land (byte_at fig_bytes f 0) 128) 7 =? 0
               then UnicodeUtf8 else UnicodeUcs2
          else if fresh then Undefined else lbl_extended_label_charset label')
         (if segment_index =? 0
          then Z.shiftr (Z.land (byte_at fig_bytes f 0) 112) 4 + 1
          else lbl_segment_count label')
         (if segment_index =? 0 then rfu else lbl_fig2_rfu label'),
       None).
Proof.
  unfold handle_ext_label_data_field.
  destruct (segment_index =? 0).
  - destruct (rfu =? 0); destruct (len_bytes <=? _); cbn [snd]; try discriminate;
      intros _ [a b c tg segs cs0 cnt0 r0]; cbv zeta;
      cbn [lbl_toggle_flag]; (case_bool_decide as Ht; [|subst tg]);
      reflexivity.
  - intros _ [a b c tg segs cs0 cnt0 r0]. cbv zeta.
    rewrite Nat.add_0_r, Z.sub_0_r.
    cbn [lbl_toggle_flag]. case_bool_decide as Ht; [|subst tg]; reflexivity.
Qed.

(** X13: what a FIG 2 data field that is accepted stores.  The segment
    is filed under its index: the bytes of the data field behind the
    three (or, with the rfu bit, one) leading bytes of segment 0, all of
    the data field for the other segments.  The segments filed before
    stay if the toggle flag is the one of the label, and are discarded
    if it differs.  The FIG 1 label, its flag and its character set are
    not touched.  Only segment 0 sets the segment count, the character
    set of the extended label and the rfu bit. *)
Theorem handle_ext_label_stores (fig_bytes : list Z) (f : nat)
    (len_bytes toggle_flag segment_index rfu : Z) (label : DabLabel) :
  let r := handle_ext_label_data_field fig_bytes f len_bytes toggle_flag
             segment_index rfu label in
  let skip := if segment_index =? 0 then (if rfu =? 0 then 3 else 1) else 0 in
  let fresh := bool_decide (lbl_toggle_flag label <> toggle_flag) in
  r.2 = None ->
  lbl_toggle_flag r.1 = toggle_flag /\
  lbl_segments r.1 !! segment_index =
    Some (map (byte_at fig_bytes (f + Z.to_nat skip))
            (seq 0 (Z.to_nat (len_bytes - skip)))) /\
  (forall j, j <> segment_index ->
     lbl_segments r.1 !! j = if fresh then None else lbl_segments label !! j) /\
  (lbl_fig1_label r.1, lbl_fig1_flag r.1, lbl_charset r.1)
  = (lbl_fig1_label label, lbl_fig1_flag label, lbl_charset label) /\
  (segment_index <> 0 ->
   lbl_segment_count r.1 = lbl_segment_count label /\
   lbl_fig2_rfu r.1 = lbl_fig2_rfu label /\
   lbl_extended_label_charset r.1 =
     if fresh then Undefined else lbl_extended_label_charset label) /\
  (segment_index = 0 ->
   lbl_segment_count r.1 = Z.shiftr (Z.land (byte_at fig_bytes f 0) 112) 4 + 1 /\
   lbl_fig2_rfu r.1 = rfu /\
   lbl_extended_label_charset r.1 =
     if Z.shiftr (Z.land (byte_at fig_bytes f 0) 128) 7 =? 0
     then UnicodeUtf8 else UnicodeUcs2).
Proof.
  cbv zeta. intros H.
  rewrite (handle_ext_label_form _ _ _ _ _ _ _ H label). cbv zeta.
  cbn [fst lbl_fig1_label lbl_fig1_flag lbl_charset lbl_toggle_flag lbl_segments
       lbl_extended_label_charset lbl_segment_count lbl_fig2_rfu].
  split; [reflexivity|].
  split; [apply lookup_insert_eq|].
  split.
  { intros j Hj. rewrite lookup_insert_ne by congruence.
    destruct (bool_decide _); [apply lookup_empty|reflexivity]. }
  split; [reflexivity|].
  split.
  - intros Hn. apply Z.eqb_neq in Hn. rewrite Hn. repeat split; reflexivity.
  - intros ->. repeat split; reflexivity.
Qed.

(** Segment 1 of a label, five bytes, on the empty label of a new
    service whose toggle flag differs. *)
Lemma handle_ext_label_stores_witness :
  let r := handle_ext_label_data_field [0; 0; 0; 0; 72; 101; 108; 108; 111] 4 5 0 1 0
             label0 in
  r.2 = None /\
  lbl_segments r.1 !! 1 = Some [72; 101; 108; 108; 111] /\
  lbl_toggle_flag r.1 = 0.
Proof.
  cbv zeta. split; [reflexivity|].
  destruct (handle_ext_label_stores [0; 0; 0; 0; 72; 101; 108; 108; 111] 4 5 0 1 0
              label0 eq_refl) as (Ht & Hs & _).
  split; [exact Hs|exact Ht].
Defined.

(** X14: the segments of one label may arrive in any order, and twice.
    Two data fields of the same toggle flag and of different segment
    index, neither of which is refused for its length, leave the same
    label whichever is handled first, and neither is refused after the
    other; a data field handled a second time changes nothing. *)
Theorem handle_ext_label_any_order (fb1 fb2 : list Z) (f1 f2 : nat)
    (len1 len2 toggle_flag index1 index2 rfu1 rfu2 : Z) (label : DabLabel) :
  let h1 := handle_ext_label_data_field fb1 f1 len1 toggle_flag index1 rfu1 in
  let h2 := handle_ext_label_data_field fb2 f2 len2 toggle_flag index2 rfu2 in
  index1 <> index2 ->
  (h1 label).2 = None -> (h2 label).2 = None ->
  h2 (h1 label).1 = h1 (h2 label).1 /\
  (h2 (h1 label).1).2 = None /\
  h1 (h1 label).1 = h1 label.
Proof.
  cbv zeta. intros Hne H1 H2.
  pose proof (handle_ext_label_form _ _ _ _ _ _ _ H1) as F1.
  pose proof (handle_ext_label_form _ _ _ _ _ _ _ H2) as F2.
  cbv zeta in F1, F2. clear H1 H2.
  revert F1 F2.
  generalize (map (byte_at fb1 (f1 + Z.to_nat (if index1 =? 0 then if rfu1 =? 0 then 3 else 1 else 0)))
                (seq 0 (Z.to_nat (len1 - (if index1 =? 0 then if rfu1 =? 0 then 3 else 1 else 0))))).
  generalize (map (byte_at fb2 (f2 + Z.to_nat (if index2 =? 0 then if rfu2 =? 0 then 3 else 1 else 0)))
                (seq 0 (Z.to_nat (len2 - (if index2 =? 0 then if rfu2 =? 0 then 3 else 1 else 0))))).
  intros b2 b1 F1 F2.
  assert (Hsame : bool_decide (toggle_flag <> toggle_flag) = false)
    by (apply bool_decide_eq_false_2; tauto).
  rewrite (F1 label), (F2 label). cbn [fst]. rewrite !F1, !F2.
  cbn [fst snd lbl_fig1_label lbl_fig1_flag lbl_charset lbl_toggle_flag lbl_segments
       lbl_extended_label_charset lbl_segment_count lbl_fig2_rfu].
  rewrite !Hsame. cbv iota.
  split; [|split; [reflexivity|]].
  - rewrite (insert_insert_ne _ index2 index1) by congruence.
    destruct (index1 =? 0) eqn:E1; destruct (index2 =? 0) eqn:E2;
      try reflexivity.
    apply Z.eqb_eq in E1, E2. congruence.
  - rewrite insert_insert_eq. destruct (index1 =? 0); reflexivity.
Qed.

(** Segments 1 and 2 of a label, in both orders. *)
Lemma handle_ext_label_any_order_witness :
  let h1 := handle_ext_label_data_field [65; 66; 67; 68] 0 2 1 1 0 in
  let h2 := handle_ext_label_data_field [69; 70; 71; 72] 1 3 1 2 0 in
  h2 (h1 label0).1 = h1 (h2 label0).1 /\
  lbl_segments (h2 (h1 label0).1).1 !! 1 = Some [65; 66] /\
  lbl_segments (h2 (h1 label0).1).1 !! 2 = Some [70; 71; 72].
Proof.
  cbv zeta.
  destruct (handle_ext_label_any_order [65; 66; 67; 68] [69; 70; 71; 72] 0 1 2 3 1 1 2
              0 0 label0 ltac:(discriminate) eq_refl eq_refl) as (Hc & _).
  split; [exact Hc|]. split; reflexivity.
Defined.

Lemma handle_ext_label_keeps_fig1 fig_bytes f len_bytes toggle_flag segment_index
    rfu label :
  let r := handle_ext_label_data_field fig_bytes f len_bytes toggle_flag
             segment_index rfu label in
  (lbl_fig1_label r.1, lbl_fig1_flag r.1, lbl_charset r.1)
  = (lbl_fig1_label label, lbl_fig1_flag label, lbl_charset label).
Proof.
  cbv zeta. unfold handle_ext_label_data_field.
  destruct (segment_index =? 0);
    [destruct (rfu =? 0); destruct (len_bytes <=? _)|];
    cbn [fst]; case_bool_decide; reflexivity.
Qed.

Lemma fmap_alter_at {A B} (h : A -> B) (g : A -> A) (i : nat) (l : list A) (x : A) :
  l !! i = Some x -> h (g x) = h x -> h <$> alter g i l = h <$> l.
Proof.
  intros Hx Hg. apply list_eq. intros j.
  rewrite !list_lookup_fmap, list_lookup_alter.
  destruct (decide (i = j)) as [<-|_]; [|reflexivity].
  rewrite Hx. cbn. rewrite Hg. reflexivity.
Qed.

(** The four things [process_FIG2] can do: nothing, or hand the label of
    the ensemble, of the first service with the id, or of the first
    component with the pair to [handle_ext_label_data_field]. *)
Lemma process_FIG2_cases (d : bitvec) (st : State) :
  let handled (label l : DabLabel) (e : option exn) :=
    exists fig_bytes f len_bytes toggle_flag segment_index rfu,
      handle_ext_label_data_field fig_bytes f len_bytes toggle_flag segment_index rfu
        label = (l, e) in
  process_FIG2 d st = (st, None) \/
  (exists l e, handled (ensembleLabel st) l e /\
     process_FIG2 d st = (set_ensembleLabel l st, e)) \/
  (exists SId i s l e,
     findServiceId SId st = Some (i, s) /\ handled (svc_serviceLabel s) l e /\
     process_FIG2 d st
     = (set_services (alter (set_svc_serviceLabel l) i (services st)) st, e)) \/
  (exists SId SCIdS i c l e,
     findComponent SId SCIdS st = Some (i, c) /\ handled (sc_componentLabel c) l e /\
     process_FIG2 d st
     = (set_components (alter (set_sc_componentLabel l) i (components st)) st, e)).
Proof.
  cbv zeta. unfold process_FIG2.
  repeat match goal with
         | |- context [if ?b then _ else _] => destruct b
         | |- context [match findServiceId ?a ?b with _ => _ end] =>
           destruct (findServiceId a b) as [[? ?]|] eqn:?
         | |- context [match findComponent ?a ?b ?c with _ => _ end] =>
           destruct (findComponent a b c) as [[? ?]|] eqn:?
         | |- context [let '(_, _) := ?x in _] => destruct x eqn:?
         end;
  first [ left; reflexivity
        | right; left; do 2 eexists; split; [repeat eexists; eassumption|reflexivity]
        | right; right; left; do 5 eexists;
          split; [eassumption|split; [repeat eexists; eassumption|reflexivity]]
        | right; right; right; do 6 eexists;
          split; [eassumption|split; [repeat eexists; eassumption|reflexivity]] ].
Qed.

(** X15: a FIG 2 changes extended-label state and nothing else.  It
    makes no call on the radio interface, so an extended label is only
    seen by asking for it; it adds, removes and renumbers no service and
    no component; and it leaves the FIG 1 label, flag and character set
    of every label as they are, also when the data field is refused. *)
Theorem process_FIG2_silent (d : bitvec) (st : State) :
  let r := process_FIG2 d st in
  let fig1 l := (lbl_fig1_label l, lbl_fig1_flag l, lbl_charset l) in
  events r.1 = events st /\
  service_ids r.1 = service_ids st /\
  component_keys r.1 = component_keys st /\
  subChannels r.1 = subChannels st /\
  serviceRepeatCount r.1 = serviceRepeatCount st /\
  ensembleId r.1 = ensembleId st /\
  fig1 (ensembleLabel r.1) = fig1 (ensembleLabel st) /\
  (fun s => (svc_serviceId s, fig1 (svc_serviceLabel s), svc_language s,
             svc_programType s)) <$> services r.1
  = (fun s => (svc_serviceId s, fig1 (svc_serviceLabel s), svc_language s,
               svc_programType s)) <$> services st /\
  (fun c => (component_key c, sc_subchannelId c, fig1 (sc_componentLabel c)))
    <$> components r.1
  = (fun c => (component_key c, sc_subchannelId c, fig1 (sc_componentLabel c)))
      <$> components st.
Proof.
  cbv zeta.
  destruct (process_FIG2_cases d st)
    as [-> | [(l & e & Hh & ->) | [(SId & i & s & l & e & Hf & Hh & ->)
                                  | (SId & SCIdS & i & c & l & e & Hf & Hh & ->)]]];
    cbn [fst]; try (repeat split; reflexivity);
    destruct Hh as (fb & f & len & tg & idx & rfu & Hh);
    pose proof (handle_ext_label_keeps_fig1 fb f len tg idx rfu) as Hk;
    cbv zeta in Hk.
  - specialize (Hk (ensembleLabel st)). rewrite Hh in Hk. cbn [fst] in Hk.
    repeat split; try reflexivity. exact Hk.
  - specialize (Hk (svc_serviceLabel s)). rewrite Hh in Hk. cbn [fst] in Hk.
    apply findServiceId_Some in Hf as (Hs & _).
    repeat split; try reflexivity.
    + unfold service_ids. cbn. apply fmap_alter_same. reflexivity.
    + cbn [services set_services]. apply (fmap_alter_at _ _ _ _ s Hs).
      cbn. rewrite Hk. reflexivity.
  - specialize (Hk (sc_componentLabel c)). rewrite Hh in Hk. cbn [fst] in Hk.
    unfold findComponent in Hf. apply list_find_Some in Hf as (Hc & _).
    repeat split; try reflexivity.
    + unfold component_keys. cbn. apply fmap_alter_same. reflexivity.
    + cbn [components set_components]. apply (fmap_alter_at _ _ _ _ c Hc).
      cbn. rewrite Hk. reflexivity.
Qed.

(** ** Queries around [dropService] *)

Lemma filter_swap {A} (P Q : A -> Prop) `{!forall x, Decision (P x)}
    `{!forall x, Decision (Q x)} (l : list A) :
  filter P (filter Q l) = filter Q (filter P l).
Proof.
  rewrite !list_filter_filter. apply list_filter_iff. intros x. tauto.
Qed.

Lemma filter_none {A} (P : A -> Prop) `{!forall x, Decision (P x)} (l : list A) :
  (forall x, x ∈ l -> ~ P x) -> filter P l = [].
Proof.
  intros Hall. induction l as [|a l IH]; [reflexivity|].
  rewrite filter_cons. destruct (decide (P a)) as [Hp|_].
  - exfalso. apply (Hall a); [apply elem_of_cons; auto|exact Hp].
  - apply IH. intros x Hx. apply Hall. apply elem_of_cons. auto.
Qed.

Lemma list_find_filter_snd {A} (P Q : A -> Prop) `{!forall x, Decision (P x)}
    `{!forall x, Decision (Q x)} (l : list A) :
  (forall x, P x -> Q x) ->
  snd <$> list_find P (filter Q l) = snd <$> list_find P l.
Proof.
  intros HPQ. induction l as [|a l IH]; [reflexivity|].
  rewrite filter_cons. cbn [list_find].
  destruct (decide (Q a)) as [Hq|Hq].
  - cbn [list_find]. destruct (decide (P a)); [reflexivity|].
    destruct (list_find P (filter Q l)) as [[i x]|];
      destruct (list_find P l) as [[j y]|]; cbn in *; congruence.
  - destruct (decide (P a)) as [Hp|Hp]; [exfalso; apply Hq, HPQ, Hp|].
    rewrite IH. destruct (list_find P l) as [[j y]|]; reflexivity.
Qed.

Lemma orphan_check_fewer (comps comps' : list ServiceComponent) (sub : Subchannel) :
  (forall c, c ∈ comps' -> c ∈ comps) ->
  orphan_check comps' (orphan_check comps sub) = orphan_check comps' sub.
Proof.
  intros Hsub.
  destruct (decide (sub_valid sub)) as [Hv|Hv];
    [|rewrite (orphan_check_referenced comps sub) by (left; exact Hv); reflexivity].
  assert (Hdec : referenced comps sub \/ ~ referenced comps sub).
  { unfold referenced.
    destruct (list_find (fun c => sc_subchannelId c = sub_subChId sub) comps)
      as [[i c]|] eqn:E.
    - left. apply list_find_Some in E as (Hi & Hc & _).
      exists c. split; [|exact Hc]. apply list_elem_of_lookup. eauto.
    - right. intros (c & Hc & Href). apply list_find_None in E.
      rewrite Forall_forall in E. exact (E c Hc Href). }
  destruct Hdec as [Hr|Hr].
  - rewrite (orphan_check_referenced comps sub) by (right; exact Hr). reflexivity.
  - rewrite (orphan_check_orphaned comps sub Hv Hr).
    rewrite (orphan_check_referenced comps' (set_sub_subChId (-1) sub))
      by (left; intros H; apply H; reflexivity).
    symmetry. apply orphan_check_orphaned; [exact Hv|].
    intros (c & Hc & Href). apply Hr. exists c. split; [apply Hsub, Hc|exact Href].
Qed.

Lemma State_eq (st st' : State) :
  ensembleId st = ensembleId st' -> ensembleEcc st = ensembleEcc st' ->
  ensembleLabel st = ensembleLabel st' -> dateTime st = dateTime st' ->
  timeOffsetReceived st = timeOffsetReceived st' ->
  services st = services st' -> components st = components st' ->
  subChannels st = subChannels st' ->
  serviceRepeatCount st = serviceRepeatCount st' ->
  timeLastServiceDecrement st = timeLastServiceDecrement st' ->
  timeLastFCT0Frame st = timeLastFCT0Frame st' ->
  events st = events st' ->
  st = st'.
Proof. destruct st, st'. cbn. intros. subst. reflexivity. Qed.

Lemma dropService_twice (a b : Z) (st : State) :
  dropService a (dropService b st) =
  let services' :=
    filter (fun s => svc_serviceId s <> a)
      (filter (fun s => svc_serviceId s <> b) (services st)) in
  let components' :=
    filter (fun c => sc_SId c <> a) (filter (fun c => sc_SId c <> b) (components st)) in
  set_subChannels (orphan_check components' <$> subChannels st)
    (set_components components' (set_services services' st)).
Proof.
  apply State_eq; try reflexivity.
  cbn [subChannels dropService set_subChannels set_components set_services
       components].
  rewrite <- list_fmap_compose. apply list_fmap_ext. intros i sub _. cbn.
  apply orphan_check_fewer.
  intros c Hc. apply list_elem_of_filter in Hc. tauto.
Qed.

(** X16: what the queries return once a service is dropped.  After
    [dropService SId], [getService] answers the sentinel service of id 0
    for [SId] and [getComponents] the empty list for every service of
    that id, while both answer for every other id what they answered
    before.  Dropping two services gives the same store in either order,
    and dropping a service twice is dropping it once. *)
Theorem dropService_queries (hdr : Header) (SId : Z) (st : State) :
  let st' := dropService SId st in
  getService hdr SId st' = Service_ctor hdr 0 /\
  (forall s, svc_serviceId s = SId -> getComponents s st' = []) /\
  (forall sId, sId <> SId -> getService hdr sId st' = getService hdr sId st) /\
  (forall s, svc_serviceId s <> SId -> getComponents s st' = getComponents s st) /\
  (forall SId', dropService SId' st' = dropService SId (dropService SId' st)) /\
  dropService SId st' = st'.
Proof.
  cbv zeta. split; [|split; [|split; [|split; [|split]]]].
  - unfold getService, dropService. cbn [services set_subChannels set_components
      set_services].
    rewrite (proj2 (list_find_None _ _)); [reflexivity|].
    apply Forall_forall. intros s Hs Hid.
    apply list_elem_of_filter in Hs as [Hne _]. contradiction.
  - intros s Hs. unfold getComponents, dropService.
    cbn [components set_subChannels set_components set_services].
    rewrite list_filter_filter.
    apply filter_none. intros c _ [H1 H2]. congruence.
  - intros sId Hne. unfold getService, dropService.
    cbn [services set_subChannels set_components set_services].
    pose proof (list_find_filter_snd (fun s => svc_serviceId s = sId)
                  (fun s => svc_serviceId s <> SId) (services st)
                  ltac:(intros x Hx; congruence)) as Hf.
    destruct (list_find _ (filter _ _)) as [[i x]|];
      destruct (list_find _ (services st)) as [[j y]|]; cbn in Hf; congruence.
  - intros s Hs. unfold getComponents, dropService.
    cbn [components set_subChannels set_components set_services].
    apply list_filter_filter_l. intros c Hc. congruence.
  - intros SId'. rewrite !dropService_twice.
    rewrite (filter_swap (fun s => svc_serviceId s <> SId')).
    rewrite (filter_swap (fun c => sc_SId c <> SId')). reflexivity.
  - apply dropService_idem.
Qed.

(** ** Components and programme types of the listed services *)

Lemma findServiceId_in (SId : Z) (st : State) :
  SId ∈ service_ids st -> exists i s, findServiceId SId st = Some (i, s).
Proof.
  intros Hin. destruct (findServiceId SId st) as [[i s]|] eqn:E; [eauto|].
  apply findServiceId_None in E. contradiction.
Qed.

Lemma bind_new (hdr : Header) (TMid SId compnr a b c : Z) (st : State) :
  SId ∈ service_ids st -> (SId, compnr) ∉ component_keys st ->
  let n := ServiceComponent_init hdr in
  bindAudioService hdr TMid SId compnr a b c st =
    set_components
      (components st ++
       [mkServiceComponent TMid SId compnr c b a (sc_SCId n) (sc_CAflag n)
          (sc_DSCTy n) (sc_DGflag n) (sc_packetAddress n) (sc_componentLabel n)]) st /\
  bindDataStreamService hdr TMid SId compnr a b c st =
    set_components
      (components st ++
       [mkServiceComponent TMid SId compnr (sc_ASCTy n) b a (sc_SCId n) (sc_CAflag n)
          c (sc_DGflag n) (sc_packetAddress n) (sc_componentLabel n)]) st /\
  bindPacketService hdr TMid SId compnr a b c st =
    set_components
      (components st ++
       [mkServiceComponent TMid SId compnr (sc_ASCTy n) b (sc_subchannelId n) a c
          (sc_DSCTy n) (sc_DGflag n) (sc_packetAddress n) (sc_componentLabel n)]) st.
Proof.
  intros Hin Hkey. cbv zeta.
  destruct (findServiceId_in SId st Hin) as (i & s & Hf).
  destruct (findServiceId_Some _ _ _ _ Hf) as (_ & Hid & _).
  assert (Ha : component_absent s compnr st = true).
  { apply component_absent_true. rewrite Hid. exact Hkey. }
  unfold bindAudioService, bindDataStreamService, bindPacketService.
  rewrite Hf, Ha. repeat split; reflexivity.
Qed.

Lemma getComponents_new (s : Service) (c : ServiceComponent) (st : State) :
  getComponents s (set_components (components st ++ [c]) st) =
  getComponents s st ++ (if decide (sc_SId c = svc_serviceId s) then [c] else []).
Proof.
  unfold getComponents. cbn [components set_components].
  rewrite filter_app. reflexivity.
Qed.

(** X17: a component that is bound shows up in [getComponents].  For a
    service in the list and a component number it does not have yet,
    each of the three bind functions appends one component to what
    [getComponents] returns for the service, carrying the transport
    mode, the number and the arguments of the call; an audio or stream
    component names its subchannel, a packet component has the
    subchannel id of a freshly constructed component until a FIG 0/3
    arrives.  The components of the other services are as before. *)
Theorem bind_then_getComponents (hdr : Header) (TMid SId compnr a b c : Z)
    (st : State) (s : Service) :
  s ∈ services st -> svc_serviceId s = SId ->
  (SId, compnr) ∉ component_keys st ->
  (exists new,
     getComponents s (bindAudioService hdr TMid SId compnr a b c st)
     = getComponents s st ++ [new] /\
     (sc_TMid new, sc_SId new, sc_componentNr new) = (TMid, SId, compnr) /\
     (sc_subchannelId new, sc_PS_flag new, sc_ASCTy new) = (a, b, c)) /\
  (exists new,
     getComponents s (bindDataStreamService hdr TMid SId compnr a b c st)
     = getComponents s st ++ [new] /\
     (sc_TMid new, sc_SId new, sc_componentNr new) = (TMid, SId, compnr) /\
     (sc_subchannelId new, sc_PS_flag new, sc_DSCTy new) = (a, b, c)) /\
  (exists new,
     getComponents s (bindPacketService hdr TMid SId compnr a b c st)
     = getComponents s st ++ [new] /\
     (sc_TMid new, sc_SId new, sc_componentNr new) = (TMid, SId, compnr) /\
     (sc_SCId new, sc_PS_flag new, sc_CAflag new) = (a, b, c) /\
     sc_subchannelId new = sc_subchannelId (ServiceComponent_init hdr)) /\
  (forall s2, svc_serviceId s2 <> SId ->
     getComponents s2 (bindAudioService hdr TMid SId compnr a b c st)
     = getComponents s2 st /\
     getComponents s2 (bindDataStreamService hdr TMid SId compnr a b c st)
     = getComponents s2 st /\
     getComponents s2 (bindPacketService hdr TMid SId compnr a b c st)
     = getComponents s2 st).
Proof.
  intros Hs Hid Hkey.
  assert (Hin : SId ∈ service_ids st).
  { unfold service_ids. apply list_elem_of_fmap. exists s. auto. }
  destruct (bind_new hdr TMid SId compnr a b c st Hin Hkey) as (-> & -> & ->).
  repeat split.
  - eexists. rewrite getComponents_new. cbn [sc_SId].
    rewrite decide_True by congruence. repeat split; reflexivity.
  - eexists. rewrite getComponents_new. cbn [sc_SId].
    rewrite decide_True by congruence. repeat split; reflexivity.
  - eexists. rewrite getComponents_new. cbn [sc_SId].
    rewrite decide_True by congruence. repeat split; reflexivity.
  - rewrite getComponents_new. cbn [sc_SId].
    rewrite decide_False by congruence. apply app_nil_r.
  - rewrite getComponents_new. cbn [sc_SId].
    rewrite decide_False by congruence. apply app_nil_r.
  - rewrite getComponents_new. cbn [sc_SId].
    rewrite decide_False by congruence. apply app_nil_r.
Qed.

(** The store after two sightings of service [0xA1B2], which has
    component 0: a second audio component on subchannel 7. *)
Lemma bind_then_getComponents_witness :
  let s := Service_ctor hdr0 0xA1B2 in
  s ∈ services st_confirmed /\
  exists new,
    getComponents s (bindAudioService hdr0 0 0xA1B2 1 7 0 0 st_confirmed)
    = getComponents s st_confirmed ++ [new] /\
    sc_subchannelId new = 7.
Proof.
  cbv zeta.
  assert (Hs : Service_ctor hdr0 0xA1B2 ∈ services st_confirmed).
  { change (services st_confirmed) with [Service_ctor hdr0 0xA1B2].
    apply list_elem_of_singleton. reflexivity. }
  assert (Hk : ((0xA1B2, 1) : Z * Z) ∉ component_keys st_confirmed).
  { change (component_keys st_confirmed) with [((0xA1B2, 0) : Z * Z)].
    intros H. apply list_elem_of_singleton in H. discriminate. }
  split; [exact Hs|].
  destruct (bind_then_getComponents hdr0 0 0xA1B2 1 7 0 0 st_confirmed _ Hs eq_refl Hk)
    as ((new & Hg & _ & Hf) & _).
  exists new. split; [exact Hg|]. congruence.
Defined.

(** X18: FIG 0/17 files programme type and language under the service.
    A record for an id that is not in the list is skipped; otherwise the
    first service with the id receives the 5-bit programme type, and the
    language if the record carries one, and keeps id, label and (without
    a language field) its language.  The record is 4 bytes, one more
    with a language field and one more with the complementary code, and
    no call is made on the radio interface. *)
Theorem HandleFIG0Extension17_programme (hdr : Header) (d : bitvec) (offset : Z)
    (st : State) :
  let SId := getBits d offset 16 in
  let L := if getBits_1 d (offset + 18) =? 0 then 0 else 8 in
  let CC := if getBits_1 d (offset + 19) =? 0 then 0 else 8 in
  let r := HandleFIG0Extension17 d offset st in
  r.1 = offset + 32 + L + CC /\
  events r.2 = events st /\
  (SId ∉ service_ids st -> r.2 = st) /\
  (forall i s,
     findServiceId SId st = Some (i, s) ->
     let s' := getService hdr SId r.2 in
     r.2 = set_services (<[i := s']> (services st)) st /\
     svc_programType s' = getBits_5 d (offset + L + 27) /\
     svc_language s' =
       (if L =? 0 then svc_language s else getBits_8 d (offset + 24)) /\
     svc_serviceId s' = SId /\
     svc_serviceLabel s' = svc_serviceLabel s).
Proof.
  cbv zeta. unfold HandleFIG0Extension17.
  split; [destruct (_ =? 0); destruct (_ =? 0); cbn [fst]; lia|].
  split.
  { destruct (findServiceId _ st) as [[i s]|]; destruct (_ =? 0); reflexivity. }
  split.
  { intros Hn. apply findServiceId_None in Hn. rewrite Hn.
    destruct (_ =? 0); reflexivity. }
  intros i s Hf. rewrite Hf.
  destruct (findServiceId_Some _ _ _ _ Hf) as (Hs & Hid & _).
  unfold findServiceId in Hf.
  destruct (getBits_1 d (offset + 18) =? 0); cbn [snd services set_services];
    rewrite ?list_alter_alter_eq; unfold getService; cbn [services set_services];
    match goal with
    | |- context [alter ?f i (services st)] =>
      rewrite (list_find_alter (fun s0 => svc_serviceId s0 = getBits d offset 16)
                 f _ i s (fun _ => iff_refl _) Hf);
      rewrite (list_alter_insert f _ _ s Hs)
    end;
    rewrite ?Z.add_0_r; repeat split; try reflexivity; exact Hid.
Qed.

(** ** FIG 0/13: user applications *)




(** ** FIG 0/2: the components of an announcement *)

Lemma getBits_2_range (d : bitvec) (offset : Z) : 0 <= getBits_2 d offset < 4.
Proof. apply (getBits_range d offset 2). lia. Qed.

Lemma bind_one (hdr : Header) (TMid SId compnr a b c : Z) (st : State) :
  forall st1,
    st1 = bindAudioService hdr TMid SId compnr a b c st \/
    st1 = bindDataStreamService hdr TMid SId compnr a b c st \/
    st1 = bindPacketService hdr TMid SId compnr a b c st ->
    services st1 = services st /\
    components st `prefix_of` components st1 /\
    (SId ∉ service_ids st -> st1 = st) /\
    (SId ∈ service_ids st -> (SId, compnr) ∈ component_keys st1).
Proof.
  intros st1 Hst1.
  destruct (decide (SId ∈ service_ids st)) as [Hin|Hout].
  - destruct (decide ((SId, compnr) ∈ component_keys st)) as [Hk|Hk].
    + destruct (bind_existing_pair hdr TMid SId compnr a b c st Hk) as (E1 & E2 & E3).
      assert (E : st1 = st) by (destruct Hst1 as [-> | [-> | ->]]; assumption).
      subst st1.
      split; [reflexivity|]. split; [reflexivity|]. split; [reflexivity|]. auto.
    + destruct (bind_new hdr TMid SId compnr a b c st Hin Hk) as (E1 & E2 & E3).
      rewrite E1, E2, E3 in Hst1.
      destruct Hst1 as [-> | [-> | ->]]; cbn [services components set_components];
        (split; [reflexivity|]); (split; [apply prefix_app_r; reflexivity|]);
        (split; [intros; contradiction|]); intros _;
        unfold component_keys; cbn [components set_components];
        rewrite fmap_app; apply elem_of_app; right;
        apply list_elem_of_singleton; reflexivity.
  - destruct (bind_unknown_service hdr TMid SId compnr a b c st Hout) as (E1 & E2 & E3).
    assert (E : st1 = st) by (destruct Hst1 as [-> | [-> | ->]]; assumption).
    subst st1.
    split; [reflexivity|]. split; [reflexivity|]. split; [reflexivity|].
    intros; contradiction.
Qed.

Lemma prefix_keys (st st' : State) (k : Z * Z) :
  components st `prefix_of` components st' ->
  k ∈ component_keys st -> k ∈ component_keys st'.
Proof.
  intros [l Hl] Hk. unfold component_keys in *. rewrite Hl, fmap_app.
  apply elem_of_app. left. exact Hk.
Qed.

Lemma bind_components_binds (hdr : Header) (d : bitvec) (SId : Z) (n : nat) :
  forall i0 lOffset st,
    let st' := (bind_components hdr d SId n i0 lOffset st).2 in
    services st' = services st /\
    components st `prefix_of` components st' /\
    (SId ∉ service_ids st -> st' = st) /\
    (SId ∈ service_ids st ->
     forall j, 0 <= j < Z.of_nat n ->
       getBits_2 d (lOffset + 16 * j) <> 2 ->
       (SId, i0 + j) ∈ component_keys st').
Proof.
  induction n as [|n IH]; intros i0 lOffset st; cbv zeta.
  - cbn [bind_components snd].
    split; [reflexivity|]. split; [reflexivity|]. split; [reflexivity|].
    intros _ j Hj. lia.
  - cbn [bind_components].
    set (TMid := getBits_2 d lOffset).
    set (st1 := if TMid =? 0 then _ else _).
    assert (H1 : services st1 = services st /\
                 components st `prefix_of` components st1 /\
                 (SId ∉ service_ids st -> st1 = st) /\
                 (SId ∈ service_ids st -> TMid <> 2 ->
                  (SId, i0) ∈ component_keys st1)).
    { subst st1.
      pose proof (getBits_2_range d lOffset) as Hr. fold TMid in Hr.
      destruct (TMid =? 0) eqn:E0;
        [|destruct (TMid =? 1) eqn:E1; [|destruct (TMid =? 3) eqn:E3]].
      - edestruct (bind_one hdr TMid SId i0) as (A & B & C & D);
          [left; reflexivity|].
        split; [exact A|]. split; [exact B|]. split; [exact C|].
        intros HS _. exact (D HS).
      - edestruct (bind_one hdr TMid SId i0) as (A & B & C & D);
          [right; left; reflexivity|].
        split; [exact A|]. split; [exact B|]. split; [exact C|].
        intros HS _. exact (D HS).
      - edestruct (bind_one hdr TMid SId i0) as (A & B & C & D);
          [right; right; reflexivity|].
        split; [exact A|]. split; [exact B|]. split; [exact C|].
        intros HS _. exact (D HS).
      - split; [reflexivity|]. split; [reflexivity|]. split; [reflexivity|].
        intros _ Hne. apply Z.eqb_neq in E0, E1, E3. lia. }
    destruct H1 as (Hs1 & Hp1 & Hout1 & Hin1).
    destruct (IH (i0 + 1) (lOffset + 16) st1) as (Hs & Hp & Hout & Hin).
    cbv zeta in *.
    assert (Hids : service_ids st1 = service_ids st)
      by (unfold service_ids; rewrite Hs1; reflexivity).
    split; [congruence|].
    split; [etrans; eassumption|].
    split.
    { intros Hn. rewrite Hout by (rewrite Hids; exact Hn). apply Hout1, Hn. }
    intros HS j Hj Htm.
    destruct (decide (j = 0)) as [->|Hj0].
    + rewrite Z.add_0_r. eapply prefix_keys; [exact Hp|].
      apply Hin1; [exact HS|]. rewrite Z.mul_0_r, Z.add_0_r in Htm. exact Htm.
    + replace (i0 + j) with (i0 + 1 + (j - 1)) by lia.
      apply Hin; [rewrite Hids; exact HS|lia|].
      replace (lOffset + 16 + 16 * (j - 1)) with (lOffset + 16 * j) by lia.
      exact Htm.
Qed.

Lemma HandleFIG0Extension2_components (hdr : Header) (clk : Clock) (d : bitvec)
    (offset cn pd : Z) (st : State) :
  let SId := (FIG0Extension2_SId d offset pd).1 in
  let lOffset := (FIG0Extension2_SId d offset pd).2 in
  let numberofComponents := getBits_4 d (lOffset + 4) in
  let st2 := sighting hdr SId (decay clk st) in
  let st' := (HandleFIG0Extension2 hdr clk d offset cn pd st).2 in
  services st' = services st2 /\
  components (decay clk st) `prefix_of` components st' /\
  (SId ∉ service_ids st' -> components st' = components (decay clk st)) /\
  (SId ∈ service_ids st' ->
   forall i, 0 <= i < numberofComponents ->
     getBits_2 d (lOffset + 8 + 16 * i) <> 2 ->
     (SId, i) ∈ component_keys st').
Proof.
  cbv zeta. unfold HandleFIG0Extension2.
  destruct (FIG0Extension2_SId d offset pd) as [SId lOffset]. cbn [fst snd].
  pose proof (getBits_4_range d (lOffset + 4)) as Hr.
  destruct (bind_components_binds hdr d SId (Z.to_nat (getBits_4 d (lOffset + 4))) 0
              (lOffset + 8) (sighting hdr SId (decay clk st)))
    as (Hs & Hp & Hout & Hin).
  cbv zeta in *.
  destruct (bind_components _ _ _ _ _ _ _) as [lOffset' st3]. cbn [snd] in *.
  assert (Hids : service_ids st3 = service_ids (sighting hdr SId (decay clk st)))
    by (unfold service_ids; rewrite Hs; reflexivity).
  assert (Hc2 : components (sighting hdr SId (decay clk st)) = components (decay clk st)).
  { unfold sighting. destruct (_ && _); reflexivity. }
  split; [exact Hs|].
  split; [rewrite <- Hc2; exact Hp|].
  split.
  - intros Hn. rewrite Hids in Hn. rewrite (Hout Hn). exact Hc2.
  - intros HS i Hi Htm. rewrite Hids in HS.
    apply (Hin HS i); [lia|exact Htm].
Qed.

(** X20: which components an announcement leaves.  While the announced
    service is not in the list (first sighting), the components of the
    record are not bound: they are not kept for the sighting that
    confirms the service.  Once the service is in the list (from the
    confirming record on), every component of the record with transport
    mode 0, 1 or 3 is in the store under the pair of the service id and
    its position in the record.  Components stay where they are: the
    ones present after the decay block are a prefix of the ones present
    after the record. *)
Theorem HandleFIG0Extension2_binds (hdr : Header) (clk : Clock) (d : bitvec)
    (offset cn pd : Z) (st : State) :
  let SId := (FIG0Extension2_SId d offset pd).1 in
  let lOffset := (FIG0Extension2_SId d offset pd).2 in
  let numberofComponents := getBits_4 d (lOffset + 4) in
  let st2 := sighting hdr SId (decay clk st) in
  let st' := (HandleFIG0Extension2 hdr clk d offset cn pd st).2 in
  services st' = services st2 /\
  components (decay clk st) `prefix_of` components st' /\
  (SId ∉ service_ids st' -> components st' = components (decay clk st)) /\
  (SId ∈ service_ids st' ->
   forall i, 0 <= i < numberofComponents ->
     getBits_2 d (lOffset + 8 + 16 * i) <> 2 ->
     (SId, i) ∈ component_keys st').
Proof. apply HandleFIG0Extension2_components. Qed.

(** ** FIG 0/0: the ensemble *)

(** X21: a FIG 0/0 stores the ensemble id and leaves the store of the
    previous ensemble in place.  [onNewEnsemble] is called if and only
    if the id differs from the stored one, so repeating the FIG is
    silent; the time of the last frame is set if and only if the low
    part of the CIF counter reads 0 or 250.  Services, components,
    subchannels and counters, and the ensemble label, country code and
    date are those from before the id changed: the handler does not
    call [clearEnsemble]. *)
Theorem FIG0Extension0_effect (clk : Clock) (d : bitvec) (st : State) :
  let eId := getBits d 16 16 in
  let st' := FIG0Extension0 clk d st in
  getEnsembleId st' = eId /\
  events st' =
    (if bool_decide (getEnsembleId st = eId) then events st
     else events st ++ [onNewEnsemble eId]) /\
  getTimeLastFCT0Frame st' =
    (if bool_decide (getBits_8 d 40 = 0 \/ getBits_8 d 40 = 250) then system_now clk
     else getTimeLastFCT0Frame st) /\
  (services st', components st', subChannels st', serviceRepeatCount st')
  = (services st, components st, subChannels st, serviceRepeatCount st) /\
  (getEnsembleLabel st', getEnsembleEcc st', dateTime st', timeOffsetReceived st')
  = (getEnsembleLabel st, getEnsembleEcc st, dateTime st, timeOffsetReceived st) /\
  (forall clk', events (FIG0Extension0 clk' d st') = events st').
Proof.
  cbv zeta.
  assert (Hold : forall clk0,
            ensembleId st = getBits d 16 16 ->
            FIG0Extension0 clk0 d st =
            if Z.rem (getBits_8 d (16 + 24)) 250 =? 0
            then set_timeLastFCT0Frame (system_now clk0) st else st).
  { intros clk0 E. unfold FIG0Extension0.
    rewrite bool_decide_eq_false_2 by tauto. reflexivity. }
  assert (Hnew : forall clk0,
            ensembleId st <> getBits d 16 16 ->
            FIG0Extension0 clk0 d st =
            let st1 := emit (onNewEnsemble (getBits d 16 16))
                         (set_ensembleId (getBits d 16 16) st) in
            if Z.rem (getBits_8 d (16 + 24)) 250 =? 0
            then set_timeLastFCT0Frame (system_now clk0) st1 else st1).
  { intros clk0 E. unfold FIG0Extension0.
    rewrite bool_decide_eq_true_2 by exact E. reflexivity. }
  assert (Hrem : (Z.rem (getBits_8 d (16 + 24)) 250 =? 0)
                 = bool_decide (getBits_8 d 40 = 0 \/ getBits_8 d 40 = 250)).
  { change (16 + 24) with 40.
    pose proof (getBits_range d 40 8 ltac:(lia)) as Hr.
    change (getBits d 40 8) with (getBits_8 d 40) in Hr. change (2 ^ 8) with 256 in Hr.
    rewrite Z.rem_mod_nonneg by lia.
    destruct (Z.eqb_spec (getBits_8 d 40 mod 250) 0) as [E|E]; symmetry.
    - apply bool_decide_eq_true_2.
      destruct (Z_lt_le_dec (getBits_8 d 40) 250).
      + rewrite Z.mod_small in E by lia. auto.
      + right. assert (getBits_8 d 40 mod 250 = getBits_8 d 40 - 250).
        { symmetry. apply Z.mod_unique with (q := 1); lia. }
        lia.
    - apply bool_decide_eq_false_2. intros [H|H]; rewrite H in E; apply E; reflexivity. }
  rewrite Hrem in Hold, Hnew. clear Hrem. cbv zeta in Hnew.
  unfold getEnsembleId, getTimeLastFCT0Frame, getEnsembleLabel, getEnsembleEcc.
  assert (Hid : forall clk0, ensembleId (FIG0Extension0 clk0 d st) = getBits d 16 16).
  { intros clk0. destruct (decide (ensembleId st = getBits d 16 16)) as [E|E].
    - rewrite (Hold clk0 E). destruct (bool_decide _); exact E.
    - rewrite (Hnew clk0 E). destruct (bool_decide _); reflexivity. }
  split; [apply Hid|].
  destruct (decide (ensembleId st = getBits d 16 16)) as [E|E].
  - rewrite (bool_decide_eq_true_2 _ E). rewrite !(Hold clk E).
    split; [destruct (bool_decide _); reflexivity|].
    split; [destruct (bool_decide _); reflexivity|].
    split; [destruct (bool_decide _); reflexivity|].
    split; [destruct (bool_decide _); reflexivity|].
    intros clk'. unfold FIG0Extension0 at 1.
    rewrite bool_decide_eq_false_2; [destruct (_ =? 0); reflexivity|].
    destruct (bool_decide _); cbn; tauto.
  - rewrite (bool_decide_eq_false_2 _ E). rewrite !(Hnew clk E).
    split; [destruct (bool_decide _); reflexivity|].
    split; [destruct (bool_decide _); reflexivity|].
    split; [destruct (bool_decide _); reflexivity|].
    split; [destruct (bool_decide _); reflexivity|].
    intros clk'. unfold FIG0Extension0 at 1.
    rewrite bool_decide_eq_false_2; [destruct (_ =? 0); reflexivity|].
    destruct (bool_decide _); cbn; tauto.
Qed.

(** ** Every state a processor can reach *)

Lemma run_inv (hdr : Header) (P : State -> Prop) :
  (forall c st, P st -> P (do_call hdr st c)) ->
  forall clk members calls,
    P (FIBProcessor_ctor clk members) -> P (run hdr clk members calls).
Proof.
  intros Hstep clk members calls. unfold run.
  generalize (FIBProcessor_ctor clk members).
  induction calls as [|c calls IH]; intros st H; [exact H|].
  cbn [foldl]. apply IH, Hstep, H.
Qed.

Lemma do_call_inv (hdr : Header) (P : State -> Prop) :
  (forall st st', update hdr st st' -> P st -> P st') ->
  (forall clk st, P st -> P (clearEnsemble clk st)) ->
  (forall SId st, P st -> P (dropService SId st)) ->
  forall c st, P st -> P (do_call hdr st c).
Proof.
  intros Hu Hc Hd [clk p fib|clk|SId] st H; cbn [do_call].
  - exact (updates_inv hdr P Hu _ _ (processFIB_updates hdr clk p fib st) H).
  - apply Hc, H.
  - apply Hd, H.
Qed.

Lemma subtable_ctor clk members : subtable_ok (FIBProcessor_ctor clk members).
Proof.
  split; [reflexivity|]. intros i sub Hl. left.
  change (subChannels (FIBProcessor_ctor clk members))
    with (replicate 64 Subchannel_init) in Hl.
  apply lookup_replicate in Hl as [-> _]. reflexivity.
Qed.

(** X22: the invariants hold of every state a processor can be in.
    After the constructor and any sequence of [processFIB] (also one
    that threw), [clearEnsemble] and [dropService] calls: every
    component belongs to a listed service and no (service, number) pair
    occurs twice; the subchannel table has 64 slots and a valid slot
    sits at the index of its id; no service id is listed twice and every
    listed service was reported through [onServiceDetected]; the
    debounce counters are between 0 and 4; [getEnsembleId] is the id of
    the last [onNewEnsemble] call, or the initial one; and no
    [onDateTimeUpdate] was made unless a time offset has been received.
    So [getSubchannel] never throws for a component whose subchannel id
    is between 0 and 63, and [getService] returns the listed entry for
    the id of every listed service. *)
Theorem reachable_invariants (hdr : Header) (clk : Clock) (members : State)
    (calls : list call) :
  let st := run hdr clk members calls in
  store_ok st /\ subtable_ok st /\ services_ok st /\ counters_bounded st /\
  ensemble_in_sync (ensembleId members) st /\ time_gated st /\
  (forall sc, 0 <= sc_subchannelId sc < 64 ->
     exists sub, getSubchannel sc st = inl sub) /\
  (forall s, s ∈ getServiceList st -> getService hdr (svc_serviceId s) st = s).
Proof.
  cbv zeta.
  assert (H1 : store_ok (run hdr clk members calls)).
  { apply run_inv; [|apply clearEnsemble_ok].
    intros [clk' p fib|clk'|SId] st H; cbn [do_call].
    - apply processFIB_loop_ok, H.
    - apply clearEnsemble_ok.
    - apply dropService_ok, H. }
  assert (H2 : subtable_ok (run hdr clk members calls)).
  { apply run_inv; [|apply subtable_ctor].
    apply do_call_inv.
    - apply update_subtable.
    - apply clearEnsemble_subtable.
    - apply dropService_subtable. }
  assert (H3 : services_ok (run hdr clk members calls)).
  { apply run_inv; [|apply clearEnsemble_services_ok].
    apply do_call_inv.
    - apply update_services_ok.
    - intros clk' st _. apply clearEnsemble_services_ok.
    - apply dropService_services_ok. }
  assert (H4 : counters_bounded (run hdr clk members calls)).
  { apply run_inv.
    - apply do_call_inv.
      + apply update_counters_bounded.
      + intros clk' st _ k v Hk. cbn in Hk. rewrite lookup_empty in Hk. discriminate.
      + intros SId st H. exact H.
    - intros k v Hk. cbn in Hk. rewrite lookup_empty in Hk. discriminate. }
  assert (H5 : ensemble_in_sync (ensembleId members) (run hdr clk members calls)).
  { apply run_inv; [|reflexivity].
    apply do_call_inv.
    - apply update_ensemble_in_sync.
    - intros clk' st H. exact H.
    - intros SId st H. exact H. }
  assert (H6 : time_gated (run hdr clk members calls)).
  { apply run_inv.
    - apply do_call_inv.
      + apply update_time_gated.
      + intros clk' st H. exact H.
      + intros SId st H. exact H.
    - intros _ dt Hin. cbn in Hin. apply elem_of_nil in Hin. exact Hin. }
  split; [exact H1|]. split; [exact H2|]. split; [exact H3|].
  split; [exact H4|]. split; [exact H5|]. split; [exact H6|].
  split.
  - intros sc Hr. apply getSubchannel_in_range; [apply H2|exact Hr].
  - intros s Hs. apply getService_listed; [apply H3|exact Hs].
Qed.

(** ** Where an exception of [processFIB] comes from *)

Lemma process_FIG2_throws_segment_0 (d : bitvec) (st : State) (e : exn) :
  (process_FIG2 d st).2 = Some e ->
  Z.shiftr (Z.land (getBits_8 d 8) 112) 4 = 0 /\ e = runtime_error.
Proof.
  intros H. split; [|exact (process_FIG2_exn d st e H)].
  change (getBits_8 d 8) with (byte_at (read_bytes d 0 30) 1 0).
  unfold process_FIG2 in H.
  set (idx := Z.shiftr (Z.land (byte_at (read_bytes d 0 30) 1 0) 112) 4) in *.
  repeat match type of H with
         | context [if ?b then _ else _] => destruct b
         | context [match findServiceId ?a ?b with _ => _ end] =>
           destruct (findServiceId a b) as [[? ?]|]
         | context [match findComponent ?a ?b ?c with _ => _ end] =>
           destruct (findComponent a b c) as [[? ?]|]
         | context [let '(_, _) := ?x in _] => destruct x as [l0 e0] eqn:Hh
         end; cbn [snd] in H; try discriminate; subst e0;
  match type of Hh with
  | handle_ext_label_data_field ?a ?b ?c ?t ?i ?r ?lab = _ =>
    destruct (handle_ext_label_throws a b c t i r lab) as (Hiff & Hor & _);
    cbv zeta in Hiff, Hor; rewrite Hh in Hiff, Hor; cbn [snd] in Hiff, Hor;
    destruct Hor as [Hor|Hor]; [discriminate|];
    exact (proj1 (proj1 Hiff Hor))
  end.
Qed.

Lemma dispatch_FIG_throws hdr clk d st e :
  (dispatch_FIG hdr clk d st).2 = Throw e ->
  getBits_3 d 0 = 2 /\ (process_FIG2 d st).2 = Some e.
Proof.
  unfold dispatch_FIG.
  destruct (getBits_3 d 0 =? 0); [discriminate|].
  destruct (getBits_3 d 0 =? 1); [discriminate|].
  destruct (getBits_3 d 0 =? 2) eqn:E2.
  - apply Z.eqb_eq in E2.
    destruct (process_FIG2 d st) as [st' [e'|]]; cbn [snd]; [|discriminate].
    intros [= ->]. auto.
  - destruct (_ =? 6); [discriminate|]. destruct (_ =? 7); discriminate.
Qed.

Lemma dispatch_along_throws hdr clk p offsets :
  forall st e,
    (dispatch_along hdr clk p offsets st).2 = Some e ->
    exists a st_a,
      a ∈ offsets /\ (dispatch_FIG hdr clk (advance p (a * 8)) st_a).2 = Throw e.
Proof.
  induction offsets as [|a rest IH]; intros st e H; [discriminate|].
  cbn [dispatch_along] in H.
  destruct (dispatch_FIG hdr clk (advance p (a * 8)) st) as [st' fl] eqn:Ed.
  destruct fl as [| |e'].
  - destruct (IH st' e H) as (a' & st_a & Hin & Ht).
    exists a', st_a. split; [apply elem_of_cons; auto|exact Ht].
  - destruct (IH st' e H) as (a' & st_a & Hin & Ht).
    exists a', st_a. split; [apply elem_of_cons; auto|exact Ht].
  - cbn [snd] in H. injection H as ->.
    exists a, st. split; [apply elem_of_cons; auto|]. rewrite Ed. reflexivity.
Qed.

(** X23: an exception of [processFIB] has one source.  If [processFIB]
    throws, the exception is the [std::runtime_error] of the extended
    label handler, and the FIB holds, at one of the byte offsets the
    dispatcher visits, a FIG of type 2 whose segment index is 0.  A FIB
    without such a FIG is processed to its end. *)
Theorem processFIB_throws_on_FIG2_segment_0 (hdr : Header) (clk : Clock)
    (p : bitvec) (fib : Z) (st : State) (e : exn) :
  (processFIB hdr clk p fib st).2 = Some e ->
  e = runtime_error /\
  exists a,
    a ∈ FIG_offsets p /\ 0 <= a < 30 /\ FIGtype_at p a = 2 /\
    Z.shiftr (Z.land (getBits_8 (advance p (a * 8)) 8) 112) 4 = 0.
Proof.
  unfold processFIB, FIG_offsets. intros H.
  rewrite processFIB_loop_walk in H by lia.
  destruct (dispatch_along_throws hdr clk p _ st e H) as (a & st_a & Hin & Ht).
  destruct (dispatch_FIG_throws hdr clk _ st_a e Ht) as (Hty & H2).
  destruct (process_FIG2_throws_segment_0 _ st_a e H2) as (Hidx & ->).
  split; [reflexivity|]. exists a. split; [exact Hin|].
  split; [|split; [exact Hty|exact Hidx]].
  apply list_elem_of_lookup in Hin as [i Hi].
  destruct (fig_walk_step p 30 0 i a ltac:(lia) ltac:(change (Z.of_nat 30) with 30; lia) Hi)
    as [Ha _].
  exact Ha.
Qed.

(** The FIB of [fib_short_label]: the FIG 2 at byte offset 6 is segment 0
    of a label with a data field of one byte. *)
Lemma processFIB_throws_on_FIG2_segment_0_witness :
  (processFIB hdr0 clk0 fib_short_label 0 st0).2 = Some runtime_error /\
  exists a,
    a ∈ FIG_offsets fib_short_label /\ 0 <= a < 30 /\
    FIGtype_at fib_short_label a = 2.
Proof.
  assert (H : (processFIB hdr0 clk0 fib_short_label 0 st0).2 = Some runtime_error)
    by (vm_compute; reflexivity).
  split; [exact H|].
  destruct (processFIB_throws_on_FIG2_segment_0 hdr0 clk0 fib_short_label 0 st0
              runtime_error H) as (_ & a & Hin & Hr & Ht & _).
  exists a. auto.
Defined.

(** ** What [processFIB] never removes *)

Lemma update_keeps_nonzero hdr st st' :
  update hdr st st' ->
  (forall SId, SId <> 0 -> SId ∈ service_ids st -> SId ∈ service_ids st') /\
  (forall k, k.1 <> 0 -> k ∈ component_keys st -> k ∈ component_keys st').
Proof.
  intros Hu. destruct Hu; try (split; intros; assumption).
  - split.
    + intros SId Hne Hin. unfold service_ids in *. cbn.
      apply list_elem_of_fmap in Hin as (s & -> & Hs).
      apply list_elem_of_fmap. exists s. split; [reflexivity|].
      apply list_elem_of_filter. auto.
    + intros k Hne Hin. unfold component_keys in *. cbn.
      apply list_elem_of_fmap in Hin as (c & -> & Hc).
      apply list_elem_of_fmap. exists c. split; [reflexivity|].
      apply list_elem_of_filter. auto.
  - split; [|intros; assumption].
    intros SId' Hne Hin. unfold service_ids in *. cbn.
    rewrite fmap_app. apply elem_of_app. auto.
  - split; [intros; assumption|].
    intros k Hne Hin. unfold component_keys in *. cbn.
    rewrite fmap_app. apply elem_of_app. auto.
  - split; [intros; assumption|].
    intros k Hne Hin. unfold component_keys in *. cbn.
    rewrite (fmap_alter_same component_key f i (components st)) by assumption.
    exact Hin.
  - split; [|intros; assumption].
    intros SId' Hne Hin. unfold service_ids in *. cbn.
    rewrite (fmap_alter_same svc_serviceId f i (services st)) by assumption.
    exact Hin.
Qed.

(** X24: [processFIB] removes no service but one of id 0.  A service
    whose id is not 0 and that is in the list before a FIB is in the list
    after it, whatever the FIB and the clock, and so is every component
    of a service whose id is not 0: the only removal [processFIB] makes
    is the [dropService] of the decay pass, whose argument is the counter
    value 0.  Such a service leaves the list through [clearEnsemble] or a
    [dropService] with its id. *)
Theorem processFIB_keeps_services (hdr : Header) (clk : Clock) (p : bitvec)
    (fib : Z) (st : State) (SId : Z) :
  SId <> 0 -> SId ∈ service_ids st ->
  let st' := (processFIB hdr clk p fib st).1 in
  SId ∈ service_ids st' /\
  (forall compnr, (SId, compnr) ∈ component_keys st ->
     (SId, compnr) ∈ component_keys st') /\
  (SId ∉ service_ids (dropService SId st)) /\
  (SId ∉ service_ids (clearEnsemble clk st)).
Proof.
  intros Hne Hin. cbv zeta.
  pose proof (updates_inv hdr
                (fun s => (forall S, S <> 0 -> S ∈ service_ids st -> S ∈ service_ids s) /\
                          (forall k, k.1 <> 0 -> k ∈ component_keys st ->
                             k ∈ component_keys s))) as Hinv.
  destruct (Hinv ltac:(intros s s' Hu [H1 H2];
                       destruct (update_keeps_nonzero hdr s s' Hu) as [U1 U2];
                       split; [intros S HS HinS; apply U1; auto
                              |intros k Hk Hink; apply U2; auto])
              st _ (processFIB_updates hdr clk p fib st)
              ltac:(split; intros; assumption)) as [H1 H2].
  split; [apply H1; assumption|].
  split; [intros compnr Hk; apply H2; [exact Hne|exact Hk]|].
  split.
  - unfold service_ids, dropService. cbn. intros Hd.
    apply list_elem_of_fmap in Hd as (s & Hs & Hd).
    apply list_elem_of_filter in Hd as [Hd _]. congruence.
  - unfold service_ids. cbn. apply not_elem_of_nil.
Qed.

(** Service [0xA1B2] after its second sighting, and after a FIB five
    seconds later that announces another service. *)
Lemma processFIB_keeps_services_witness :
  0xA1B2 ∈ service_ids st_confirmed /\
  0xA1B2 ∈ service_ids (processFIB hdr0 (clk_ms 5000) fib_other 0 st_confirmed).1.
Proof.
  assert (H : 0xA1B2 ∈ service_ids st_confirmed).
  { change (service_ids st_confirmed) with [0xA1B2].
    apply list_elem_of_singleton. reflexivity. }
  split; [exact H|].
  destruct (processFIB_keeps_services hdr0 (clk_ms 5000) fib_other 0 st_confirmed
              0xA1B2 ltac:(discriminate) H) as (Hs & _).
  exact Hs.
Defined.

(** ** The debounce filter over time *)

Lemma decay_not_elapsed (clk : Clock) (st : State) :
  steady_now clk <= timeLastServiceDecrement st + one_second ->
  decay clk st = st.
Proof.
  intros H. unfold decay.
  rewrite (proj2 (Z.ltb_ge _ _)) by exact H. reflexivity.
Qed.

Lemma decay_elapsed (clk : Clock) (st : State) :
  timeLastServiceDecrement st + one_second < steady_now clk ->
  decay clk st = set_timeLastServiceDecrement (steady_now clk) (decay_pass st).
Proof.
  intros H. unfold decay.
  rewrite (proj2 (Z.ltb_lt _ _)) by exact H. reflexivity.
Qed.

Lemma bind_components_timeLast hdr d SId n :
  forall i lOffset st,
    timeLastServiceDecrement (bind_components hdr d SId n i lOffset st).2
    = timeLastServiceDecrement st.
Proof.
  induction n as [|n IH]; intros i lOffset st; [reflexivity|].
  cbn [bind_components]. rewrite IH.
  unfold bindAudioService, bindDataStreamService, bindPacketService.
  destruct (_ =? 0); [|destruct (_ =? 1); [|destruct (_ =? 3)]];
    try reflexivity;
    destruct (findServiceId SId st) as [[j s]|]; try reflexivity;
    destruct (component_absent _ _ _); reflexivity.
Qed.

Lemma HandleFIG0Extension2_timeLast hdr clk d offset cn pd st :
  timeLastServiceDecrement (HandleFIG0Extension2 hdr clk d offset cn pd st).2
  = timeLastServiceDecrement (decay clk st).
Proof.
  unfold HandleFIG0Extension2.
  destruct (FIG0Extension2_SId d offset pd) as [SId lOffset].
  pose proof (bind_components_timeLast hdr d SId
                (Z.to_nat (getBits_4 d (lOffset + 4))) 0 (lOffset + 8)
                (sighting hdr SId (decay clk st))) as Hb.
  destruct (bind_components _ _ _ _ _ _ _) as [lOffset' st3]. cbn [snd] in *.
  rewrite Hb. unfold sighting. destruct (_ && _); reflexivity.
Qed.

Lemma decay_ids_sublist clk st :
  sublist (service_ids (decay clk st)) (service_ids st).
Proof.
  unfold decay. destruct (_ <? _); [|reflexivity].
  cbn [service_ids services set_timeLastServiceDecrement].
  change (sublist (service_ids (decay_pass st)) (service_ids st)).
  apply (decay_pass_fold (fun s => sublist (service_ids s) (service_ids st)));
    [|reflexivity].
  intros st' [k v] H. unfold decay_entry.
  destruct (0 <? v); [exact H|]. destruct (v =? 0); [|exact H].
  etrans; [|exact H]. apply dropService_ids_sublist.
Qed.

(** X25: from [clearEnsemble], the second sighting confirms.  When a
    FIG 0/2 record is handled twice after [clearEnsemble], both times
    within a second of it (no decay pass runs), the first sighting only
    starts the counter at 1: no service, no component, no call.  The
    second raises it to 2, appends the service, calls
    [onServiceDetected] once, and binds every component of the record
    with transport mode 0, 1 or 3. *)
Theorem two_sightings_confirm (hdr : Header) (clk clk1 clk2 : Clock) (d : bitvec)
    (offset cn pd : Z) (st : State) :
  let SId := (FIG0Extension2_SId d offset pd).1 in
  let lOffset := (FIG0Extension2_SId d offset pd).2 in
  let st1 := (HandleFIG0Extension2 hdr clk1 d offset cn pd (clearEnsemble clk st)).2 in
  let st2 := (HandleFIG0Extension2 hdr clk2 d offset cn pd st1).2 in
  steady_now clk1 <= steady_now clk + one_second ->
  steady_now clk2 <= steady_now clk + one_second ->
  (services st1 = [] /\ components st1 = [] /\ events st1 = events st /\
   serviceRepeatCount st1 = {[SId := 1]}) /\
  (services st2 = [Service_ctor hdr SId] /\
   events st2 = events st ++ [onServiceDetected SId] /\
   serviceRepeatCount st2 = {[SId := 2]} /\
   (forall i, 0 <= i < getBits_4 d (lOffset + 4) ->
      getBits_2 d (lOffset + 8 + 16 * i) <> 2 ->
      (SId, i) ∈ component_keys st2)).
Proof.
  cbv zeta. intros Hc1 Hc2.
  set (SId := (FIG0Extension2_SId d offset pd).1).
  set (st0 := clearEnsemble clk st).
  assert (Hd0 : decay clk1 st0 = st0) by (apply decay_not_elapsed; exact Hc1).
  destruct (HandleFIG0Extension2_step hdr clk1 d offset cn pd st0)
    as (Hm1 & _ & _ & Hno1 & _).
  destruct (HandleFIG0Extension2_components hdr clk1 d offset cn pd st0)
    as (_ & _ & Hout1 & _).
  pose proof (HandleFIG0Extension2_timeLast hdr clk1 d offset cn pd st0) as Ht1.
  cbv zeta in *. fold SId in Hm1, Hno1, Hout1.
  set (st1 := (HandleFIG0Extension2 hdr clk1 d offset cn pd st0).2) in *.
  rewrite Hd0 in *.
  change (serviceRepeatCount st0) with (∅ : gmap Z Z) in *.
  assert (Hz : counter_of SId (∅ : gmap Z Z) = 0) by reflexivity.
  rewrite Hz in *. cbn [Z.ltb Z.compare Z.add] in Hm1, Hno1.
  destruct Hno1 as [Hs1 He1]; [intros [_ Hbad]; lia|].
  change (services st0) with (@nil Service) in Hs1.
  change (events st0) with (events st) in He1.
  assert (Hn1 : SId ∉ service_ids st1).
  { unfold service_ids. rewrite Hs1. apply not_elem_of_nil. }
  assert (Hcomp1 : components st1 = []) by (rewrite (Hout1 Hn1); reflexivity).
  rewrite insert_empty in Hm1.
  split; [repeat split; assumption|].
  assert (Hd1 : decay clk2 st1 = st1).
  { apply decay_not_elapsed. rewrite Ht1. exact Hc2. }
  destruct (HandleFIG0Extension2_step hdr clk2 d offset cn pd st1)
    as (Hm2 & _ & Hyes2 & _).
  destruct (HandleFIG0Extension2_components hdr clk2 d offset cn pd st1)
    as (_ & _ & _ & Hin2).
  cbv zeta in *. fold SId in Hm2, Hyes2, Hin2.
  set (st2 := (HandleFIG0Extension2 hdr clk2 d offset cn pd st1).2) in *.
  rewrite Hd1 in *.
  assert (Ho : counter_of SId (serviceRepeatCount st1) = 1).
  { rewrite Hm1. unfold counter_of. rewrite lookup_singleton_eq. reflexivity. }
  rewrite Ho in *. cbn [Z.ltb Z.compare Z.add Pos.compare Pos.compare_cont Pos.add] in Hm2, Hyes2.
  destruct Hyes2 as [Hs2 He2]; [split; [exact Hn1|lia]|].
  rewrite Hs1 in Hs2. rewrite He1 in He2. cbn [app] in Hs2.
  rewrite Hm1, insert_singleton_eq in Hm2.
  split; [exact Hs2|]. split; [exact He2|]. split; [exact Hm2|].
  apply Hin2. unfold service_ids. rewrite Hs2.
  apply list_elem_of_singleton. reflexivity.
Qed.

(** The announcement of service [0xA1B2], handled at 100 ms and at
    200 ms after the constructor. *)
Lemma two_sightings_confirm_witness :
  let st2 :=
    (HandleFIG0Extension2 hdr0 (clk_ms 200) fib_announce 2 0 0
       (HandleFIG0Extension2 hdr0 (clk_ms 100) fib_announce 2 0 0
          (clearEnsemble clk0 st0)).2).2 in
  services st2 = [Service_ctor hdr0 0xA1B2] /\
  events st2 = [onServiceDetected 0xA1B2].
Proof.
  cbv zeta.
  destruct (two_sightings_confirm hdr0 clk0 (clk_ms 100) (clk_ms 200) fib_announce
              2 0 0 st0 ltac:(vm_compute; discriminate) ltac:(vm_compute; discriminate))
    as (_ & Hs & He & _).
  split; [exact Hs|exact He].
Defined.

(** X26: sightings more than a second apart never confirm.  If a
    service is not in the list, its counter is at most 1, and more than
    a second has passed since the last decay pass, then the record that
    announces it runs the pass first: afterwards the counter is 1 again,
    the service is still not in the list, no call was made, and the time
    of the last pass is the time of this record.  The same holds of the
    next record if it comes more than a second later, and so on: only
    two sightings without a pass between them confirm a service. *)
Theorem slow_sightings_never_confirm (hdr : Header) (clk : Clock) (d : bitvec)
    (offset cn pd : Z) (st : State) :
  let SId := (FIG0Extension2_SId d offset pd).1 in
  let st' := (HandleFIG0Extension2 hdr clk d offset cn pd st).2 in
  SId ∉ service_ids st ->
  0 <= counter_of SId (serviceRepeatCount st) <= 1 ->
  timeLastServiceDecrement st + one_second < steady_now clk ->
  (SId ∉ service_ids st') /\
  counter_of SId (serviceRepeatCount st') = 1 /\
  events st' = events st /\
  timeLastServiceDecrement st' = steady_now clk.
Proof.
  cbv zeta. intros Hn Hc Ht.
  set (SId := (FIG0Extension2_SId d offset pd).1) in *.
  destruct (HandleFIG0Extension2_step hdr clk d offset cn pd st)
    as (Hm & _ & _ & Hno & _).
  pose proof (HandleFIG0Extension2_timeLast hdr clk d offset cn pd st) as Htl.
  cbv zeta in *. fold SId in Hm, Hno.
  set (st' := (HandleFIG0Extension2 hdr clk d offset cn pd st).2) in *.
  assert (Hcd : counter_of SId (serviceRepeatCount (decay clk st)) = 0).
  { rewrite (decay_elapsed clk st Ht). cbn [serviceRepeatCount set_timeLastServiceDecrement].
    unfold counter_of in *. rewrite decay_pass_counters.
    destruct (serviceRepeatCount st !! SId) as [v|]; cbn in *; [|reflexivity].
    unfold decayed. destruct (0 <? v) eqn:E1; cbn; [apply Z.ltb_lt in E1; lia|].
    destruct (v =? 0) eqn:E2; cbn; [reflexivity|].
    apply Z.ltb_ge in E1. apply Z.eqb_neq in E2. lia. }
  rewrite Hcd in *. cbn [Z.ltb Z.compare Z.add] in Hm, Hno.
  destruct Hno as [Hs He]; [intros [_ Hbad]; lia|].
  split.
  { unfold service_ids. rewrite Hs. intros Hin. apply Hn.
    exact (elem_of_sublist _ _ _ Hin (decay_ids_sublist clk st)). }
  split.
  { rewrite Hm. unfold counter_of. rewrite lookup_insert_eq. reflexivity. }
  split; [exact He|].
  rewrite Htl, (decay_elapsed clk st Ht). reflexivity.
Qed.

(** A new processor and the announcement of service [0xA1B2], 1.5 s
    after the constructor. *)
Lemma slow_sightings_never_confirm_witness :
  let st' := (HandleFIG0Extension2 hdr0 (clk_ms 1500) fib_announce 2 0 0 st0).2 in
  (0xA1B2 ∉ service_ids st') /\
  counter_of 0xA1B2 (serviceRepeatCount st') = 1.
Proof.
  cbv zeta.
  destruct (slow_sightings_never_confirm hdr0 (clk_ms 1500) fib_announce 2 0 0 st0
              ltac:(apply not_elem_of_nil) ltac:(vm_compute; split; discriminate)
              ltac:(vm_compute; reflexivity))
    as (Hn & Hc & _).
  split; [exact Hn|exact Hc].
Defined.
